(** * Squirrel Stash Dash: the simulation core, embedded and verified

    A shallow embedding of the gameplay core of the endless runner
    (camera.py, player.py, yarn.py, obstacles.py, generator.py and the
    life-milestone logic of game.py), with the properties its design
    document states about it.

    Conventions of the embedding.
    - Python floats that only take part in arithmetic, comparisons and
      trigonometry (camera and player coordinates, velocities, timers) are
      idealised as real numbers ([R]); rounding is not modelled.
    - Python ints are [Z].  Probabilities and the values returned by
      [random.random()] are rationals ([Q]): a draw is exactly [k / 2^53].
    - The global [random] module is an explicit random source: a tape of
      raw draws and a cursor, threaded through every function that draws.
    - Rendering, asset loading and sound are outside the model; where the
      presence of an asset changes what the simulation does (the ground
      tileset makes [Ground.__init__] draw random tile variants) it is a
      parameter. *)

From Stdlib Require Import ZArith QArith Qminmax Qround Reals Lra Lia List Bool String.
From stdpp Require Import base list gmap strings.

Import ListNotations.

(* ===================================================================== *)
(** * camera.py *)
(* ===================================================================== *)

Module Camera.
Local Open Scope R_scope.

(** The fields of [class Camera]. *)
Record t : Type := mk {
  screen_width : R;
  screen_height : R;
  x : R;
  y : R;
  target_x : R;
  lerp_speed : R;
  base_offset : R;
  max_offset : R
}.

(** [Camera.__init__(screen_width, screen_height)] *)
Definition init (sw sh : R) : t :=
  {| screen_width := sw;
     screen_height := sh;
     x := 0;
     y := 0;
     target_x := 0;
     lerp_speed := 5;
     base_offset := sw * (3 / 10);
     max_offset := sw * (5 / 10) |}.

(** The look-ahead offset computed in the first two lines of [update]. *)
Definition current_offset (c : t) (player_speed_percentage : R) : R :=
  let speed_factor := player_speed_percentage / 100 in
  base_offset c + (max_offset c - base_offset c) * speed_factor.

(** [Camera.update(dt, player_x, player_speed_percentage)] *)
Definition update (dt player_x player_speed_percentage : R) (c : t) : t :=
  let target := player_x - current_offset c player_speed_percentage in
  let x1 := x c + (target - x c) * lerp_speed c * dt in
  {| screen_width := screen_width c;
     screen_height := screen_height c;
     x := Rmax 0 x1;
     y := 0;
     target_x := target;
     lerp_speed := lerp_speed c;
     base_offset := base_offset c;
     max_offset := max_offset c |}.

Definition get_offset_x (c : t) : R := x c.
Definition get_offset_y (c : t) : R := y c.

(** [n] consecutive calls of [update] with the same arguments. *)
Fixpoint ticks (n : nat) (dt player_x pct : R) (c : t) : t :=
  match n with
  | O => c
  | S n' => update dt player_x pct (ticks n' dt player_x pct c)
  end.


End Camera.

(* ===================================================================== *)
(** * The random source *)
(* ===================================================================== *)

(** Every function of the game draws from Python's global [random] module.
    The embedding makes the source explicit: an infinite tape of raw draws
    and the position of the next one.  A computation that draws is a
    function from the source to a result and the advanced source; [None]
    stands for a Python exception ([IndexError] from [random.choice] on an
    empty sequence or from an index out of range, [ValueError] from
    [random.randint] on an empty range) and for a loop that ran out of
    fuel. *)
Module Random.

Record source : Type := mk { tape : nat -> N; cursor : nat }.

Definition M (A : Type) : Type := source -> option (A * source).

Definition ret {A : Type} (a : A) : M A := fun s => Some (a, s).

Definition bind {A B : Type} (c : M A) (k : A -> M B) : M B :=
  fun s => match c s with
           | Some (a, s') => k a s'
           | None => None
           end.

Definition raise {A : Type} : M A := fun _ => None.

(** One raw draw. *)
Definition draw : M N :=
  fun s => Some (tape s (cursor s), {| tape := tape s; cursor := S (cursor s) |}).

(** [random.random()]: a float [k / 2^53] with [0 <= k < 2^53]. *)
Definition random : M Q :=
  bind draw (fun k => ret (Z.of_N (k mod 2 ^ 53) # 2 ^ 53)).

(** [random.randint(a, b)]: an integer of [[a, b]]. *)
Definition randint (a b : Z) : M Z :=
  if (b <? a)%Z then raise
  else bind draw (fun k => ret (a + Z.of_N k mod (b - a + 1))%Z).

(** [random.choice(seq)] *)
Definition choice {A : Type} (l : list A) : M A :=
  match l with
  | [] => raise
  | _ :: _ =>
      bind draw (fun k =>
        match nth_error l (N.to_nat (k mod N.of_nat (length l))) with
        | Some a => ret a
        | None => raise
        end)
  end.

(** [seq[i]] for a non-negative index. *)
Definition index {A : Type} (l : list A) (i : nat) : M A :=
  match nth_error l i with
  | Some a => ret a
  | None => raise
  end.

(** The source whose every draw is [k]. *)
Definition constant (k : N) : source := {| tape := fun _ => k; cursor := 0 |}.

(** The source whose tape is the list [l] followed by zeros. *)
Definition of_list (l : list N) : source :=
  {| tape := fun i => nth i l 0%N; cursor := 0 |}.

End Random.

Declare Scope random_scope.
Delimit Scope random_scope with random.
Notation "'let*' x ':=' c 'in' k" := (Random.bind c (fun x => k))
  (at level 10, x name, c at level 100, k at level 200) : random_scope.
Notation "'let*' ' p ':=' c 'in' k" :=
  (Random.bind c (fun x => match x with p => k end))
  (at level 10, p pattern, c at level 100, k at level 200) : random_scope.

(** Python's [a < b] on rationals. *)
Definition Qltb (a b : Q) : bool :=
  match (a ?= b)%Q with Lt => true | _ => false end.

(* ===================================================================== *)
(** * yarn.py *)
(* ===================================================================== *)

Module Yarn.
Local Open Scope string_scope.
Local Open Scope Z_scope.

(** One entry of [YARN_TIERS]. *)
Record tier : Type := mk_tier {
  colors : list string;
  points : Z;
  min_stash : Z
}.

Definition basic_tier : tier :=
  {| colors := ["red"; "green"; "blue"]; points := 1; min_stash := 0 |}.
Definition mid_tier : tier :=
  {| colors := ["cyan"; "magenta"; "yellow"; "black"]; points := 2; min_stash := 10 |}.
Definition late_tier : tier :=
  {| colors := ["orange"; "purple"; "lime"; "teal"; "pink"; "brown"];
     points := 3; min_stash := 25 |}.
Definition rare_tier : tier :=
  {| colors := ["rainbow"]; points := 5; min_stash := 0 |}.

(** [YARN_TIERS["rare"]["spawn_chance"]] *)
Definition rare_spawn_chance : Q := (5 # 100)%Q.

(** [YARN_TIERS], in the insertion order that [.items()] and [.values()]
    iterate in. *)
Definition YARN_TIERS : list (string * tier) :=
  [("basic", basic_tier); ("mid", mid_tier); ("late", late_tier); ("rare", rare_tier)].

(** The fields of [class YarnSkein] that the simulation reads.  The two
    animation phases are kept as the draws they are computed from (the
    source multiplies each by [2 * pi]); the images are not modelled.
    [world_x = float(x)] of an int is that int. *)
Record YarnSkein : Type := mk_yarn {
  color_name : string;
  yarn_points : Z;
  world_x : Z;
  world_y : Z;
  bob_offset_draw : Q;
  wiggle_offset_draw : Q;
  is_rainbow : bool;
  is_scattered : bool;
  scatter_timer : Z;
  scatter_duration : Z
}.

Local Open Scope random_scope.

(** [YarnSkein.__init__(x, y, color, points)] *)
Definition YarnSkein_init (x y : Z) (color : string) (pts : Z) : Random.M YarnSkein :=
  let* bob := Random.random in
  let* wiggle := Random.random in
  Random.ret
    {| color_name := color;
       yarn_points := pts;
       world_x := x;
       world_y := y;
       bob_offset_draw := bob;
       wiggle_offset_draw := wiggle;
       is_rainbow := String.eqb color "rainbow";
       is_scattered := false;
       scatter_timer := 0;
       scatter_duration := 180 |}.

Definition is_expired (yarn : YarnSkein) : bool :=
  is_scattered yarn && (scatter_duration yarn <=? scatter_timer yarn).

Definition is_off_screen (yarn : YarnSkein) (camera_offset : Q) (buffer : Z) : bool :=
  Qltb (inject_Z (world_x yarn)) (camera_offset - inject_Z buffer).

(** [color in tier["colors"]] *)
Definition color_in (color : string) (tr : tier) : bool :=
  existsb (String.eqb color) (colors tr).

(** [get_available_colors(stash)] *)
Definition get_available_colors (stash : Z) : list string :=
  let available :=
    fold_left
      (fun (available : list string) (item : string * tier) =>
         let (tier_name, tr) := item in
         if String.eqb tier_name "rare" then available
         else if min_stash tr <=? stash then (available ++ colors tr)%list
         else available)
      YARN_TIERS [] in
  match available with
  | [] => colors basic_tier
  | _ :: _ => available
  end.

(** [get_min_stash_for_color(color)] *)
Definition get_min_stash_for_color (color : string) : Z :=
  match find (fun item : string * tier => color_in color (snd item)) YARN_TIERS with
  | Some (_, tr) => min_stash tr
  | None => 0
  end.

(** The [for tier in YARN_TIERS.values()] loop of [spawn_yarn]. *)
Definition points_for_color (color : string) : Z :=
  match find (fun item : string * tier => color_in color (snd item)) YARN_TIERS with
  | Some (_, tr) => points tr
  | None => 1
  end.

(** [spawn_yarn(x, y, stash)].  The result type is [Optional[YarnSkein]]. *)
Definition spawn_yarn (x y stash : Z) : Random.M (option YarnSkein) :=
  let* r := Random.random in
  if Qltb r rare_spawn_chance then
    let* yarn := YarnSkein_init x y "rainbow" (points rare_tier) in
    Random.ret (Some yarn)
  else
    let available := get_available_colors stash in
    let* color := Random.choice available in
    let pts := points_for_color color in
    let* yarn := YarnSkein_init x y color pts in
    Random.ret (Some yarn).

End Yarn.

(* ===================================================================== *)
(** * obstacles.py *)
(* ===================================================================== *)

Module Obstacles.
Local Open Scope Z_scope.
Local Open Scope random_scope.

(** [class Platform]: position and width.  The height depends on the
    sprite file and is not read by the generator. *)
Record Platform : Type := mk_platform {
  p_world_x : Z;
  p_world_y : Z;
  p_width : Z
}.

(** [Platform(x, y, width)] *)
Definition Platform_init (x y width : Z) : Platform :=
  {| p_world_x := x; p_world_y := y; p_width := width |}.

Definition Platform_is_off_screen (p : Platform) (camera_offset : Q) (buffer : Z) : bool :=
  Qltb (inject_Z (p_world_x p)) (camera_offset - inject_Z buffer).

(** [class Ground]: a ground column.  The edge flags decide which tiles
    the column is drawn with. *)
Record Ground : Type := mk_ground {
  g_world_x : Z;
  g_world_y : Z;
  g_is_left_edge : bool;
  g_is_right_edge : bool
}.

Definition TILE_SIZE : Z := 16.
Definition COLUMN_WIDTH : Z := 64.
Definition SCREEN_BOTTOM : Z := 600.

(** The tile picked for one cell in [Ground._build_from_tileset]: an edge
    tile, or a random choice among the 3 grass or the 4 dirt variants. *)
Definition build_cell (tiles_across : Z) (is_left_edge is_right_edge : bool)
    (row col : Z) : Random.M unit :=
  if ((col =? 0) && is_left_edge)%bool then Random.ret tt
  else if ((col =? tiles_across - 1) && is_right_edge)%bool then Random.ret tt
  else if row =? 0 then
    let* _ := Random.choice [0; 1; 2] in Random.ret tt
  else
    let* _ := Random.choice [0; 1; 2; 3] in Random.ret tt.

(** [for x in range(n): body(x)] *)
Fixpoint for_range (n : nat) (start : Z) (body : Z -> Random.M unit) : Random.M unit :=
  match n with
  | O => Random.ret tt
  | S n' => let* _ := body start in for_range n' (start + 1) body
  end.

(** [Ground._build_from_tileset(is_left_edge, is_right_edge, random)] *)
Definition build_from_tileset (height : Z) (is_left_edge is_right_edge : bool)
    : Random.M unit :=
  let tiles_across := COLUMN_WIDTH / TILE_SIZE in
  let tiles_down := (height + TILE_SIZE - 1) / TILE_SIZE in
  for_range (Z.to_nat tiles_down) 0 (fun row =>
    for_range (Z.to_nat tiles_across) 0 (fun col =>
      build_cell tiles_across is_left_edge is_right_edge row col)).

(** [Ground(x, y, is_left_edge, is_right_edge)]; [tileset_loaded] says
    whether the tileset image was found. *)
Definition Ground_init (tileset_loaded : bool) (x y : Z)
    (is_left_edge is_right_edge : bool) : Random.M Ground :=
  let height := SCREEN_BOTTOM - y in
  let* _ := (if tileset_loaded
             then build_from_tileset height is_left_edge is_right_edge
             else Random.ret tt) in
  Random.ret {| g_world_x := x; g_world_y := y;
                g_is_left_edge := is_left_edge;
                g_is_right_edge := is_right_edge |}.

Definition Ground_is_off_screen (g : Ground) (camera_offset : Q) (buffer : Z) : bool :=
  Qltb (inject_Z (g_world_x g)) (camera_offset - inject_Z buffer).

(** [class Bush] *)
Record Bush : Type := mk_bush {
  b_world_x : Z;
  b_world_y : Z;
  b_width : Z;
  b_height : Z
}.

(** [Bush(x, y)] *)
Definition Bush_init (x y : Z) : Bush :=
  {| b_world_x := x; b_world_y := y; b_width := 64; b_height := 48 |}.

Definition Bush_is_off_screen (b : Bush) (camera_offset : Q) (buffer : Z) : bool :=
  Qltb (inject_Z (b_world_x b)) (camera_offset - inject_Z buffer).

(** [class Gap] *)
Record Gap : Type := mk_gap {
  start_x : Z;
  width : Z;
  end_x : Z;
  ground_y : Z
}.

(** [Gap(start_x, width, ground_y)] *)
Definition Gap_init (sx w gy : Z) : Gap :=
  {| start_x := sx; width := w; end_x := sx + w; ground_y := gy |}.

(** [Gap.contains_x(x)]: [self.start_x <= x <= self.end_x], [x] a float. *)
Definition contains_x (gap : Gap) (x : Q) : bool :=
  Qle_bool (inject_Z (start_x gap)) x && Qle_bool x (inject_Z (end_x gap)).

Definition Gap_is_off_screen (gap : Gap) (camera_offset : Q) (buffer : Z) : bool :=
  Qltb (inject_Z (end_x gap)) (camera_offset - inject_Z buffer).

(** The hitbox of a bush, as [Bush.__init__] builds it and as
    [Game._check_collisions] rebuilds it in world coordinates:
    [pygame.Rect(x + width // 6, y + height // 4, width * 2 // 3,
    height * 2 // 3)], as (left, top, width, height). *)
Definition Bush_hitbox (b : Bush) : Z * Z * Z * Z :=
  (b_world_x b + b_width b / 6,
   b_world_y b + b_height b / 4,
   b_width b * 2 / 3,
   b_height b * 2 / 3).

End Obstacles.

(* ===================================================================== *)
(** * generator.py *)
(* ===================================================================== *)

Module Generator.
Import Obstacles Yarn.
Local Open Scope Z_scope.
Local Open Scope random_scope.

Definition SCREEN_WIDTH : Z := 800.
Definition SCREEN_HEIGHT : Z := 600.
Definition GROUND_Y : Z := 584.
Definition GROUND_TILE_SIZE : Z := 64.
Definition PLATFORM_LOW_Y : Z := 514.
Definition PLATFORM_MID_Y : Z := 474.
Definition PLATFORM_HIGH_Y : Z := 434.
Definition PLATFORM_WIDTH : Z := 128.
Definition PLATFORM_MIN_SPACING : Z := 250.
Definition CHUNK_WIDTH : Z := 400.

(** The attributes of [class LevelGenerator].  [current_stash] does not
    exist until [update] first runs, and is read with
    [getattr(self, 'current_stash', 0)]. *)
Record LevelGenerator : Type := mk {
  last_generated_x : Z;
  difficulty : Q;
  ground_tiles : list Ground;
  platforms : list Platform;
  bushes : list Bush;
  gaps : list Gap;
  yarns : list YarnSkein;
  last_platform_x : Z;
  last_platform_y : Z;
  yarn_reset_to_basic : bool;
  current_stash : option Z
}.

(** [LevelGenerator.__init__()] *)
Definition init : LevelGenerator :=
  {| last_generated_x := 0;
     difficulty := 1;
     ground_tiles := [];
     platforms := [];
     bushes := [];
     gaps := [];
     yarns := [];
     last_platform_x := -1000;
     last_platform_y := GROUND_Y;
     yarn_reset_to_basic := false;
     current_stash := None |}.

(** ** Attribute updates *)

(** [self.ground_tiles.append(t)] *)
Definition add_ground (t : Ground) (g : LevelGenerator) : LevelGenerator :=
  mk (last_generated_x g) (difficulty g) (ground_tiles g ++ [t]) (platforms g)
     (bushes g) (gaps g) (yarns g) (last_platform_x g) (last_platform_y g)
     (yarn_reset_to_basic g) (current_stash g).

(** [self.platforms.append(p)] *)
Definition add_platform (p : Platform) (g : LevelGenerator) : LevelGenerator :=
  mk (last_generated_x g) (difficulty g) (ground_tiles g) (platforms g ++ [p])
     (bushes g) (gaps g) (yarns g) (last_platform_x g) (last_platform_y g)
     (yarn_reset_to_basic g) (current_stash g).

(** [self.bushes.append(b)] *)
Definition add_bush (b : Bush) (g : LevelGenerator) : LevelGenerator :=
  mk (last_generated_x g) (difficulty g) (ground_tiles g) (platforms g)
     (bushes g ++ [b]) (gaps g) (yarns g) (last_platform_x g) (last_platform_y g)
     (yarn_reset_to_basic g) (current_stash g).

(** [self.gaps.append(gap)] *)
Definition add_gap (gap : Gap) (g : LevelGenerator) : LevelGenerator :=
  mk (last_generated_x g) (difficulty g) (ground_tiles g) (platforms g)
     (bushes g) (gaps g ++ [gap]) (yarns g) (last_platform_x g) (last_platform_y g)
     (yarn_reset_to_basic g) (current_stash g).

(** [if yarn: self.yarns.append(yarn)] *)
Definition add_yarn (yarn : option YarnSkein) (g : LevelGenerator) : LevelGenerator :=
  match yarn with
  | Some y =>
      mk (last_generated_x g) (difficulty g) (ground_tiles g) (platforms g)
         (bushes g) (gaps g) (yarns g ++ [y]) (last_platform_x g) (last_platform_y g)
         (yarn_reset_to_basic g) (current_stash g)
  | None => g
  end.

(** [self.last_platform_x = x; self.last_platform_y = y] *)
Definition set_last_platform (x y : Z) (g : LevelGenerator) : LevelGenerator :=
  mk (last_generated_x g) (difficulty g) (ground_tiles g) (platforms g)
     (bushes g) (gaps g) (yarns g) x y
     (yarn_reset_to_basic g) (current_stash g).

(** [self.last_generated_x = x] *)
Definition set_last_generated_x (x : Z) (g : LevelGenerator) : LevelGenerator :=
  mk x (difficulty g) (ground_tiles g) (platforms g)
     (bushes g) (gaps g) (yarns g) (last_platform_x g) (last_platform_y g)
     (yarn_reset_to_basic g) (current_stash g).

(** [getattr(self, 'current_stash', 0)] *)
Definition getattr_current_stash (g : LevelGenerator) : Z :=
  match current_stash g with Some s => s | None => 0 end.

(** [reset_yarn_tiers()] *)
Definition reset_yarn_tiers (g : LevelGenerator) : LevelGenerator :=
  mk (last_generated_x g) (difficulty g) (ground_tiles g) (platforms g)
     (bushes g) (gaps g) (yarns g) (last_platform_x g) (last_platform_y g)
     true (current_stash g).

(** [restore_yarn_progression()] *)
Definition restore_yarn_progression (g : LevelGenerator) : LevelGenerator :=
  mk (last_generated_x g) (difficulty g) (ground_tiles g) (platforms g)
     (bushes g) (gaps g) (yarns g) (last_platform_x g) (last_platform_y g)
     false (current_stash g).

(** [get_ground_at(x)] *)
Definition get_ground_at (g : LevelGenerator) (x : Q) : option Z :=
  if existsb (fun gap => contains_x gap x) (gaps g) then None else Some GROUND_Y.

(** [range(start, stop, step)] for a positive step. *)
Definition py_range (start stop step : Z) : list Z :=
  map (fun k => start + step * Z.of_nat k)
      (seq 0 (Z.to_nat ((stop - start + step - 1) / step))).

(** A [for] loop whose body updates the generator. *)
Fixpoint for_each {A : Type} (l : list A)
    (body : A -> LevelGenerator -> Random.M LevelGenerator)
    (g : LevelGenerator) : Random.M LevelGenerator :=
  match l with
  | [] => Random.ret g
  | a :: l' => let* g' := body a g in for_each l' body g'
  end.

(** [enumerate(l)] *)
Definition enumerate {A : Type} (l : list A) : list (nat * A) :=
  combine (seq 0 (length l)) l.

Section WithAssets.

(** Whether [assets/sprites/ground_tileset.png] was found. *)
Variable tileset_loaded : bool.

(** [generate_initial()] *)
Definition generate_initial (g : LevelGenerator) : Random.M LevelGenerator :=
  let* g1 :=
    for_each (py_range (- GROUND_TILE_SIZE) (SCREEN_WIDTH + CHUNK_WIDTH) GROUND_TILE_SIZE)
      (fun x g =>
         let* t := Ground_init tileset_loaded x GROUND_Y false false in
         Random.ret (add_ground t g)) g in
  let g2 := set_last_generated_x (SCREEN_WIDTH + CHUNK_WIDTH) g1 in
  for_each [0; 1; 2]
    (fun i g =>
       let x := 300 + i * 150 in
       let y := GROUND_Y - 60 in
       let* yarn := spawn_yarn x y 0 in
       Random.ret (add_yarn yarn g)) g2.

(** The first loop of [_generate_chunk]:
    [while x < start_x + CHUNK_WIDTH: tile_positions.append(x); x += 64]. *)
Fixpoint tile_positions_loop (fuel : nat) (x stop : Z) (tile_positions : list Z)
    : Random.M (list Z) :=
  if x <? stop then
    match fuel with
    | O => Random.raise
    | S fuel' =>
        tile_positions_loop fuel' (x + GROUND_TILE_SIZE) stop (tile_positions ++ [x])
    end
  else Random.ret tile_positions.

(** [for j in range(num_tiles)]: mark the tiles of a gap that lie inside
    the chunk; returns the marked set and [tiles_added]. *)
Fixpoint mark_gap_tiles (js : list nat) (tile_positions : list Z) (i : nat)
    (gap_positions : gset Z) (tiles_added : nat) : Random.M (gset Z * nat) :=
  match js with
  | [] => Random.ret (gap_positions, tiles_added)
  | j :: js' =>
      if (i + j <? length tile_positions)%nat then
        let* tile_x := Random.index tile_positions (i + j) in
        mark_gap_tiles js' tile_positions i ({[ tile_x ]} ∪ gap_positions) (S tiles_added)
      else
        mark_gap_tiles js' tile_positions i gap_positions tiles_added
  end.

(** The block of [_generate_chunk] that creates one gap at index [i], its
    rescue platform and the pickup above it; returns the marked set,
    [tiles_added] and the generator. *)
Definition create_gap (tile_positions : list Z) (i : nat) (gap_positions : gset Z)
    (g : LevelGenerator) : Random.M (gset Z * nat * LevelGenerator) :=
  let* num_tiles := Random.randint 2 3 in
  let* gap_start_x := Random.index tile_positions i in
  let* '(gap_positions', tiles_added) :=
    mark_gap_tiles (seq 0 (Z.to_nat num_tiles)) tile_positions i gap_positions 0 in
  let gap_width := Z.of_nat tiles_added * GROUND_TILE_SIZE in
  let g1 := add_gap (Gap_init gap_start_x gap_width GROUND_Y) g in
  let platform_y := PLATFORM_LOW_Y in
  let platform_width := gap_width + 40 in
  let g2 := add_platform (Platform_init (gap_start_x - 10) platform_y platform_width) g1 in
  let g3 := set_last_platform gap_start_x platform_y g2 in
  let stash := getattr_current_stash g3 in
  let* yarn := spawn_yarn (gap_start_x + gap_width / 2) (platform_y - 45) stash in
  Random.ret (gap_positions', tiles_added, add_yarn yarn g3).

(** The gap-placement loop of [_generate_chunk]:
    [while i < len(tile_positions)]. *)
Fixpoint gap_loop (fuel : nat) (tile_positions : list Z) (gap_chance : Q) (i : nat)
    (gap_positions : gset Z) (g : LevelGenerator)
    : Random.M (gset Z * LevelGenerator) :=
  if (i <? length tile_positions)%nat then
    match fuel with
    | O => Random.raise
    | S fuel' =>
        let* r := Random.random in
        if Qltb r gap_chance && (i + 1 <? length tile_positions)%nat then
          let* '(gap_positions', tiles_added, g') :=
            create_gap tile_positions i gap_positions g in
          gap_loop fuel' tile_positions gap_chance (i + tiles_added) gap_positions' g'
        else
          gap_loop fuel' tile_positions gap_chance (i + 1) gap_positions g
    end
  else Random.ret (gap_positions, g).

(** The bush roll of a ground column. *)
Definition roll_bush (distance tile_x : Z) (g : LevelGenerator)
    : Random.M LevelGenerator :=
  let bush_chance := if 50 <? distance then ((6 # 100) * difficulty g)%Q else 0%Q in
  let* r := Random.random in
  if Qltb r bush_chance then
    let* d := Random.randint 10 30 in
    let bush_x := tile_x + d in
    let bush_height := 48 in
    let bush_y_offset := 12 in
    Random.ret (add_bush (Bush_init bush_x (GROUND_Y - bush_height + bush_y_offset)) g)
  else Random.ret g.

(** The platform roll of a ground column and, in its [else], the roll for
    a pickup floating in the air. *)
Definition roll_platform_or_yarn (distance tile_x : Z) (g : LevelGenerator)
    : Random.M LevelGenerator :=
  let platform_chance := if 80 <? distance then (8 # 100)%Q else 0%Q in
  let* r := Random.random in
  if Qltb r platform_chance && (PLATFORM_MIN_SPACING <? tile_x - last_platform_x g) then
    let heights :=
      if 200 <? distance
      then [PLATFORM_LOW_Y; PLATFORM_MID_Y] ++ [PLATFORM_HIGH_Y]
      else [PLATFORM_LOW_Y; PLATFORM_MID_Y] in
    let* platform_y := Random.choice heights in
    let* platform_width := Random.choice [96; 128; 160] in
    let g1 := add_platform (Platform_init tile_x platform_y platform_width) g in
    let g2 := set_last_platform tile_x platform_y g1 in
    let* r2 := Random.random in
    if Qltb r2 (7 # 10) then
      let stash := getattr_current_stash g2 in
      let* yarn := spawn_yarn (tile_x + platform_width / 2 - 16) (platform_y - 45) stash in
      Random.ret (add_yarn yarn g2)
    else Random.ret g2
  else
    let stash := getattr_current_stash g in
    let yarn_chance := ((20 # 100) - Qmin (8 # 100) (inject_Z stash * (4 # 1000)))%Q in
    let* r2 := Random.random in
    if Qltb r2 yarn_chance then
      let* d := Random.randint 10 50 in
      let yarn_x := tile_x + d in
      let* h := Random.choice [60; 90; 120] in
      let yarn_y := GROUND_Y - h in
      let* yarn := spawn_yarn yarn_x yarn_y stash in
      Random.ret (add_yarn yarn g)
    else Random.ret g.

(** What [_generate_chunk] does for a column that is not part of a gap:
    the ground tile, then the rolls. *)
Definition place_ground_column (tile_positions : list Z) (gap_positions : gset Z)
    (distance : Z) (idx : nat) (tile_x : Z) (g : LevelGenerator)
    : Random.M LevelGenerator :=
  let* prev_x :=
    (if (0 <? idx)%nat
     then let* v := Random.index tile_positions (idx - 1) in Random.ret (Some v)
     else Random.ret None) in
  let* next_x :=
    (if (idx <? length tile_positions - 1)%nat
     then let* v := Random.index tile_positions (idx + 1) in Random.ret (Some v)
     else Random.ret None) in
  let is_left_edge :=
    match prev_x with Some v => bool_decide (v ∈ gap_positions) | None => false end in
  let is_right_edge :=
    match next_x with Some v => bool_decide (v ∈ gap_positions) | None => false end in
  let* t := Ground_init tileset_loaded tile_x GROUND_Y is_left_edge is_right_edge in
  let g1 := add_ground t g in
  let* g2 := roll_bush distance tile_x g1 in
  roll_platform_or_yarn distance tile_x g2.

(** The body of [for idx, tile_x in enumerate(tile_positions)]. *)
Definition place_column (tile_positions : list Z) (gap_positions : gset Z)
    (distance : Z) (col : nat * Z) (g : LevelGenerator) : Random.M LevelGenerator :=
  let (idx, tile_x) := col in
  if bool_decide (tile_x ∈ gap_positions) then Random.ret g
  else place_ground_column tile_positions gap_positions distance idx tile_x g.

(** [_generate_chunk(start_x, distance)] *)
Definition _generate_chunk (start_x distance : Z) (g : LevelGenerator)
    : Random.M LevelGenerator :=
  let* tile_positions :=
    tile_positions_loop (Z.to_nat CHUNK_WIDTH) start_x (start_x + CHUNK_WIDTH) [] in
  let gap_chance := if 100 <? distance then ((5 # 100) * difficulty g)%Q else 0%Q in
  let* '(gap_positions, g1) :=
    gap_loop (length tile_positions) tile_positions gap_chance 0 ∅ g in
  for_each (enumerate tile_positions)
    (place_column tile_positions gap_positions distance) g1.

(** [_cleanup(camera_x)] *)
Definition _cleanup (camera_x : Q) (g : LevelGenerator) : LevelGenerator :=
  let buffer := 200 in
  let stash := getattr_current_stash g in
  mk (last_generated_x g) (difficulty g)
     (filter (fun t => negb (Ground_is_off_screen t camera_x buffer)) (ground_tiles g))
     (filter (fun p => negb (Platform_is_off_screen p camera_x buffer)) (platforms g))
     (filter (fun b => negb (Bush_is_off_screen b camera_x buffer)) (bushes g))
     (filter (fun gap => negb (Gap_is_off_screen gap camera_x buffer)) (gaps g))
     (filter (fun y => negb (is_off_screen y camera_x buffer)
                       && negb (is_expired y)
                       && (get_min_stash_for_color (color_name y) <=? stash))
             (yarns g))
     (last_platform_x g) (last_platform_y g)
     (yarn_reset_to_basic g) (current_stash g).

(** The loop of [update]:
    [while self.last_generated_x < generate_ahead]. *)
Fixpoint generate_ahead_loop (fuel : nat) (generate_ahead : Q) (distance : Z)
    (g : LevelGenerator) : Random.M LevelGenerator :=
  if Qltb (inject_Z (last_generated_x g)) generate_ahead then
    match fuel with
    | O => Random.raise
    | S fuel' =>
        let* g1 := _generate_chunk (last_generated_x g) distance g in
        generate_ahead_loop fuel' generate_ahead distance
          (set_last_generated_x (last_generated_x g1 + CHUNK_WIDTH) g1)
    end
  else Random.ret g.

(** [update(camera_x, distance, stash)] *)
Definition update (camera_x : Q) (distance stash : Z) (g : LevelGenerator)
    : Random.M LevelGenerator :=
  let g1 :=
    mk (last_generated_x g) (1 + (distance # 1000) * (3 # 10))%Q
       (ground_tiles g) (platforms g) (bushes g) (gaps g) (yarns g)
       (last_platform_x g) (last_platform_y g)
       (yarn_reset_to_basic g) (Some stash) in
  let generate_ahead := (camera_x + inject_Z SCREEN_WIDTH + inject_Z CHUNK_WIDTH)%Q in
  let fuel := Z.to_nat (Qceiling generate_ahead - last_generated_x g1) in
  let* g2 := generate_ahead_loop fuel generate_ahead distance g1 in
  Random.ret (_cleanup camera_x g2).

End WithAssets.

End Generator.

(* ===================================================================== *)
(** * player.py *)
(* ===================================================================== *)

Module Squirrel.
Local Open Scope R_scope.

(** [STATE_RUNNING], [STATE_JUMPING], [STATE_HIT] *)
Inductive state_t : Type := STATE_RUNNING | STATE_JUMPING | STATE_HIT.

Definition state_eqb (a b : state_t) : bool :=
  match a, b with
  | STATE_RUNNING, STATE_RUNNING => true
  | STATE_JUMPING, STATE_JUMPING => true
  | STATE_HIT, STATE_HIT => true
  | _, _ => false
  end.

(** Python's comparisons on floats, as booleans. *)
Definition Rltb (a b : R) : bool := if Rlt_dec a b then true else false.
Definition Rleb (a b : R) : bool := if Rle_dec a b then true else false.

(** The attributes of [class Squirrel].  The three [frames_*] fields are
    the lengths of the frame lists of [self.animations], which depend on
    the sprite files found; the sprites themselves are not modelled. *)
Record t : Type := mk {
  x : R;
  y : R;
  width : R;
  height : R;
  frames_running : Z;
  frames_jumping : Z;
  frames_hit : Z;
  current_frame : Z;
  animation_timer : R;
  animation_speed : R;
  velocity_x : R;
  velocity_y : R;
  base_speed : R;
  speed_multiplier : R;
  speed_increase_rate : R;
  jump_strength : R;
  gravity : R;
  gap_gravity : R;
  is_grounded : bool;
  ground_y : R;
  falling_in_gap : bool;
  state : state_t;
  yarn_count : Z;
  hit_timer : R;
  hit_duration : R;
  hit_speed_reduction : R;
  max_lives : Z;
  lives : Z;
  life_lost_this_hit : bool
}.

(** [self.x = v] *)
Definition set_x (v : R) (p : t) : t :=
  mk v (y p) (width p) (height p) (frames_running p) (frames_jumping p)
    (frames_hit p) (current_frame p) (animation_timer p) (animation_speed p)
    (velocity_x p) (velocity_y p) (base_speed p) (speed_multiplier p)
    (speed_increase_rate p) (jump_strength p) (gravity p) (gap_gravity p)
    (is_grounded p) (ground_y p) (falling_in_gap p) (state p) (yarn_count p)
    (hit_timer p) (hit_duration p) (hit_speed_reduction p) (max_lives p)
    (lives p) (life_lost_this_hit p).

(** [self.y = v] *)
Definition set_y (v : R) (p : t) : t :=
  mk (x p) v (width p) (height p) (frames_running p) (frames_jumping p)
    (frames_hit p) (current_frame p) (animation_timer p) (animation_speed p)
    (velocity_x p) (velocity_y p) (base_speed p) (speed_multiplier p)
    (speed_increase_rate p) (jump_strength p) (gravity p) (gap_gravity p)
    (is_grounded p) (ground_y p) (falling_in_gap p) (state p) (yarn_count p)
    (hit_timer p) (hit_duration p) (hit_speed_reduction p) (max_lives p)
    (lives p) (life_lost_this_hit p).

(** [self.current_frame = v] *)
Definition set_current_frame (v : Z) (p : t) : t :=
  mk (x p) (y p) (width p) (height p) (frames_running p) (frames_jumping p)
    (frames_hit p) v (animation_timer p) (animation_speed p) (velocity_x p)
    (velocity_y p) (base_speed p) (speed_multiplier p)
    (speed_increase_rate p) (jump_strength p) (gravity p) (gap_gravity p)
    (is_grounded p) (ground_y p) (falling_in_gap p) (state p) (yarn_count p)
    (hit_timer p) (hit_duration p) (hit_speed_reduction p) (max_lives p)
    (lives p) (life_lost_this_hit p).

(** [self.animation_timer = v] *)
Definition set_animation_timer (v : R) (p : t) : t :=
  mk (x p) (y p) (width p) (height p) (frames_running p) (frames_jumping p)
    (frames_hit p) (current_frame p) v (animation_speed p) (velocity_x p)
    (velocity_y p) (base_speed p) (speed_multiplier p)
    (speed_increase_rate p) (jump_strength p) (gravity p) (gap_gravity p)
    (is_grounded p) (ground_y p) (falling_in_gap p) (state p) (yarn_count p)
    (hit_timer p) (hit_duration p) (hit_speed_reduction p) (max_lives p)
    (lives p) (life_lost_this_hit p).

(** [self.velocity_x = v] *)
Definition set_velocity_x (v : R) (p : t) : t :=
  mk (x p) (y p) (width p) (height p) (frames_running p) (frames_jumping p)
    (frames_hit p) (current_frame p) (animation_timer p) (animation_speed p)
    v (velocity_y p) (base_speed p) (speed_multiplier p)
    (speed_increase_rate p) (jump_strength p) (gravity p) (gap_gravity p)
    (is_grounded p) (ground_y p) (falling_in_gap p) (state p) (yarn_count p)
    (hit_timer p) (hit_duration p) (hit_speed_reduction p) (max_lives p)
    (lives p) (life_lost_this_hit p).

(** [self.velocity_y = v] *)
Definition set_velocity_y (v : R) (p : t) : t :=
  mk (x p) (y p) (width p) (height p) (frames_running p) (frames_jumping p)
    (frames_hit p) (current_frame p) (animation_timer p) (animation_speed p)
    (velocity_x p) v (base_speed p) (speed_multiplier p)
    (speed_increase_rate p) (jump_strength p) (gravity p) (gap_gravity p)
    (is_grounded p) (ground_y p) (falling_in_gap p) (state p) (yarn_count p)
    (hit_timer p) (hit_duration p) (hit_speed_reduction p) (max_lives p)
    (lives p) (life_lost_this_hit p).

(** [self.speed_multiplier = v] *)
Definition set_speed_multiplier (v : R) (p : t) : t :=
  mk (x p) (y p) (width p) (height p) (frames_running p) (frames_jumping p)
    (frames_hit p) (current_frame p) (animation_timer p) (animation_speed p)
    (velocity_x p) (velocity_y p) (base_speed p) v (speed_increase_rate p)
    (jump_strength p) (gravity p) (gap_gravity p) (is_grounded p)
    (ground_y p) (falling_in_gap p) (state p) (yarn_count p) (hit_timer p)
    (hit_duration p) (hit_speed_reduction p) (max_lives p) (lives p)
    (life_lost_this_hit p).

(** [self.is_grounded = v] *)
Definition set_is_grounded (v : bool) (p : t) : t :=
  mk (x p) (y p) (width p) (height p) (frames_running p) (frames_jumping p)
    (frames_hit p) (current_frame p) (animation_timer p) (animation_speed p)
    (velocity_x p) (velocity_y p) (base_speed p) (speed_multiplier p)
    (speed_increase_rate p) (jump_strength p) (gravity p) (gap_gravity p) v
    (ground_y p) (falling_in_gap p) (state p) (yarn_count p) (hit_timer p)
    (hit_duration p) (hit_speed_reduction p) (max_lives p) (lives p)
    (life_lost_this_hit p).

(** [self.state = v] *)
Definition set_state (v : state_t) (p : t) : t :=
  mk (x p) (y p) (width p) (height p) (frames_running p) (frames_jumping p)
    (frames_hit p) (current_frame p) (animation_timer p) (animation_speed p)
    (velocity_x p) (velocity_y p) (base_speed p) (speed_multiplier p)
    (speed_increase_rate p) (jump_strength p) (gravity p) (gap_gravity p)
    (is_grounded p) (ground_y p) (falling_in_gap p) v (yarn_count p)
    (hit_timer p) (hit_duration p) (hit_speed_reduction p) (max_lives p)
    (lives p) (life_lost_this_hit p).

(** [self.yarn_count = v] *)
Definition set_yarn_count (v : Z) (p : t) : t :=
  mk (x p) (y p) (width p) (height p) (frames_running p) (frames_jumping p)
    (frames_hit p) (current_frame p) (animation_timer p) (animation_speed p)
    (velocity_x p) (velocity_y p) (base_speed p) (speed_multiplier p)
    (speed_increase_rate p) (jump_strength p) (gravity p) (gap_gravity p)
    (is_grounded p) (ground_y p) (falling_in_gap p) (state p) v
    (hit_timer p) (hit_duration p) (hit_speed_reduction p) (max_lives p)
    (lives p) (life_lost_this_hit p).

(** [self.hit_timer = v] *)
Definition set_hit_timer (v : R) (p : t) : t :=
  mk (x p) (y p) (width p) (height p) (frames_running p) (frames_jumping p)
    (frames_hit p) (current_frame p) (animation_timer p) (animation_speed p)
    (velocity_x p) (velocity_y p) (base_speed p) (speed_multiplier p)
    (speed_increase_rate p) (jump_strength p) (gravity p) (gap_gravity p)
    (is_grounded p) (ground_y p) (falling_in_gap p) (state p) (yarn_count p)
    v (hit_duration p) (hit_speed_reduction p) (max_lives p) (lives p)
    (life_lost_this_hit p).

(** [self.lives = v] *)
Definition set_lives (v : Z) (p : t) : t :=
  mk (x p) (y p) (width p) (height p) (frames_running p) (frames_jumping p)
    (frames_hit p) (current_frame p) (animation_timer p) (animation_speed p)
    (velocity_x p) (velocity_y p) (base_speed p) (speed_multiplier p)
    (speed_increase_rate p) (jump_strength p) (gravity p) (gap_gravity p)
    (is_grounded p) (ground_y p) (falling_in_gap p) (state p) (yarn_count p)
    (hit_timer p) (hit_duration p) (hit_speed_reduction p) (max_lives p) v
    (life_lost_this_hit p).

(** [Squirrel.__init__(x, y)]; the frame counts are what
    [_load_animations] found. *)
Definition init (n_running n_jumping n_hit : Z) (x0 y0 : R) : t :=
  {| x := x0;
     y := y0;
     width := 110;
     height := 110;
     frames_running := n_running;
     frames_jumping := n_jumping;
     frames_hit := n_hit;
     current_frame := 0;
     animation_timer := 0;
     animation_speed := 1 / 10;
     velocity_x := 200;
     velocity_y := 0;
     base_speed := 200;
     speed_multiplier := 1;
     speed_increase_rate := 5 / 100;
     jump_strength := -550;
     gravity := 1200;
     gap_gravity := 4000;
     is_grounded := true;
     ground_y := y0;
     falling_in_gap := false;
     state := STATE_RUNNING;
     yarn_count := 0;
     hit_timer := 0;
     hit_duration := 1;
     hit_speed_reduction := 1 / 2;
     max_lives := 3;
     lives := 3;
     life_lost_this_hit := false |}.

(** [jump()] *)
Definition jump (p : t) : t :=
  if is_grounded p && negb (state_eqb (state p) STATE_HIT) then
    let p1 := set_velocity_y (jump_strength p) p in
    let p2 := set_is_grounded false p1 in
    set_state STATE_JUMPING p2
  else p.

(** [_update_animation(dt)] *)
Definition _update_animation (dt : R) (p : t) : t :=
  let p1 := set_animation_timer (animation_timer p + dt) p in
  let '(frames, anim_speed) :=
    match state p1 with
    | STATE_RUNNING => (frames_running p1, animation_speed p1 / speed_multiplier p1)
    | STATE_JUMPING => (frames_jumping p1, animation_speed p1)
    | STATE_HIT => (frames_hit p1, animation_speed p1 * (3 / 2))
    end in
  if negb (frames =? 0)%Z && Rleb anim_speed (animation_timer p1) then
    let p2 := set_animation_timer 0 p1 in
    if state_eqb (state p2) STATE_HIT
    then set_current_frame (Z.min (current_frame p2 + 1) (frames - 1)) p2
    else set_current_frame ((current_frame p2 + 1) mod frames)%Z p2
  else p1.

(** [update(dt)], block by block. *)

(** Increase speed over time (only when not hit). *)
Definition ramp_speed (dt : R) (p : t) : t :=
  if negb (state_eqb (state p) STATE_HIT) then
    let q := set_speed_multiplier (speed_multiplier p + speed_increase_rate p * dt) p in
    set_speed_multiplier (Rmin (speed_multiplier q) 3) q
  else p.

(** Update hit timer. *)
Definition tick_hit_timer (dt : R) (p : t) : t :=
  if Rltb 0 (hit_timer p) then
    let q := set_hit_timer (hit_timer p - dt) p in
    if Rleb (hit_timer q) 0
    then set_state (if is_grounded q then STATE_RUNNING else STATE_JUMPING) q
    else q
  else p.

(** Calculate current speed; horizontal movement. *)
Definition move_horizontally (dt : R) (p : t) : t :=
  let current_speed_mult :=
    if state_eqb (state p) STATE_HIT then hit_speed_reduction p else 1 in
  let q := set_velocity_x (base_speed p * speed_multiplier p * current_speed_mult) p in
  set_x (x q + velocity_x q * dt) q.

(** Vertical movement (gravity and jumping). *)
Definition move_vertically (dt : R) (p : t) : t :=
  let current_gravity := if falling_in_gap p then gap_gravity p else gravity p in
  let q := set_velocity_y (velocity_y p + current_gravity * dt) p in
  set_y (y q + velocity_y q * dt) q.

(** Ground collision. *)
Definition collide_with_ground (p : t) : t :=
  if Rleb (ground_y p) (y p) then
    let q1 := set_y (ground_y p) p in
    let q2 := set_velocity_y 0 q1 in
    let q3 := set_is_grounded true q2 in
    if state_eqb (state q3) STATE_JUMPING then
      let q4 :=
        set_state (if Rleb (hit_timer q3) 0 then STATE_RUNNING else STATE_HIT) q3 in
      set_current_frame 0 q4
    else q3
  else set_is_grounded false p.

(** [update(dt)] *)
Definition update (dt : R) (p : t) : t :=
  let p1 := ramp_speed dt p in
  let p2 := tick_hit_timer dt p1 in
  let p3 := move_horizontally dt p2 in
  let p4 := move_vertically dt p3 in
  let p5 := collide_with_ground p4 in
  _update_animation dt p5.

(** [collect_yarn(amount)] *)
Definition collect_yarn (amount : Z) (p : t) : t :=
  set_yarn_count (yarn_count p + amount) p.

(** One entry of the list [yarn_positions] that [hit_obstacle] returns:
    the dict with keys ['x'], ['y'], ['velocity_x'], ['velocity_y']. *)
Record trajectory : Type := mk_trajectory {
  t_x : R;
  t_y : R;
  t_velocity_x : R;
  t_velocity_y : R
}.

(** [range(n)] *)
Definition range (n : Z) : list Z := map Z.of_nat (seq 0 (Z.to_nat n)).

(** The angle of the [i]-th scattered skein. *)
Definition scatter_angle (scatter_count i : Z) : R :=
  let angle_range := PI * (3 / 2) in
  let angle_start := - PI * (3 / 4) in
  angle_start + (IZR i / IZR (Z.max (scatter_count - 1) 1)) * angle_range.

(** The body of [for i in range(scatter_count)]. *)
Definition scatter_entry (p : t) (scatter_count i : Z) : trajectory :=
  let angle := scatter_angle scatter_count i in
  let speed := IZR (200 + (i mod 3) * 50) in
  {| t_x := x p + width p / 2;
     t_y := y p + height p / 2;
     t_velocity_x := cos angle * speed;
     t_velocity_y := sin angle * speed - 150 |}.

(** [yarn_to_lose], as [hit_obstacle] computes it from [yarn_count]. *)
Definition yarn_loss (count : Z) : Z :=
  let yarn_to_lose := (count / 2)%Z in
  if ((yarn_to_lose =? 0) && (0 <? count))%Z then 1%Z else yarn_to_lose.

(** [hit_obstacle()]: returns [(yarn_lost, yarn_positions, is_dead)] and
    the player after the call. *)
Definition hit_obstacle (p : t) : (Z * list trajectory * bool) * t :=
  if state_eqb (state p) STATE_HIT then ((0%Z, [], false), p)
  else
    let p1 := set_state STATE_HIT p in
    let p2 := set_hit_timer (hit_duration p1) p1 in
    let p3 := set_lives (lives p2 - 1)%Z p2 in
    let is_dead := (lives p3 <=? 0)%Z in
    let p4 := set_velocity_y (-200) p3 in
    let p5 := set_is_grounded false p4 in
    let yarn_to_lose := yarn_loss (yarn_count p5) in
    let scatter_count := Z.min yarn_to_lose 10 in
    let yarn_positions := map (scatter_entry p5 scatter_count) (range scatter_count) in
    let p6 := set_yarn_count (yarn_count p5 - yarn_to_lose)%Z p5 in
    ((yarn_to_lose, yarn_positions, is_dead), p6).

(** [add_life()]: returns whether a life was added, and the player. *)
Definition add_life (p : t) : bool * t :=
  if (lives p <? max_lives p)%Z
  then (true, set_lives (lives p + 1)%Z p)
  else (false, p).

(** [reset_lives()] *)
Definition reset_lives (p : t) : t := set_lives (max_lives p) p.

(** [get_speed_percentage()] *)
Definition get_speed_percentage (p : t) : R := speed_multiplier p / 3 * 100.

(** A trajectory points straight down when it has no horizontal component
    and a positive vertical one: screen y grows downwards (the jump
    strength and the bounce of a hit are negative). *)
Definition points_straight_down (tr : trajectory) : Prop :=
  t_velocity_x tr = 0 /\ 0 < t_velocity_y tr.

(** The calls a caller can make on the player. *)
Inductive call : Type :=
| HitObstacle
| AddLife
| Jump
| Update (dt : R).

Definition step (c : call) (p : t) : t :=
  match c with
  | HitObstacle => snd (hit_obstacle p)
  | AddLife => snd (add_life p)
  | Jump => jump p
  | Update dt => update dt p
  end.

(** Any sequence of calls, in order. *)
Fixpoint run (cs : list call) (p : t) : t :=
  match cs with
  | [] => p
  | c :: cs' => run cs' (step c p)
  end.

(** A sequence of calls as the orchestrator issues them: a hit that
    reports [is_dead] ends the run ([_end_game]), and nothing is called
    on the player afterwards. *)
Fixpoint play (cs : list call) (p : t) : t :=
  match cs with
  | [] => p
  | HitObstacle :: cs' =>
      let '(_, _, is_dead, p') := hit_obstacle p in
      if is_dead then p' else play cs' p'
  | c :: cs' => play cs' (step c p)
  end.

End Squirrel.

(* ===================================================================== *)
(** * game.py: distance and life milestones *)
(* ===================================================================== *)

Module Game.
Local Open Scope Z_scope.

(** The attributes of [class Game] that the distance bookkeeping of
    [update] reads and writes. *)
Record t : Type := mk {
  player : Squirrel.t;
  stash : Z;
  distance : Z;
  best_distance : Z;
  is_new_distance_record : bool;
  life_milestones : list Z;
  next_life_milestone_idx : nat
}.

(** The part of [start_game()] that resets the run: a new player at the
    start position and the scoring, record and milestone attributes.
    [n_running], [n_jumping] and [n_hit] are the frame counts the new
    player loads. *)
Definition start_game (n_running n_jumping n_hit : Z) (ground_y : R) (g : t) : t :=
  {| player := Squirrel.init n_running n_jumping n_hit 100 (ground_y - 110)%R;
     stash := 0;
     distance := 0;
     best_distance := best_distance g;
     is_new_distance_record := false;
     life_milestones := [1000; 2000; 4000; 8000; 16000; 32000];
     next_life_milestone_idx := 0 |}.

(** [_check_life_milestones()] *)
Definition _check_life_milestones (g : t) : t :=
  if (length (life_milestones g) <=? next_life_milestone_idx g)%nat then g
  else
    match nth_error (life_milestones g) (next_life_milestone_idx g) with
    | None => g
    | Some next_milestone =>
        if next_milestone <=? distance g then
          let '(_, p') := Squirrel.add_life (player g) in
          mk p' (stash g) (distance g) (best_distance g) (is_new_distance_record g)
             (life_milestones g) (S (next_life_milestone_idx g))
        else g
    end.

(** The distance bookkeeping of one tick of [update]: [d] is
    [int(self.player.x / 10)]. *)
Definition update_distance (d : Z) (g : t) : t :=
  let g1 :=
    mk (player g) (stash g) d (best_distance g) (is_new_distance_record g)
       (life_milestones g) (next_life_milestone_idx g) in
  let g2 :=
    if best_distance g1 <? distance g1 then
      mk (player g1) (stash g1) (distance g1) (distance g1) true
         (life_milestones g1) (next_life_milestone_idx g1)
    else g1 in
  _check_life_milestones g2.

(** The distance bookkeeping over a sequence of ticks. *)
Fixpoint run_distances (ds : list Z) (g : t) : t :=
  match ds with
  | [] => g
  | d :: ds' => run_distances ds' (update_distance d g)
  end.

End Game.

(* ===================================================================== *)
(** * sound.py: tempo tracking *)
(* ===================================================================== *)

Module Sound.
Local Open Scope R_scope.

(** The values [current_music] takes besides [None]: ["intro"],
    ["gameplay"], ["pause"]. *)
Inductive music : Type := Intro | Gameplay | Pause.

(** The attributes of [class SoundManager] that [update] reads and
    writes. *)
Record t : Type := mk {
  current_tempo : R;
  target_tempo : R;
  tempo_lerp_speed : R;
  min_tempo : R;
  max_tempo : R;
  music_playing : bool;
  current_music : option music
}.

(** The tempo state after [__init__]. *)
Definition init : t :=
  {| current_tempo := 1;
     target_tempo := 1;
     tempo_lerp_speed := 1 / 2;
     min_tempo := 1;
     max_tempo := 14 / 10;
     music_playing := false;
     current_music := None |}.

(** [set_speed_multiplier(speed_multiplier)] *)
Definition set_speed_multiplier (speed_multiplier : R) (s : t) : t :=
  let normalized := (speed_multiplier - 1) / 2 in
  mk (current_tempo s)
     (min_tempo s + normalized * (max_tempo s - min_tempo s))
     (tempo_lerp_speed s) (min_tempo s) (max_tempo s)
     (music_playing s) (current_music s).

(** [on_player_hit()] *)
Definition on_player_hit (s : t) : t :=
  mk (current_tempo s) (min_tempo s)
     (tempo_lerp_speed s) (min_tempo s) (max_tempo s)
     (music_playing s) (current_music s).

(** [self.current_tempo = v] *)
Definition set_current_tempo (v : R) (s : t) : t :=
  mk v (target_tempo s) (tempo_lerp_speed s) (min_tempo s) (max_tempo s)
     (music_playing s) (current_music s).

(** [update(dt)] *)
Definition update (dt : R) (s : t) : t :=
  if negb (music_playing s)
     || negb (match current_music s with Some Gameplay => true | _ => false end)
  then s
  else if Rlt_dec (1 / 100) (Rabs (current_tempo s - target_tempo s)) then
    if Rlt_dec (current_tempo s) (target_tempo s) then
      let s1 := set_current_tempo (current_tempo s + tempo_lerp_speed s * dt) s in
      set_current_tempo (Rmin (current_tempo s1) (target_tempo s1)) s1
    else
      let s1 := set_current_tempo (current_tempo s - tempo_lerp_speed s * dt) s in
      set_current_tempo (Rmax (current_tempo s1) (target_tempo s1)) s1
  else s.


End Sound.

(* ===================================================================== *)
(** * save.py *)
(* ===================================================================== *)

Module Save.
Local Open Scope string_scope.
Local Open Scope Z_scope.

(** An exception, by the name of its class. *)
Inductive exn : Type := Exception (name : string).

(** What a call does: it returns a value or raises. *)
Inductive result (A : Type) : Type :=
| Returns (a : A)
| Raises (e : exn).
Arguments Returns {A} a.
Arguments Raises {A} e.

(** A value of a loaded JSON object: an integer, or anything else that
    [json.load] builds (a float, a string, a bool, None, a list, a
    dict). *)
Inductive value (other : Type) : Type :=
| VInt (z : Z)
| VOther (o : other).
Arguments VInt {other} z.
Arguments VOther {other} o.

(** What save.py takes from the Python runtime: [new > v] and [v + n]
    for a loaded value [v] that is not an integer (either may raise, as
    TypeError for a string or None), and [sys.get_int_max_str_digits()],
    the number of digits beyond which an integer is not printed: 4300 by
    default, 0 for no limit. *)
Class Python (other : Type) : Type := {
  py_gt : Z -> other -> result bool;
  py_add : other -> Z -> result (value other);
  int_max_str_digits : Z
}.

Section WithPython.
Context {other : Type} {runtime : Python other}.

(** What is at the save path, by what [os.path.exists], [open] and
    [json.load] do with it: no file; a file on which [open] or the read
    raises OSError, or whose text is not JSON (json.JSONDecodeError);
    a file on which reading raises anything else (UnicodeDecodeError on
    bytes that are not text, RecursionError, ValueError); JSON that is not
    an object (a list, a number, a string, true, false, null); a JSON
    object. *)
Inductive file : Type :=
| Missing
| Unreadable
| Escaping (e : exn)
| NotObject
| Object (data : gmap string (value other)).

(** What writing to the save path does: [open(path, "w")] and the write
    succeed; [open] raises OSError, and the file is untouched; or [open]
    succeeds, which empties the file, and the write or the close raises
    OSError, leaving [remains] at the path. *)
Inductive write_outcome : Type :=
| WriteOk
| OpenFails
| WriteFails (remains : file).

Record disk : Type := mk_disk { content : file; on_write : write_outcome }.

(** A call that reads or writes the save path and may raise. *)
Definition IO (A : Type) : Type := disk -> result A * disk.

Definition ret {A : Type} (a : A) : IO A := fun d => (Returns a, d).

Definition lift {A : Type} (r : result A) : IO A := fun d => (r, d).

Definition bind {A B : Type} (c : IO A) (k : A -> IO B) : IO B :=
  fun d => match c d with
           | (Returns a, d') => k a d'
           | (Raises e, d') => (Raises e, d')
           end.

Local Notation "'let!' x ':=' c 'in' k" := (bind c (fun x => k))
  (at level 10, x name, c at level 100, k at level 200).

(** [default_save] of [load_save] *)
Definition default_save : gmap string (value other) :=
  <["high_score" := VInt 0]> (<["best_distance" := VInt 0]>
    (<["total_yarn_collected" := VInt 0]> (<["total_runs" := VInt 0]> ∅))).

(** [load_save()]; [{**default_save, **data}] lets [data] win, and
    raises TypeError when [data] is not a dict. *)
Definition load_save : IO (gmap string (value other)) :=
  fun d =>
    match content d with
    | Missing => (Returns default_save, d)
    | Unreadable => (Returns default_save, d)
    | Escaping e => (Raises e, d)
    | NotObject => (Raises (Exception "TypeError"), d)
    | Object data => (Returns (data ∪ default_save), d)
    end.

(** Whether [json.dump] prints the integer [z]: not beyond
    [int_max_str_digits] digits, when that limit is set. *)
Definition int_prints (z : Z) : bool :=
  (int_max_str_digits =? 0) || (Z.abs z <? 10 ^ int_max_str_digits).

(** Whether [json.dump] prints a value; what [json.load] built is
    printed again. *)
Definition json_dumps (v : value other) : bool :=
  match v with
  | VInt z => int_prints z
  | VOther _ => true
  end.

(** The dict [data] of [save_game]. *)
Definition save_data (high_score best_distance total_yarn total_runs : value other)
    : gmap string (value other) :=
  <["high_score" := high_score]> (<["best_distance" := best_distance]>
    (<["total_yarn_collected" := total_yarn]> (<["total_runs" := total_runs]> ∅))).

(** [save_game(high_score, best_distance, total_yarn, total_runs)].
    Only OSError is caught.  An integer that [json.dump] does not print
    raises ValueError once the file has been opened and part of the text
    written, which leaves text that is not JSON. *)
Definition save_game (high_score best_distance total_yarn total_runs : value other)
    : IO bool :=
  fun d =>
    let data := save_data high_score best_distance total_yarn total_runs in
    match on_write d with
    | OpenFails => (Returns false, d)
    | WriteFails remains => (Returns false, mk_disk remains (on_write d))
    | WriteOk =>
        if forallb json_dumps [high_score; best_distance; total_yarn; total_runs]
        then (Returns true, mk_disk (Object data) (on_write d))
        else (Raises (Exception "ValueError"), mk_disk Unreadable (on_write d))
    end.

(** [data[key]] *)
Definition getitem (data : gmap string (value other)) (key : string)
    : result (value other) :=
  match data !! key with
  | Some v => Returns v
  | None => Raises (Exception "KeyError")
  end.

(** [data.get(key, 0)] *)
Definition get_or_0 (data : gmap string (value other)) (key : string) : value other :=
  match data !! key with Some v => v | None => VInt 0 end.

(** [new > v] *)
Definition gt (new : Z) (v : value other) : result bool :=
  match v with
  | VInt z => Returns (z <? new)
  | VOther o => py_gt new o
  end.

(** [v + n] *)
Definition add (v : value other) (n : Z) : result (value other) :=
  match v with
  | VInt z => Returns (VInt (z + n))
  | VOther o => py_add o n
  end.

(** [update_high_score(new_score)] *)
Definition update_high_score (new_score : Z) : IO bool :=
  let! data := load_save in
  let! stored := lift (getitem data "high_score") in
  let! higher := lift (gt new_score stored) in
  if higher then
    let data := <["high_score" := VInt new_score]> data in
    let! high_score := lift (getitem data "high_score") in
    let! best_distance := lift (getitem data "best_distance") in
    let! _ := save_game high_score best_distance
                (get_or_0 data "total_yarn_collected") (get_or_0 data "total_runs") in
    ret true
  else ret false.

(** [update_best_distance(new_distance)] *)
Definition update_best_distance (new_distance : Z) : IO bool :=
  let! data := load_save in
  let! stored := lift (getitem data "best_distance") in
  let! further := lift (gt new_distance stored) in
  if further then
    let data := <["best_distance" := VInt new_distance]> data in
    let! high_score := lift (getitem data "high_score") in
    let! best_distance := lift (getitem data "best_distance") in
    let! _ := save_game high_score best_distance
                (get_or_0 data "total_yarn_collected") (get_or_0 data "total_runs") in
    ret true
  else ret false.

(** [get_high_score()] *)
Definition get_high_score : IO (value other) :=
  let! data := load_save in lift (getitem data "high_score").

(** [get_best_distance()] *)
Definition get_best_distance : IO (value other) :=
  let! data := load_save in lift (getitem data "best_distance").

(** [increment_runs()] *)
Definition increment_runs : IO unit :=
  let! data := load_save in
  let! runs := lift (add (get_or_0 data "total_runs") 1) in
  let data := <["total_runs" := runs]> data in
  let! high_score := lift (getitem data "high_score") in
  let! best_distance := lift (getitem data "best_distance") in
  let total_yarn := get_or_0 data "total_yarn_collected" in
  let! total_runs := lift (getitem data "total_runs") in
  let! _ := save_game high_score best_distance total_yarn total_runs in
  ret tt.

(** [add_yarn_to_total(amount)] *)
Definition add_yarn_to_total (amount : Z) : IO unit :=
  let! data := load_save in
  let! yarn := lift (add (get_or_0 data "total_yarn_collected") amount) in
  let data := <["total_yarn_collected" := yarn]> data in
  let! high_score := lift (getitem data "high_score") in
  let! best_distance := lift (getitem data "best_distance") in
  let! total_yarn := lift (getitem data "total_yarn_collected") in
  let! _ := save_game high_score best_distance total_yarn
              (get_or_0 data "total_runs") in
  ret tt.

(** [get_stats()] *)
Definition get_stats : IO (gmap string (value other)) := load_save.

End WithPython.

Arguments file other : clear implicits.
Arguments write_outcome other : clear implicits.
Arguments disk other : clear implicits.

End Save.

(* ===================================================================== *)
(** * The vocabulary of the properties *)
(* ===================================================================== *)

Section PlayerVocabulary.
Import Squirrel.
Local Open Scope Z_scope.

(** A player is out of the stun when it is not in the Hit state and its
    hit timer has run down. *)
Definition recovered (p : t) : Prop :=
  state p <> STATE_HIT /\ (hit_timer p <= 0)%R.

(** [q] differs from [p] only in fields that [update] may write: lives,
    max lives, the stun duration and the yarn count are those of [p]. *)
Record update_frame (p q : t) : Prop := {
  frame_lives : lives q = lives p;
  frame_max_lives : max_lives q = max_lives p;
  frame_hit_duration : hit_duration q = hit_duration p;
  frame_yarn_count : yarn_count q = yarn_count p
}.

End PlayerVocabulary.

Section GameVocabulary.
Local Open Scope Z_scope.

(** What one life award does to the count of lives. *)
Definition awarded (p : Squirrel.t) : Z :=
  if Squirrel.lives p <? Squirrel.max_lives p
  then Squirrel.lives p + 1
  else Squirrel.lives p.

End GameVocabulary.

Section RandomVocabulary.

(** [returns c P]: from every random source, [c] produces a result, and
    the result satisfies [P]. *)
Definition returns {A : Type} (c : Random.M A) (P : A -> Prop) : Prop :=
  forall s : Random.source, exists (a : A) (s' : Random.source),
    c s = Some (a, s') /\ P a.

End RandomVocabulary.

Section GeneratorVocabulary.
Import Obstacles Yarn Generator.
Local Open Scope Z_scope.

(** Platform [p] rescues [gap]: it spans the whole gap, is at least 40
    wider, and sits at the low platform height. *)
Definition rescues (p : Platform) (gap : Gap) : Prop :=
  p_world_x p <= start_x gap /\
  start_x gap + width gap <= p_world_x p + p_width p /\
  width gap + 40 <= p_width p /\
  p_world_y p = PLATFORM_LOW_Y.

(** From [g] to [g'] gaps and platforms were only appended, and every
    appended gap is rescued by an appended platform. *)
Definition grows (g g' : LevelGenerator) : Prop :=
  exists (new_gaps : list Gap) (new_platforms : list Platform),
    gaps g' = gaps g ++ new_gaps /\
    platforms g' = platforms g ++ new_platforms /\
    Forall (fun gap => end_x gap = start_x gap + width gap /\
                       Exists (fun p => rescues p gap) new_platforms)
           new_gaps.

(** A platform placed by the platform roll of the column at [tile_x]. *)
Definition column_platform (tile_x : Z) (p : Platform) : Prop :=
  p_world_x p = tile_x /\
  In (p_world_y p) [PLATFORM_LOW_Y; PLATFORM_MID_Y; PLATFORM_HIGH_Y] /\
  In (p_width p) [96; 128; 160].

(** A pickup placed on platform [p]. *)
Definition platform_pickup (p : Platform) (y : YarnSkein) : Prop :=
  world_x y = p_world_x p + p_width p / 2 - 16 /\
  world_y y = p_world_y p - 45.

(** A pickup floating in the air over the column at [tile_x]. *)
Definition airborne_pickup (tile_x : Z) (y : YarnSkein) : Prop :=
  tile_x + 10 <= world_x y <= tile_x + 50 /\
  In (GROUND_Y - world_y y) [60; 90; 120].

(** What the platform roll and its [else] add: at most one platform and
    at most one pickup; with a platform, the pickup sits on it and is not
    airborne; without one, the pickup is airborne. *)
Definition platform_or_air_pickup (tile_x : Z) (g g' : LevelGenerator) : Prop :=
  exists (ps : list Platform) (ys : list YarnSkein),
    platforms g' = platforms g ++ ps /\
    yarns g' = yarns g ++ ys /\
    (length ps <= 1)%nat /\
    (length ys <= 1)%nat /\
    Forall (column_platform tile_x) ps /\
    (ps = [] -> Forall (airborne_pickup tile_x) ys) /\
    (forall p, In p ps ->
       Forall (fun y => platform_pickup p y /\ ~ airborne_pickup tile_x y) ys).

(** What a ground column adds to the generator: one ground tile, at most
    one bush, and, independently of the bush, a platform or an airborne
    pickup as above.  Gaps are not touched. *)
Definition column_spawns (tile_x : Z) (g g' : LevelGenerator) : Prop :=
  gaps g' = gaps g /\
  (exists t, ground_tiles g' = ground_tiles g ++ [t] /\ g_world_x t = tile_x) /\
  (exists bs, bushes g' = bushes g ++ bs /\ (length bs <= 1)%nat) /\
  platform_or_air_pickup tile_x g g'.

End GeneratorVocabulary.

Section CallVocabulary.
Import Squirrel.
Local Open Scope R_scope.

(** The time that the [update] calls of a sequence add up to. *)
Fixpoint total_time (cs : list call) : R :=
  match cs with
  | [] => 0
  | Update dt :: cs' => dt + total_time cs'
  | _ :: cs' => total_time cs'
  end.

(** Every [update] of the sequence is called with a dt that is not
    negative. *)
Definition forward_in_time (cs : list call) : Prop :=
  Forall (fun c => match c with Update dt => 0 <= dt | _ => True end) cs.

(** [q] has the vertical state of [p]: position, velocity, grounded
    flag, and the constants of the jump. *)
Record vertical_same (p q : t) : Prop := {
  same_y : y q = y p;
  same_velocity_y : velocity_y q = velocity_y p;
  same_is_grounded : is_grounded q = is_grounded p;
  same_ground_y : ground_y q = ground_y p;
  same_gravity : gravity q = gravity p;
  same_gap_gravity : gap_gravity q = gap_gravity p;
  same_jump_strength : jump_strength q = jump_strength p;
  same_falling_in_gap : falling_in_gap q = falling_in_gap p
}.

(** The invariant of a jump from ground level [G] with launch speed [J]
    under gravity [g]: the player is at or above the ground, on it when
    grounded, and its height and speed never hold more than the launch
    energy: [2 g (G - y) + v^2 <= J^2]. *)
Definition jump_invariant (G J g : R) (p : t) : Prop :=
  ground_y p = G /\ jump_strength p = J /\ gravity p = g /\
  falling_in_gap p = false /\
  y p <= G /\
  (is_grounded p = true -> y p = G) /\
  2 * g * (G - y p) + velocity_y p * velocity_y p <= J * J.

End CallVocabulary.

Section SaveVocabulary.
Local Open Scope string_scope.


(** A runtime for save files that hold integers only, with the default
    limit of 4300 digits. *)
Definition integers_only : Save.Python Empty_set :=
  {| Save.py_gt := fun (_ : Z) (o : Empty_set) => match o with end;
     Save.py_add := fun (o : Empty_set) (_ : Z) => match o with end;
     Save.int_max_str_digits := 4300 |}.

End SaveVocabulary.

Section ChunkVocabulary.
Import Obstacles Yarn Generator.
Local Open Scope Z_scope.

(** The settings of the generator that terrain generation reads but
    never writes. *)
Definition same_settings (g g' : LevelGenerator) : Prop :=
  last_generated_x g' = last_generated_x g /\
  difficulty g' = difficulty g /\
  yarn_reset_to_basic g' = yarn_reset_to_basic g /\
  current_stash g' = current_stash g.

(** What generation at [distance] leaves alone: the settings always, the
    gaps up to distance 100, the platforms up to 80, the bushes up to
    50. *)
Definition quiet_until (distance : Z) (g g' : LevelGenerator) : Prop :=
  same_settings g g' /\
  (distance <= 100 -> gaps g' = gaps g) /\
  (distance <= 80 -> platforms g' = platforms g) /\
  (distance <= 50 -> bushes g' = bushes g).

(** The seven tile columns of the chunk that starts at [chunk_x]. *)
Definition chunk_columns (chunk_x : Z) : list Z :=
  [chunk_x; chunk_x + 64; chunk_x + 128; chunk_x + 192;
   chunk_x + 256; chunk_x + 320; chunk_x + 384].

(** [gap] is made of whole columns of the chunk at [chunk_x]: it starts
    on a column, is one to three columns wide and ends within the
    seventh. *)
Definition gap_in_chunk (chunk_x : Z) (gap : Gap) : Prop :=
  exists a k : Z,
    start_x gap = chunk_x + 64 * a /\
    width gap = 64 * k /\
    end_x gap = start_x gap + width gap /\
    0 <= a /\ 1 <= k <= 3 /\ a + k <= 7.

(** Column [z] is one of the columns that [gap] removes. *)
Definition gap_takes_column (gap : Gap) (z : Z) : Prop :=
  exists j : Z, 0 <= j /\ 64 * j < width gap /\ z = start_x gap + 64 * j.

(** From [(gap_positions, g)] to [(gap_positions', g')] the gap loop
    appended gaps of whole columns and marked exactly their columns. *)
Definition gaps_marked (chunk_x : Z) (gp : gset Z) (g : LevelGenerator)
    (gp' : gset Z) (g' : LevelGenerator) : Prop :=
  ground_tiles g' = ground_tiles g /\
  exists new_gaps : list Gap,
    gaps g' = gaps g ++ new_gaps /\
    Forall (gap_in_chunk chunk_x) new_gaps /\
    forall z : Z,
      z ∈ gp' <-> z ∈ gp \/ Exists (fun gap => gap_takes_column gap z) new_gaps.

End ChunkVocabulary.

(* ===================================================================== *)
(** * Properties of the camera *)
(* ===================================================================== *)

Section CameraProperties.
Local Open Scope R_scope.

(** One call of [update] writes the smoothed position, clamped at zero. *)
Lemma camera_update_x (dt px pct : R) (c : Camera.t) :
  Camera.x (Camera.update dt px pct c) =
  Rmax 0 (Camera.x c
          + (px - Camera.current_offset c pct - Camera.x c) * Camera.lerp_speed c * dt).
Proof. reflexivity. Qed.

Lemma camera_ticks_lerp_speed (n : nat) (dt px pct : R) (c : Camera.t) :
  Camera.lerp_speed (Camera.ticks n dt px pct c) = Camera.lerp_speed c.
Proof. induction n as [|n IH]; simpl; auto. Qed.

Lemma camera_ticks_offset (n : nat) (dt px pct : R) (c : Camera.t) :
  Camera.current_offset (Camera.ticks n dt px pct c) pct = Camera.current_offset c pct.
Proof.
  induction n as [|n IH]; [reflexivity|].
  unfold Camera.current_offset in *. simpl. exact IH.
Qed.

Lemma camera_ticks_S_x (n : nat) (dt px pct : R) (c : Camera.t) :
  Camera.x (Camera.ticks (S n) dt px pct c) =
  Rmax 0 (Camera.x (Camera.ticks n dt px pct c)
          + (px - Camera.current_offset c pct - Camera.x (Camera.ticks n dt px pct c))
            * Camera.lerp_speed c * dt).
Proof.
  simpl Camera.ticks. rewrite camera_update_x.
  rewrite camera_ticks_offset, camera_ticks_lerp_speed. reflexivity.
Qed.

(** The clamped smoothing step is a contraction towards [Rmax 0 target]. *)
Lemma clamped_lerp_contracts (x target k : R) :
  0 < k < 1 ->
  Rabs (Rmax 0 (x + (target - x) * k) - Rmax 0 target)
  <= (1 - k) * Rabs (x - Rmax 0 target).
Proof.
  intros [Hk0 Hk1].
  unfold Rmax.
  destruct (Rle_dec 0 (x + (target - x) * k)) as [Hy|Hy];
  destruct (Rle_dec 0 target) as [Ht|Ht];
  unfold Rabs;
  repeat match goal with
         | |- context [Rcase_abs ?a] => destruct (Rcase_abs a)
         end; nra.
Qed.

Lemma camera_error_bound (n : nat) (dt px pct : R) (c : Camera.t) :
  0 < Camera.lerp_speed c * dt < 1 ->
  Rabs (Camera.x (Camera.ticks n dt px pct c)
        - Rmax 0 (px - Camera.current_offset c pct))
  <= (1 - Camera.lerp_speed c * dt) ^ n
     * Rabs (Camera.x c - Rmax 0 (px - Camera.current_offset c pct)).
Proof.
  intros Hk. induction n as [|n IH].
  - simpl. lra.
  - rewrite camera_ticks_S_x.
    set (xn := Camera.x (Camera.ticks n dt px pct c)) in *.
    set (tg := px - Camera.current_offset c pct) in *.
    replace (xn + (tg - xn) * Camera.lerp_speed c * dt)
      with (xn + (tg - xn) * (Camera.lerp_speed c * dt)) by ring.
    pose proof (clamped_lerp_contracts xn tg _ Hk) as Hc.
    simpl pow.
    assert (0 <= 1 - Camera.lerp_speed c * dt) by lra.
    nra.
Qed.

Lemma camera_ticks_nonneg (n : nat) (dt px pct : R) (c : Camera.t) :
  (1 <= n)%nat -> 0 <= Camera.x (Camera.ticks n dt px pct c).
Proof.
  destruct n as [|n]; [lia|]. intros _.
  rewrite camera_ticks_S_x. apply Rmax_l.
Qed.

Lemma camera_converges_clamped (dt px pct : R) (c : Camera.t) (eps : R) :
  0 < Camera.lerp_speed c * dt < 1 ->
  0 < eps ->
  exists N : nat, forall n : nat, (N <= n)%nat ->
    Rabs (Camera.x (Camera.ticks n dt px pct c)
          - Rmax 0 (px - Camera.current_offset c pct)) < eps.
Proof.
  intros Hk Heps.
  set (tg := Rmax 0 (px - Camera.current_offset c pct)).
  set (e0 := Rabs (Camera.x c - tg)).
  assert (He0 : 0 <= e0) by apply Rabs_pos.
  assert (Hq : Rabs (1 - Camera.lerp_speed c * dt) < 1).
  { apply Rabs_def1; lra. }
  destruct (pow_lt_1_zero _ Hq (eps / (e0 + 1))) as [N HN].
  { apply Rdiv_lt_0_compat; lra. }
  exists N. intros n Hn.
  pose proof (camera_error_bound n dt px pct c Hk) as Hb.
  fold tg in Hb. fold e0 in Hb.
  specialize (HN n Hn).
  rewrite Rabs_right in HN by (apply Rle_ge, pow_le; lra).
  assert (Hpos : 0 <= (1 - Camera.lerp_speed c * dt) ^ n) by (apply pow_le; lra).
  assert (Hlt : (1 - Camera.lerp_speed c * dt) ^ n * (e0 + 1) < eps).
  { apply (Rmult_lt_compat_r (e0 + 1)) in HN; [|lra].
    unfold Rdiv in HN. rewrite Rmult_assoc, Rinv_l, Rmult_1_r in HN by lra.
    exact HN. }
  nra.
Qed.

(** At the start of a run the player stands at x = 100, left of the
    look-ahead offset, so the target is negative and the clamp holds the
    camera at 0. *)
Lemma camera_start_stays_at_zero (n : nat) :
  Camera.x (Camera.ticks n (1 / 60) 100 0 (Camera.init 800 600)) = 0.
Proof.
  induction n as [|n IH].
  - reflexivity.
  - rewrite camera_ticks_S_x, IH.
    unfold Camera.current_offset. simpl.
    apply Rmax_left. lra.
Qed.

(** C6, as stated, fails: with the player at x = 100 and speed 0 % the
    target is 100 - 240 = -140, and however many ticks run (dt = 1/60,
    lerp rate 5) the camera stays 140 away from it. *)
Lemma camera_does_not_reach_negative_target :
  0 < Camera.lerp_speed (Camera.init 800 600) * (1 / 60) < 1 /\
  ~ (exists N : nat, forall n : nat, (N <= n)%nat ->
       Rabs (Camera.x (Camera.ticks n (1 / 60) 100 0 (Camera.init 800 600))
             - (100 - Camera.current_offset (Camera.init 800 600) 0)) < 1).
Proof.
  split.
  - simpl. lra.
  - intros [N HN]. specialize (HN N (le_n N)).
    rewrite camera_start_stays_at_zero in HN.
    unfold Camera.current_offset in HN. simpl in HN.
    replace (0 - (100 - (800 * (3 / 10) + (800 * (5 / 10) - 800 * (3 / 10)) * (0 / 100))))
      with 140 in HN by lra.
    rewrite Rabs_right in HN by lra. lra.
Qed.

(** C6 (amended): for a fixed player position and speed percentage and a
    fixed dt with 0 < lerpRate * dt < 1, each call of [Camera.update]
    sets x to max(0, x + (target - x) * lerpRate * dt) with
    target = playerX - offset(speedPct); after any call x is not negative;
    and x converges, within any epsilon after finitely many ticks, to
    max(0, target), which is the target itself whenever the target is not
    negative. *)
Theorem camera_update_converges (c : Camera.t) (dt px pct : R) :
  0 < Camera.lerp_speed c * dt < 1 ->
  let target := px - Camera.current_offset c pct in
  (forall n : nat,
     Camera.x (Camera.ticks (S n) dt px pct c) =
     Rmax 0 (Camera.x (Camera.ticks n dt px pct c)
             + (target - Camera.x (Camera.ticks n dt px pct c))
               * Camera.lerp_speed c * dt)) /\
  (forall n : nat, (1 <= n)%nat -> 0 <= Camera.x (Camera.ticks n dt px pct c)) /\
  (forall eps : R, 0 < eps ->
     exists N : nat, forall n : nat, (N <= n)%nat ->
       Rabs (Camera.x (Camera.ticks n dt px pct c) - Rmax 0 target) < eps) /\
  (0 <= target ->
   forall eps : R, 0 < eps ->
     exists N : nat, forall n : nat, (N <= n)%nat ->
       Rabs (Camera.x (Camera.ticks n dt px pct c) - target) < eps).
Proof.
  intros Hk target. repeat split.
  - intros n. apply camera_ticks_S_x.
  - intros n Hn. apply camera_ticks_nonneg; assumption.
  - intros eps Heps. apply camera_converges_clamped; assumption.
  - intros Ht eps Heps.
    destruct (camera_converges_clamped dt px pct c eps Hk Heps) as [N HN].
    exists N. intros n Hn. specialize (HN n Hn).
    fold target in HN. rewrite Rmax_right in HN by exact Ht. exact HN.
Qed.

(** The amended C6 at the start of a run, with the player at x = 1000. *)
Lemma camera_update_converges_witness :
  0 < Camera.lerp_speed (Camera.init 800 600) * (1 / 60) < 1 /\
  (forall eps : R, 0 < eps ->
     exists N : nat, forall n : nat, (N <= n)%nat ->
       Rabs (Camera.x (Camera.ticks n (1 / 60) 1000 0 (Camera.init 800 600))
             - Rmax 0 (1000 - Camera.current_offset (Camera.init 800 600) 0)) < eps).
Proof.
  assert (Hk : 0 < Camera.lerp_speed (Camera.init 800 600) * (1 / 60) < 1)
    by (simpl; lra).
  split; [exact Hk|].
  exact (proj1 (proj2 (proj2
           (camera_update_converges (Camera.init 800 600) (1 / 60) 1000 0 Hk)))).
Defined.

End CameraProperties.

(* ===================================================================== *)
(** * Properties of the player *)
(* ===================================================================== *)

Section PlayerProperties.
Import Squirrel.
Local Open Scope Z_scope.

Lemma state_eqb_eq (a b : state_t) : state_eqb a b = true <-> a = b.
Proof. destruct a, b; simpl; split; intros H; congruence. Qed.

Lemma state_eqb_hit_false (s : state_t) :
  s <> STATE_HIT -> state_eqb s STATE_HIT = false.
Proof. destruct s; simpl; congruence. Qed.

(** ** What a hit does to a player that is not stunned *)

Lemma hit_obstacle_effect (p : t) :
  state p <> STATE_HIT ->
  let '(yarn_lost, yarn_positions, is_dead, p') := hit_obstacle p in
  yarn_lost = yarn_loss (yarn_count p) /\
  yarn_positions =
    map (scatter_entry (set_is_grounded false (set_velocity_y (-200)%R
           (set_lives (lives p - 1) (set_hit_timer (hit_duration p)
              (set_state STATE_HIT p)))))
           (Z.min (yarn_loss (yarn_count p)) 10))
        (range (Z.min (yarn_loss (yarn_count p)) 10)) /\
  is_dead = (lives p - 1 <=? 0) /\
  state p' = STATE_HIT /\
  hit_timer p' = hit_duration p /\
  hit_duration p' = hit_duration p /\
  lives p' = lives p - 1 /\
  max_lives p' = max_lives p /\
  yarn_count p' = yarn_count p - yarn_loss (yarn_count p).
Proof.
  intros Hs. unfold hit_obstacle.
  rewrite (state_eqb_hit_false _ Hs). simpl.
  repeat split; reflexivity.
Qed.

Lemma yarn_loss_spec (n : Z) :
  (1 < n -> yarn_loss n = Z.max 1 (n / 2) /\ yarn_loss n = n / 2) /\
  (n = 1 -> yarn_loss n = 1).
Proof.
  unfold yarn_loss. split.
  - intros Hn.
    assert (1 <= n / 2) by (apply Z.div_le_lower_bound; lia).
    replace (n / 2 =? 0) with false by (symmetry; apply Z.eqb_neq; lia).
    simpl. lia.
  - intros ->. reflexivity.
Qed.

Lemma length_range (n : Z) : length (range n) = Z.to_nat n.
Proof. unfold range. rewrite length_map, length_seq. reflexivity. Qed.

(** The parts of the yarn-loss rule that the code satisfies: the stash
    after a hit, the number of trajectories, and the minimum-1 rule. *)
Lemma hit_obstacle_yarn_loss (p : t) :
  state p <> STATE_HIT ->
  let n := yarn_count p in
  let '(yarn_lost, yarn_positions, _, p') := hit_obstacle p in
  (1 < n ->
     yarn_count p' = n - Z.max 1 (n / 2) /\
     length yarn_positions = Z.to_nat (Z.min (n / 2) 10)) /\
  (n = 1 -> yarn_lost = 1 /\ yarn_count p' = 0).
Proof.
  intros Hs n.
  pose proof (hit_obstacle_effect p Hs) as H.
  destruct (hit_obstacle p) as [[[yarn_lost yarn_positions] is_dead] p'].
  destruct H as (Hl & Hp & _ & _ & _ & _ & _ & _ & Hc).
  fold n in Hl, Hp, Hc.
  destruct (yarn_loss_spec n) as [Hgt H1].
  split.
  - intros Hn. destruct (Hgt Hn) as [Hmax Hhalf]. split.
    + lia.
    + rewrite Hp, length_map, length_range. rewrite Hhalf. reflexivity.
  - intros Hn. rewrite Hl, Hc, (H1 Hn). lia.
Qed.

(** A player with a stash of 8 loses 4 and one life; with a stash of 1
    it loses exactly 1. *)
Example hit_with_stash_8 :
  let '(yarn_lost, yarn_positions, is_dead, p') :=
    hit_obstacle (collect_yarn 8 (init 0 0 0 100 474)) in
  yarn_lost = 4 /\ length yarn_positions = 4%nat /\ is_dead = false /\
  yarn_count p' = 4 /\ lives p' = 2.
Proof. simpl. repeat split; reflexivity. Qed.

Example hit_with_stash_1 :
  let '(yarn_lost, yarn_positions, is_dead, p') :=
    hit_obstacle (collect_yarn 1 (init 0 0 0 100 474)) in
  yarn_lost = 1 /\ length yarn_positions = 1%nat /\ yarn_count p' = 0.
Proof. simpl. repeat split; reflexivity. Qed.

(** ** The scatter fan *)

Local Open Scope R_scope.

(** With seven skeins scattered, the sixth is thrown at an angle of
    [-3/4 pi + (5/6) (3/2 pi) = pi/2]. *)
Lemma scatter_angle_7_5 : scatter_angle 7 5 = PI / 2.
Proof.
  unfold scatter_angle.
  replace (Z.max (7 - 1) 1) with 6%Z by reflexivity.
  field.
Qed.

Lemma scatter_entry_7_5 (p : t) :
  t_velocity_x (scatter_entry p 7 5) = 0 /\
  t_velocity_y (scatter_entry p 7 5) = 150.
Proof.
  unfold scatter_entry. cbv zeta.
  cbn [t_velocity_x t_velocity_y].
  rewrite scatter_angle_7_5, cos_PI2, sin_PI2.
  replace (200 + 5 mod 3 * 50)%Z with 300%Z by reflexivity.
  split; lra.
Qed.

(** C2 (the code at the failing input): a player that holds 14 or 15 yarn
    and is not stunned loses 7, and the sixth of the seven trajectories
    returned by [hit_obstacle] has no horizontal velocity and a vertical
    velocity of +150, that is, it points straight down the screen. *)
Theorem hit_obstacle_scatters_straight_down (p : t) :
  state p <> STATE_HIT ->
  yarn_count p = 14%Z \/ yarn_count p = 15%Z ->
  let '(yarn_lost, yarn_positions, _, _) := hit_obstacle p in
  yarn_lost = 7%Z /\
  length yarn_positions = 7%nat /\
  exists tr : trajectory,
    nth_error yarn_positions 5 = Some tr /\ points_straight_down tr.
Proof.
  intros Hs Hn.
  pose proof (hit_obstacle_effect p Hs) as H.
  destruct (hit_obstacle p) as [[[yarn_lost yarn_positions] is_dead] p'].
  destruct H as (Hl & Hp & _).
  assert (Hloss : yarn_loss (yarn_count p) = 7%Z)
    by (destruct Hn as [-> | ->]; reflexivity).
  rewrite Hloss in Hl, Hp.
  replace (Z.min 7 10) with 7%Z in Hp by reflexivity.
  split; [exact Hl|]. split.
  - rewrite Hp, length_map, length_range. reflexivity.
  - eexists. split.
    + rewrite Hp. rewrite nth_error_map.
      replace (nth_error (range 7) 5) with (Some 5%Z) by reflexivity.
      reflexivity.
    + unfold points_straight_down.
      destruct (scatter_entry_7_5
                  (set_is_grounded false (set_velocity_y (-200)
                     (set_lives (lives p - 1) (set_hit_timer (hit_duration p)
                        (set_state STATE_HIT p)))))) as [Hx Hy].
      rewrite Hx, Hy. split; [reflexivity | lra].
Qed.

(** The failing input of C2: a fresh player that has collected 14 yarn. *)
Lemma hit_obstacle_scatters_straight_down_witness :
  let p := collect_yarn 14 (init 0 0 0 100 474) in
  let '(yarn_lost, yarn_positions, _, _) := hit_obstacle p in
  yarn_lost = 7%Z /\
  length yarn_positions = 7%nat /\
  exists tr : trajectory,
    nth_error yarn_positions 5 = Some tr /\ points_straight_down tr.
Proof.
  apply (hit_obstacle_scatters_straight_down (collect_yarn 14 (init 0 0 0 100 474))).
  - simpl. discriminate.
  - left. reflexivity.
Defined.

Local Close Scope R_scope.

(** ** Guards *)

(** C8: a hit while already in the Hit state returns (0, [], False) and
    leaves the player as it was; a jump while not grounded, or while in
    the Hit state, leaves the player as it was. *)
Theorem invalid_transitions_are_noops (p : t) :
  (state p = STATE_HIT -> hit_obstacle p = ((0, [], false), p)) /\
  (is_grounded p = false \/ state p = STATE_HIT -> jump p = p).
Proof.
  split.
  - intros Hs. unfold hit_obstacle. rewrite Hs. reflexivity.
  - intros [Hg | Hs]; unfold jump.
    + rewrite Hg. reflexivity.
    + rewrite Hs. simpl. rewrite andb_false_r. reflexivity.
Qed.

(** C8 on a player that has just been hit in mid-air. *)
Lemma invalid_transitions_are_noops_witness :
  let p := snd (hit_obstacle (jump (init 0 0 0 100 474))) in
  state p = STATE_HIT /\ is_grounded p = false /\
  hit_obstacle p = ((0, [], false), p) /\ jump p = p.
Proof.
  intros p.
  assert (Hs : state p = STATE_HIT) by reflexivity.
  assert (Hg : is_grounded p = false) by reflexivity.
  split; [exact Hs|]. split; [exact Hg|]. split.
  - exact (proj1 (invalid_transitions_are_noops p) Hs).
  - exact (proj2 (invalid_transitions_are_noops p) (or_introl Hg)).
Defined.

(** ** Lives *)

Lemma add_life_lives (p : t) :
  max_lives (snd (add_life p)) = max_lives p /\
  lives p <= lives (snd (add_life p)) /\
  (lives p <= max_lives p -> lives (snd (add_life p)) <= max_lives p).
Proof.
  unfold add_life. destruct (lives p <? max_lives p) eqn:E; simpl.
  - apply Z.ltb_lt in E. lia.
  - lia.
Qed.

Lemma jump_lives (p : t) :
  max_lives (jump p) = max_lives p /\ lives (jump p) = lives p.
Proof. unfold jump. destruct (_ && _); split; reflexivity. Qed.

Lemma hit_obstacle_lives (p : t) :
  max_lives (snd (hit_obstacle p)) = max_lives p /\
  lives (snd (hit_obstacle p)) <= lives p /\
  lives p - 1 <= lives (snd (hit_obstacle p)).
Proof.
  unfold hit_obstacle. destruct (state_eqb (state p) STATE_HIT); simpl; lia.
Qed.

Lemma update_frame_refl (p : t) : update_frame p p.
Proof. split; reflexivity. Qed.

Lemma update_frame_trans (p q r : t) :
  update_frame p q -> update_frame q r -> update_frame p r.
Proof. intros [] []; split; congruence. Qed.

Lemma ramp_speed_frame (dt : R) (p : t) : update_frame p (ramp_speed dt p).
Proof. unfold ramp_speed. destruct (negb _); split; reflexivity. Qed.

Lemma tick_hit_timer_frame (dt : R) (p : t) : update_frame p (tick_hit_timer dt p).
Proof.
  unfold tick_hit_timer. destruct (Rltb _ _); [|split; reflexivity].
  cbv zeta. destruct (Rleb _ _); split; reflexivity.
Qed.

Lemma move_horizontally_frame (dt : R) (p : t) :
  update_frame p (move_horizontally dt p).
Proof. split; reflexivity. Qed.

Lemma move_vertically_frame (dt : R) (p : t) :
  update_frame p (move_vertically dt p).
Proof. split; reflexivity. Qed.

Lemma collide_with_ground_frame (p : t) : update_frame p (collide_with_ground p).
Proof.
  unfold collide_with_ground. destruct (Rleb _ _); [|split; reflexivity].
  cbv zeta. destruct (state_eqb _ _); split; reflexivity.
Qed.

Lemma update_animation_frame (dt : R) (p : t) :
  update_frame p (_update_animation dt p) /\
  state (_update_animation dt p) = state p /\
  hit_timer (_update_animation dt p) = hit_timer p.
Proof.
  unfold _update_animation. cbv zeta.
  change (state (set_animation_timer (animation_timer p + dt) p)) with (state p).
  destruct (state p) eqn:Es; cbv beta iota;
    repeat match goal with
           | |- context [if ?b then _ else _] => destruct b
           end;
    repeat split; simpl; rewrite ?Es; reflexivity.
Qed.

Lemma update_is_framed (dt : R) (p : t) : update_frame p (update dt p).
Proof.
  unfold update. cbv zeta.
  eapply update_frame_trans; [apply ramp_speed_frame|].
  eapply update_frame_trans; [apply tick_hit_timer_frame|].
  eapply update_frame_trans; [apply move_horizontally_frame|].
  eapply update_frame_trans; [apply move_vertically_frame|].
  eapply update_frame_trans; [apply collide_with_ground_frame|].
  apply update_animation_frame.
Qed.

Lemma step_lives (c : call) (p : t) :
  max_lives (step c p) = max_lives p /\
  (lives p <= max_lives p -> lives (step c p) <= max_lives p).
Proof.
  destruct c; simpl.
  - pose proof (hit_obstacle_lives p). lia.
  - pose proof (add_life_lives p). tauto.
  - pose proof (jump_lives p). lia.
  - destruct (update_is_framed dt p). lia.
Qed.

Lemma run_lives_upper (cs : list call) (p : t) :
  lives p <= max_lives p ->
  max_lives (run cs p) = max_lives p /\ lives (run cs p) <= max_lives p.
Proof.
  revert p. induction cs as [|c cs IH]; intros p Hp; simpl.
  - auto.
  - destruct (step_lives c p) as [Hm Hl].
    destruct (IH (step c p)) as [IHm IHl]; [rewrite Hm; auto|].
    rewrite IHm, Hm in *. auto.
Qed.

Lemma play_lives (cs : list call) (p : t) :
  1 <= lives p <= max_lives p ->
  max_lives (play cs p) = max_lives p /\
  0 <= lives (play cs p) <= max_lives p.
Proof.
  revert p. induction cs as [|c cs IH]; intros p Hp; simpl.
  - lia.
  - assert (Hother : forall c', c' <> HitObstacle ->
              1 <= lives (step c' p) <= max_lives (step c' p) /\
              max_lives (step c' p) = max_lives p).
    { intros c' Hc'. destruct c'; simpl.
      - congruence.
      - pose proof (add_life_lives p). lia.
      - pose proof (jump_lives p). lia.
      - destruct (update_is_framed dt p). lia. }
    destruct c.
    + unfold hit_obstacle.
      destruct (state_eqb (state p) STATE_HIT) eqn:Es.
      * apply IH. exact Hp.
      * cbv zeta. cbn [lives set_lives set_state set_hit_timer].
        destruct (lives p - 1 <=? 0) eqn:Ed.
        -- simpl. apply Z.leb_le in Ed. lia.
        -- apply Z.leb_gt in Ed.
           match goal with
           | |- context [play cs ?q] =>
               destruct (IH q) as [IHm IHl]; [simpl; lia|];
               split; [exact IHm | exact IHl]
           end.
    + destruct (Hother AddLife ltac:(discriminate)) as [H1 H2].
      destruct (IH _ H1) as [IHm IHl]. rewrite IHm, H2 in *. auto.
    + destruct (Hother Jump ltac:(discriminate)) as [H1 H2].
      destruct (IH _ H1) as [IHm IHl]. rewrite IHm, H2 in *. auto.
    + destruct (Hother (Update dt) ltac:(discriminate)) as [H1 H2].
      destruct (IH _ H1) as [IHm IHl]. rewrite IHm, H2 in *. auto.
Qed.

(** ** The stun expires *)

Lemma Rltb_true (a b : R) : (a < b)%R -> Rltb a b = true.
Proof. intros H. unfold Rltb. destruct (Rlt_dec a b); [reflexivity | contradiction]. Qed.

Lemma Rleb_true (a b : R) : (a <= b)%R -> Rleb a b = true.
Proof. intros H. unfold Rleb. destruct (Rle_dec a b); [reflexivity | contradiction]. Qed.

Lemma tick_hit_timer_expires (dt : R) (p : t) :
  (0 < hit_timer p <= dt)%R -> recovered (tick_hit_timer dt p).
Proof.
  intros [H0 Hdt]. unfold tick_hit_timer, recovered.
  rewrite (Rltb_true _ _ H0). cbv zeta.
  rewrite Rleb_true by (simpl; lra).
  simpl. split; [destruct (is_grounded p); discriminate | lra].
Qed.

Lemma collide_with_ground_recovered (p : t) :
  recovered p -> recovered (collide_with_ground p).
Proof.
  intros [Hs Ht]. unfold collide_with_ground, recovered.
  destruct (Rleb (ground_y p) (y p)); [|simpl; auto].
  cbv zeta. destruct (state_eqb _ _) eqn:E; [|simpl; auto].
  simpl. rewrite (Rleb_true _ _ Ht). split; [discriminate | exact Ht].
Qed.

Lemma update_ends_stun (dt : R) (p : t) :
  (0 < hit_timer p <= dt)%R -> state (update dt p) <> STATE_HIT.
Proof.
  intros Ht. unfold update. cbv zeta.
  destruct (update_animation_frame dt
              (collide_with_ground (move_vertically dt (move_horizontally dt
                 (tick_hit_timer dt (ramp_speed dt p)))))) as (_ & Hs & _).
  rewrite Hs.
  apply collide_with_ground_recovered.
  assert (Hr : recovered (tick_hit_timer dt (ramp_speed dt p))).
  { apply tick_hit_timer_expires.
    unfold ramp_speed. destruct (negb _); simpl; exact Ht. }
  destruct Hr as [Hr1 Hr2]. split; simpl; assumption.
Qed.

(** A hit followed by an update that lasts as long as the stun: one life
    is gone and the player can be hit again. *)
Lemma hit_then_recover (p : t) :
  state p <> STATE_HIT -> hit_duration p = 1%R ->
  let q := update 1 (snd (hit_obstacle p)) in
  state q <> STATE_HIT /\ hit_duration q = 1%R /\ lives q = lives p - 1.
Proof.
  intros Hs Hd q.
  pose proof (hit_obstacle_effect p Hs) as H.
  unfold q. clear q.
  destruct (hit_obstacle p) as [[[yarn_lost yarn_positions] is_dead] p'].
  destruct H as (_ & _ & _ & _ & Ht & Hd' & Hl & _).
  simpl snd.
  destruct (update_is_framed 1 p') as [Fl _ Fd _].
  split; [|split].
  - apply update_ends_stun. rewrite Ht, Hd. lra.
  - rewrite Fd, Hd'. exact Hd.
  - rewrite Fl. exact Hl.
Qed.

(** C3, as stated, fails: a fresh player (3 lives) that is hit four
    times, the stun expiring after each of the first three hits, ends
    with -1 lives. *)
Lemma lives_fall_below_zero :
  let p0 := init 0 0 0 100 474 in
  0 <= lives p0 <= max_lives p0 /\
  lives (run [HitObstacle; Update 1; HitObstacle; Update 1;
              HitObstacle; Update 1; HitObstacle] p0) = -1.
Proof.
  intros p0. split; [simpl; lia|].
  cbn [run step].
  assert (H0 : state p0 <> STATE_HIT /\ hit_duration p0 = 1%R /\ lives p0 = 3).
  { repeat split. discriminate. }
  destruct H0 as (S0 & D0 & L0).
  destruct (hit_then_recover p0 S0 D0) as (S1 & D1 & L1).
  set (p1 := update 1 (snd (hit_obstacle p0))) in *.
  destruct (hit_then_recover p1 S1 D1) as (S2 & D2 & L2).
  set (p2 := update 1 (snd (hit_obstacle p1))) in *.
  destruct (hit_then_recover p2 S2 D2) as (S3 & D3 & L3).
  set (p3 := update 1 (snd (hit_obstacle p2))) in *.
  pose proof (hit_obstacle_effect p3 S3) as H.
  destruct (hit_obstacle p3) as [[[yarn_lost yarn_positions] is_dead] p4].
  destruct H as (_ & _ & _ & _ & _ & _ & L4 & _).
  simpl snd. lia.
Qed.

(** C3 (amended): over every sequence of hitObstacle(), addLife(),
    jump() and update(dt) calls, lives never exceeds maxLives; and while
    the sequence is cut at the first hit that reports isDead, as the
    orchestrator does when it ends the run, lives also never drops below
    0.  (hitObstacle() itself subtracts a life without a floor.) *)
Theorem lives_stay_in_bounds (cs : list call) (p : t) :
  1 <= lives p <= max_lives p ->
  (max_lives (run cs p) = max_lives p /\ lives (run cs p) <= max_lives p) /\
  (max_lives (play cs p) = max_lives p /\ 0 <= lives (play cs p) <= max_lives p).
Proof.
  intros Hp. split.
  - apply run_lives_upper. lia.
  - apply play_lives. exact Hp.
Qed.

(** The amended C3 on the four hits above: cut at the third hit, which
    kills, the player ends with 0 lives. *)
Lemma lives_stay_in_bounds_witness :
  let p0 := init 0 0 0 100 474 in
  let cs := [HitObstacle; Update 1; HitObstacle; Update 1;
             HitObstacle; Update 1; HitObstacle] in
  1 <= lives p0 <= max_lives p0 /\
  lives (run cs p0) <= max_lives p0 /\
  0 <= lives (play cs p0) <= max_lives p0.
Proof.
  intros p0 cs.
  assert (Hp : 1 <= lives p0 <= max_lives p0) by (simpl; lia).
  split; [exact Hp|].
  destruct (lives_stay_in_bounds cs p0 Hp) as [[_ Hrun] [_ Hplay]].
  split; [exact Hrun | exact Hplay].
Defined.

End PlayerProperties.

(* ===================================================================== *)
(** * Reasoning about computations that draw *)
(* ===================================================================== *)

Section RandomProperties.

Lemma returns_ret {A : Type} (a : A) (P : A -> Prop) :
  P a -> returns (Random.ret a) P.
Proof. intros H s. exists a, s. split; [reflexivity | exact H]. Qed.

Lemma returns_bind {A B : Type} (c : Random.M A) (k : A -> Random.M B)
    (P : A -> Prop) (Q : B -> Prop) :
  returns c P -> (forall a, P a -> returns (k a) Q) -> returns (Random.bind c k) Q.
Proof.
  intros Hc Hk s. destruct (Hc s) as (a & s1 & Ec & Ha).
  destruct (Hk a Ha s1) as (b & s2 & Ek & Hb).
  exists b, s2. split; [|exact Hb].
  unfold Random.bind. rewrite Ec. exact Ek.
Qed.

Lemma returns_weaken {A : Type} (c : Random.M A) (P Q : A -> Prop) :
  returns c P -> (forall a, P a -> Q a) -> returns c Q.
Proof.
  intros Hc HPQ s. destruct (Hc s) as (a & s' & E & Ha).
  exists a, s'. split; [exact E | apply HPQ; exact Ha].
Qed.

Lemma returns_draw : returns Random.draw (fun _ => True).
Proof. intros s. eexists _, _. split; [reflexivity | exact I]. Qed.

Lemma returns_random : returns Random.random (fun _ => True).
Proof.
  unfold Random.random. eapply returns_bind; [apply returns_draw|].
  intros k _. apply returns_ret. exact I.
Qed.

Lemma returns_randint (a b : Z) :
  (a <= b)%Z -> returns (Random.randint a b) (fun n => (a <= n <= b)%Z).
Proof.
  intros Hab. unfold Random.randint.
  replace (b <? a)%Z with false by (symmetry; apply Z.ltb_ge; lia).
  eapply returns_bind; [apply returns_draw|].
  intros k _. apply returns_ret.
  pose proof (Z.mod_pos_bound (Z.of_N k) (b - a + 1)). lia.
Qed.

Lemma returns_choice {A : Type} (l : list A) :
  l <> [] -> returns (Random.choice l) (fun a => In a l).
Proof.
  intros Hl. unfold Random.choice.
  destruct l as [|a0 l0]; [congruence|].
  eapply returns_bind; [apply returns_draw|].
  intros k _.
  destruct (nth_error (a0 :: l0) (N.to_nat (k mod N.of_nat (length (a0 :: l0)))))
    as [a|] eqn:E.
  - apply returns_ret. eapply nth_error_In. exact E.
  - exfalso. apply nth_error_None in E.
    pose proof (N.mod_upper_bound k (N.of_nat (length (a0 :: l0)))) as Hm.
    cbn [length] in *. lia.
Qed.

Lemma returns_index {A : Type} (l : list A) (i : nat) (a : A) :
  nth_error l i = Some a -> returns (Random.index l i) (fun r => r = a).
Proof. intros E. unfold Random.index. rewrite E. apply returns_ret. reflexivity. Qed.

End RandomProperties.

(* ===================================================================== *)
(** * Properties of the pickups *)
(* ===================================================================== *)

Section YarnProperties.
Import Yarn.
Local Open Scope Z_scope.

(** The list of colours to choose from is never empty: the basic tier
    unlocks at 0, and below 0 the fallback returns the basic colours. *)
Lemma get_available_colors_nonempty (stash : Z) : get_available_colors stash <> [].
Proof.
  unfold get_available_colors. simpl.
  destruct (0 <=? stash); destruct (10 <=? stash); destruct (25 <=? stash);
    simpl; discriminate.
Qed.

Lemma get_available_colors_fallback (stash : Z) :
  stash < 0 -> get_available_colors stash = colors basic_tier.
Proof.
  intros H. unfold get_available_colors. simpl.
  replace (0 <=? stash) with false by (symmetry; apply Z.leb_gt; lia).
  replace (10 <=? stash) with false by (symmetry; apply Z.leb_gt; lia).
  replace (25 <=? stash) with false by (symmetry; apply Z.leb_gt; lia).
  reflexivity.
Qed.

Lemma returns_YarnSkein_init (x y : Z) (color : string) (pts : Z) :
  returns (YarnSkein_init x y color pts)
          (fun yarn => world_x yarn = x /\ world_y yarn = y /\
                       color_name yarn = color /\ yarn_points yarn = pts).
Proof.
  unfold YarnSkein_init.
  eapply returns_bind; [apply returns_random|]. intros bob _.
  eapply returns_bind; [apply returns_random|]. intros wiggle _.
  apply returns_ret. simpl. auto.
Qed.

(** [spawn_yarn] always produces a skein, at the position asked for. *)
Lemma returns_spawn_yarn (x y stash : Z) :
  returns (spawn_yarn x y stash)
          (fun r => exists yarn, r = Some yarn /\ world_x yarn = x /\ world_y yarn = y).
Proof.
  unfold spawn_yarn.
  eapply returns_bind; [apply returns_random|]. intros r _.
  destruct (Qltb r rare_spawn_chance).
  - eapply returns_bind; [apply returns_YarnSkein_init|].
    intros yarn (Hx & Hy & _). apply returns_ret. eauto.
  - eapply returns_bind; [apply returns_choice, get_available_colors_nonempty|].
    intros color _.
    eapply returns_bind; [apply returns_YarnSkein_init|].
    intros yarn (Hx & Hy & _). apply returns_ret. eauto.
Qed.

(** C9: for every position, every stash value and every state of the
    random source, [spawn_yarn] returns a skein and never None (nor
    raises), because [get_available_colors] never returns an empty list:
    it falls back to the basic colours when no tier threshold is met. *)
Theorem spawn_yarn_never_none (x y stash : Z) (s : Random.source) :
  get_available_colors stash <> [] /\
  get_available_colors (-1) = colors basic_tier /\
  exists (yarn : YarnSkein) (s' : Random.source),
    spawn_yarn x y stash s = Some (Some yarn, s').
Proof.
  split; [apply get_available_colors_nonempty|].
  split; [reflexivity|].
  destruct (returns_spawn_yarn x y stash s) as (r & s' & E & yarn & -> & _).
  exists yarn, s'. exact E.
Qed.

End YarnProperties.

(* ===================================================================== *)
(** * Properties of the level generator *)
(* ===================================================================== *)

Section GeneratorProperties.
Import Obstacles Yarn Generator.
Local Open Scope Z_scope.

(** ** Gaps and their rescue platforms *)

Lemma grows_same (g g' : LevelGenerator) :
  gaps g' = gaps g -> platforms g' = platforms g -> grows g g'.
Proof.
  intros Hg Hp. exists [], []. rewrite !app_nil_r. auto.
Qed.

Lemma grows_refl (g : LevelGenerator) : grows g g.
Proof. apply grows_same; reflexivity. Qed.

Lemma grows_trans (g1 g2 g3 : LevelGenerator) :
  grows g1 g2 -> grows g2 g3 -> grows g1 g3.
Proof.
  intros (ng1 & np1 & Hg1 & Hp1 & F1) (ng2 & np2 & Hg2 & Hp2 & F2).
  exists (ng1 ++ ng2), (np1 ++ np2).
  rewrite Hg2, Hg1, Hp2, Hp1, <- !app_assoc.
  repeat split.
  apply List.Forall_app. split.
  - eapply List.Forall_impl; [|exact F1].
    intros gap [He H]. split; [exact He|]. apply List.Exists_app. left. exact H.
  - eapply List.Forall_impl; [|exact F2].
    intros gap [He H]. split; [exact He|]. apply List.Exists_app. right. exact H.
Qed.

Lemma grows_add_platform (p : Platform) (g : LevelGenerator) :
  grows g (add_platform p g).
Proof. exists [], [p]. simpl. rewrite app_nil_r. auto. Qed.

Lemma grows_add_yarn (yarn : option YarnSkein) (g : LevelGenerator) :
  grows g (add_yarn yarn g).
Proof. destruct yarn; apply grows_same; reflexivity. Qed.

(** The step that creates a gap appends the gap together with its rescue
    platform. *)
Lemma grows_gap_with_platform (sx w : Z) (g : LevelGenerator) :
  grows g (set_last_platform sx PLATFORM_LOW_Y
             (add_platform (Platform_init (sx - 10) PLATFORM_LOW_Y (w + 40))
                (add_gap (Gap_init sx w GROUND_Y) g))).
Proof.
  exists [Gap_init sx w GROUND_Y], [Platform_init (sx - 10) PLATFORM_LOW_Y (w + 40)].
  simpl. repeat split.
  constructor; [|constructor].
  split; [reflexivity|].
  constructor. unfold rescues. simpl. lia.
Qed.

(** ** Every block of [_generate_chunk] returns *)

Lemma returns_for_each {A : Type} (R : LevelGenerator -> LevelGenerator -> Prop)
    (l : list A) (body : A -> LevelGenerator -> Random.M LevelGenerator) :
  (forall g, R g g) ->
  (forall g1 g2 g3, R g1 g2 -> R g2 g3 -> R g1 g3) ->
  (forall a g, In a l -> returns (body a g) (R g)) ->
  forall g, returns (for_each l body g) (R g).
Proof.
  intros Hrefl Htrans. induction l as [|a l IH]; intros Hbody g; simpl.
  - apply returns_ret. apply Hrefl.
  - eapply returns_bind; [apply Hbody; left; reflexivity|].
    intros g1 H1. eapply returns_weaken.
    + apply IH. intros a' g' Hin. apply Hbody. right. exact Hin.
    + intros g2 H2. eapply Htrans; eassumption.
Qed.

Lemma returns_for_range (n : nat) (start : Z) (body : Z -> Random.M unit) :
  (forall i, returns (body i) (fun _ => True)) ->
  returns (for_range n start body) (fun _ => True).
Proof.
  intros Hbody. revert start. induction n as [|n IH]; intros start; simpl.
  - apply returns_ret. exact I.
  - eapply returns_bind; [apply Hbody|]. intros _ _. apply IH.
Qed.

Lemma returns_build_cell (tiles_across : Z) (l r : bool) (row col : Z) :
  returns (build_cell tiles_across l r row col) (fun _ => True).
Proof.
  unfold build_cell.
  destruct ((col =? 0) && l)%bool; [apply returns_ret; exact I|].
  destruct ((col =? tiles_across - 1) && r)%bool; [apply returns_ret; exact I|].
  destruct (row =? 0);
    (eapply returns_bind; [apply returns_choice; discriminate|]);
    intros _ _; apply returns_ret; exact I.
Qed.

Lemma returns_Ground_init (tileset_loaded : bool) (x y : Z) (l r : bool) :
  returns (Ground_init tileset_loaded x y l r) (fun _ => True).
Proof.
  unfold Ground_init, build_from_tileset.
  eapply returns_bind with (P := fun _ => True).
  - destruct tileset_loaded; [|apply returns_ret; exact I].
    apply returns_for_range. intros row.
    apply returns_for_range. intros col.
    apply returns_build_cell.
  - intros _ _. apply returns_ret. exact I.
Qed.

Lemma returns_tile_positions_loop (fuel : nat) (x stop : Z) (acc : list Z) :
  stop - x <= Z.of_nat fuel ->
  returns (tile_positions_loop fuel x stop acc) (fun _ => True).
Proof.
  revert x acc. induction fuel as [|fuel IH]; intros x acc Hf; simpl.
  - replace (x <? stop) with false by (symmetry; apply Z.ltb_ge; lia).
    apply returns_ret. exact I.
  - destruct (x <? stop).
    + apply IH. unfold GROUND_TILE_SIZE. lia.
    + apply returns_ret. exact I.
Qed.

Lemma returns_mark_gap_tiles (js : list nat) (tile_positions : list Z) (i : nat)
    (gap_positions : gset Z) (n : nat) :
  returns (mark_gap_tiles js tile_positions i gap_positions n)
          (fun r => (n <= snd r)%nat).
Proof.
  revert gap_positions n. induction js as [|j js IH]; intros gap_positions n; simpl.
  - apply returns_ret. simpl. lia.
  - destruct (i + j <? length tile_positions)%nat eqn:E.
    + apply Nat.ltb_lt in E.
      destruct (nth_error tile_positions (i + j)) as [tile_x|] eqn:En.
      * eapply returns_bind; [apply (returns_index _ _ _ En)|].
        intros ? ->. eapply returns_weaken; [apply IH|].
        intros r Hr. simpl in *. lia.
      * apply nth_error_None in En. lia.
    + apply IH.
Qed.

Lemma returns_create_gap (tile_positions : list Z) (i : nat)
    (gap_positions : gset Z) (g : LevelGenerator) :
  (i < length tile_positions)%nat ->
  returns (create_gap tile_positions i gap_positions g)
          (fun r => (1 <= snd (fst r))%nat /\ grows g (snd r)).
Proof.
  intros Hi. unfold create_gap.
  eapply returns_bind; [apply (returns_randint 2 3); lia|].
  intros num_tiles Hnum. cbv beta in Hnum.
  destruct (nth_error tile_positions i) as [gap_start_x|] eqn:En;
    [|apply nth_error_None in En; lia].
  eapply returns_bind; [apply (returns_index _ _ _ En)|].
  intros ? ->.
  destruct (Z.to_nat num_tiles) as [|k] eqn:Ek; [lia|].
  cbn [seq mark_gap_tiles]. rewrite Nat.add_0_r.
  replace (i <? length tile_positions)%nat with true
    by (symmetry; apply Nat.ltb_lt; exact Hi).
  eapply returns_bind with (P := fun r => (1 <= snd r)%nat).
  { eapply returns_bind; [apply (returns_index _ _ _ En)|].
    intros ? ->. apply returns_mark_gap_tiles. }
  intros [gap_positions' tiles_added] Hadded. simpl in Hadded.
  eapply returns_bind; [apply returns_spawn_yarn|].
  intros yarn _. apply returns_ret. simpl. split; [exact Hadded|].
  eapply grows_trans; [apply grows_gap_with_platform|apply grows_add_yarn].
Qed.

Lemma returns_gap_loop (fuel : nat) (tile_positions : list Z) (gap_chance : Q)
    (i : nat) (gap_positions : gset Z) (g : LevelGenerator) :
  (length tile_positions - i <= fuel)%nat ->
  returns (gap_loop fuel tile_positions gap_chance i gap_positions g)
          (fun r => grows g (snd r)).
Proof.
  revert i gap_positions g.
  induction fuel as [|fuel IH]; intros i gap_positions g Hf; simpl.
  - replace (i <? length tile_positions)%nat with false
      by (symmetry; apply Nat.ltb_ge; lia).
    apply returns_ret. apply grows_refl.
  - destruct (i <? length tile_positions)%nat eqn:Ei;
      [|apply returns_ret; apply grows_refl].
    apply Nat.ltb_lt in Ei.
    eapply returns_bind; [apply returns_random|]. intros r _.
    destruct (Qltb r gap_chance && (i + 1 <? length tile_positions)%nat)%bool.
    + eapply returns_bind; [apply returns_create_gap; exact Ei|].
      intros [[gap_positions' tiles_added] g'] [Hadded Hgrows]. simpl in *.
      eapply returns_weaken; [apply IH; lia|].
      intros r' Hr'. eapply grows_trans; eassumption.
    + apply IH. lia.
Qed.

Lemma returns_roll_bush (distance tile_x : Z) (g : LevelGenerator) :
  returns (roll_bush distance tile_x g)
          (fun g' => gaps g' = gaps g /\ platforms g' = platforms g /\
                     yarns g' = yarns g /\
                     ground_tiles g' = ground_tiles g /\
                     last_platform_x g' = last_platform_x g /\
                     current_stash g' = current_stash g /\
                     exists bs, bushes g' = bushes g ++ bs /\ (length bs <= 1)%nat).
Proof.
  unfold roll_bush.
  eapply returns_bind; [apply returns_random|]. intros r _.
  destruct (Qltb r _).
  - eapply returns_bind; [apply (returns_randint 10 30); lia|].
    intros d _. apply returns_ret. simpl. repeat split.
    eexists [_]. split; [reflexivity | simpl; lia].
  - apply returns_ret. repeat split.
    exists []. rewrite app_nil_r. split; [reflexivity | simpl; lia].
Qed.

(** ** What one ground column spawns *)

Lemma platform_pickup_not_airborne (tile_x : Z) (p : Platform) (y : YarnSkein) :
  column_platform tile_x p -> platform_pickup p y -> ~ airborne_pickup tile_x y.
Proof.
  intros (_ & Hy & _) [_ Hpy] [_ Ha].
  rewrite Hpy in Ha.
  unfold PLATFORM_LOW_Y, PLATFORM_MID_Y, PLATFORM_HIGH_Y, GROUND_Y in *.
  simpl in Hy, Ha. intuition lia.
Qed.

Lemma platform_or_air_pickup_intro (tile_x : Z) (g g' : LevelGenerator)
    (ps : list Platform) (ys : list YarnSkein) :
  platforms g' = platforms g ++ ps ->
  yarns g' = yarns g ++ ys ->
  (length ps <= 1)%nat ->
  (length ys <= 1)%nat ->
  Forall (column_platform tile_x) ps ->
  (ps = [] -> Forall (airborne_pickup tile_x) ys) ->
  (forall p, In p ps -> Forall (platform_pickup p) ys) ->
  platform_or_air_pickup tile_x g g'.
Proof.
  intros Hp Hy Lp Ly Fp Ha Hpp. exists ps, ys.
  repeat (split; [assumption|]).
  intros p Hin. eapply List.Forall_impl; [|apply (Hpp p Hin)].
  intros y Hy'. split; [exact Hy'|].
  eapply platform_pickup_not_airborne; [|exact Hy'].
  rewrite List.Forall_forall in Fp. apply Fp. exact Hin.
Qed.

Lemma returns_roll_platform_or_yarn (distance tile_x : Z) (g : LevelGenerator) :
  returns (roll_platform_or_yarn distance tile_x g)
          (fun g' => gaps g' = gaps g /\ bushes g' = bushes g /\
                     ground_tiles g' = ground_tiles g /\
                     platform_or_air_pickup tile_x g g').
Proof.
  unfold roll_platform_or_yarn.
  eapply returns_bind; [apply returns_random|]. intros r _.
  destruct (Qltb r _ && (PLATFORM_MIN_SPACING <? tile_x - last_platform_x g))%bool.
  - (* a platform *)
    eapply returns_bind with
      (P := fun h => In h [PLATFORM_LOW_Y; PLATFORM_MID_Y; PLATFORM_HIGH_Y]).
    { destruct (200 <? distance).
      - apply returns_choice. discriminate.
      - eapply returns_weaken; [apply returns_choice; discriminate|].
        simpl. intuition. }
    intros platform_y Hpy.
    eapply returns_bind; [apply returns_choice; discriminate|].
    intros platform_width Hpw.
    assert (Hcp : Forall (column_platform tile_x)
                    [Platform_init tile_x platform_y platform_width]).
    { constructor; [|constructor]. unfold column_platform. simpl. auto. }
    eapply returns_bind; [apply returns_random|]. intros r2 _.
    destruct (Qltb r2 (7 # 10)).
    + eapply returns_bind; [apply returns_spawn_yarn|].
      intros ? (yarn & -> & Hx & Hy). apply returns_ret.
      split; [reflexivity|]. split; [reflexivity|]. split; [reflexivity|].
      apply (platform_or_air_pickup_intro tile_x _ _
               [Platform_init tile_x platform_y platform_width] [yarn]);
        try reflexivity; try (simpl; lia); try exact Hcp.
      * discriminate.
      * intros p [<- | []]. constructor; [|constructor].
        unfold platform_pickup. simpl. auto.
    + apply returns_ret.
      split; [reflexivity|]. split; [reflexivity|]. split; [reflexivity|].
      apply (platform_or_air_pickup_intro tile_x _ _
               [Platform_init tile_x platform_y platform_width] []);
        try (simpl; rewrite ?app_nil_r; reflexivity);
        try (simpl; lia); try exact Hcp.
      * discriminate.
      * intros p _. constructor.
  - (* no platform: the roll for an airborne pickup *)
    eapply returns_bind; [apply returns_random|]. intros r2 _.
    destruct (Qltb r2 _).
    + eapply returns_bind; [apply (returns_randint 10 50); lia|].
      intros d Hd. cbv beta in Hd.
      eapply returns_bind; [apply returns_choice; discriminate|].
      intros h Hh.
      eapply returns_bind; [apply returns_spawn_yarn|].
      intros ? (yarn & -> & Hx & Hy). apply returns_ret.
      split; [reflexivity|]. split; [reflexivity|]. split; [reflexivity|].
      apply (platform_or_air_pickup_intro tile_x _ _ [] [yarn]);
        try (simpl; rewrite ?app_nil_r; reflexivity); try (simpl; lia).
      * constructor.
      * intros _. constructor; [|constructor].
        unfold airborne_pickup. rewrite Hx, Hy.
        replace (GROUND_Y - (GROUND_Y - h)) with h by lia.
        split; [lia | exact Hh].
    + apply returns_ret.
      split; [reflexivity|]. split; [reflexivity|]. split; [reflexivity|].
      apply (platform_or_air_pickup_intro tile_x _ _ [] []);
        try (simpl; rewrite ?app_nil_r; reflexivity); try (simpl; lia).
      * constructor.
      * intros _. constructor.
Qed.

Lemma returns_place_ground_column (tileset_loaded : bool) (tile_positions : list Z)
    (gap_positions : gset Z) (distance : Z) (idx : nat) (tile_x : Z)
    (g : LevelGenerator) :
  (idx < length tile_positions)%nat ->
  returns (place_ground_column tileset_loaded tile_positions gap_positions
             distance idx tile_x g)
          (column_spawns tile_x g).
Proof.
  intros Hidx. unfold place_ground_column.
  eapply returns_bind with (P := fun _ => True).
  { destruct (0 <? idx)%nat; [|apply returns_ret; exact I].
    destruct (nth_error tile_positions (idx - 1)) as [v|] eqn:En;
      [|apply nth_error_None in En; lia].
    eapply returns_bind; [apply (returns_index _ _ _ En)|].
    intros ? _. apply returns_ret. exact I. }
  intros prev_x _.
  eapply returns_bind with (P := fun _ => True).
  { destruct (idx <? length tile_positions - 1)%nat eqn:E;
      [|apply returns_ret; exact I].
    apply Nat.ltb_lt in E.
    destruct (nth_error tile_positions (idx + 1)) as [v|] eqn:En;
      [|apply nth_error_None in En; lia].
    eapply returns_bind; [apply (returns_index _ _ _ En)|].
    intros ? _. apply returns_ret. exact I. }
  intros next_x _.
  eapply returns_bind with
    (P := fun t => g_world_x t = tile_x).
  { unfold Ground_init.
    eapply returns_bind; [|intros _ _; apply returns_ret; reflexivity].
    instantiate (1 := fun _ => True).
    destruct tileset_loaded; [|apply returns_ret; exact I].
    unfold build_from_tileset.
    apply returns_for_range. intros row.
    apply returns_for_range. intros col.
    apply returns_build_cell. }
  intros t Ht.
  eapply returns_bind; [apply returns_roll_bush|].
  intros g2 (Hg2 & Hp2 & Hy2 & Hgt & _ & _ & bs & Hb2 & Hbs).
  eapply returns_weaken; [apply returns_roll_platform_or_yarn|].
  intros g3 (Hg3 & Hb3 & Ht3 & ps & ys & Hps & Hys & Hrest).
  unfold column_spawns. repeat split.
  - rewrite Hg3, Hg2. reflexivity.
  - exists t. split; [|exact Ht].
    rewrite Ht3, Hgt. reflexivity.
  - exists bs. split; [|exact Hbs]. rewrite Hb3. exact Hb2.
  - exists ps, ys. rewrite Hps, Hys, Hp2, Hy2. simpl.
    repeat split; apply Hrest.
Qed.

Lemma column_spawns_grows (tile_x : Z) (g g' : LevelGenerator) :
  column_spawns tile_x g g' -> grows g g'.
Proof.
  intros (Hg & _ & _ & ps & ys & Hp & _).
  exists [], ps. rewrite app_nil_r. repeat split; [exact Hg | exact Hp | constructor].
Qed.

Lemma enumerate_In {A : Type} (l : list A) (idx : nat) (a : A) :
  In (idx, a) (enumerate l) -> (idx < length l)%nat.
Proof.
  unfold enumerate. intros H. apply in_combine_l in H.
  apply in_seq in H. lia.
Qed.

Lemma returns_place_column (tileset_loaded : bool) (tile_positions : list Z)
    (gap_positions : gset Z) (distance : Z) (col : nat * Z) (g : LevelGenerator) :
  (fst col < length tile_positions)%nat ->
  returns (place_column tileset_loaded tile_positions gap_positions distance col g)
          (grows g).
Proof.
  destruct col as [idx tile_x]. simpl. intros Hidx.
  destruct (bool_decide (tile_x ∈ gap_positions)).
  - apply returns_ret. apply grows_refl.
  - eapply returns_weaken; [apply returns_place_ground_column; exact Hidx|].
    intros g'. apply column_spawns_grows.
Qed.

Lemma returns_generate_chunk (tileset_loaded : bool) (start_x distance : Z)
    (g : LevelGenerator) :
  returns (_generate_chunk tileset_loaded start_x distance g) (grows g).
Proof.
  unfold _generate_chunk.
  eapply returns_bind.
  { apply returns_tile_positions_loop. unfold CHUNK_WIDTH. lia. }
  intros tile_positions _.
  eapply returns_bind.
  { apply returns_gap_loop. lia. }
  intros [gap_positions g1] Hg1. simpl in Hg1.
  eapply returns_weaken.
  - apply (returns_for_each grows).
    + apply grows_refl.
    + apply grows_trans.
    + intros col g' Hin. apply returns_place_column.
      destruct col as [idx tile_x]. simpl. eapply enumerate_In. exact Hin.
  - intros g2 Hg2. eapply grows_trans; eassumption.
Qed.

(** C1: whatever the random draws, the difficulty and the distance,
    [_generate_chunk] returns, and every gap it has appended is spanned
    over its whole extent [start_x, start_x + width] by a platform
    appended in the same call, at least 40 wider than the gap and placed
    at the low platform height. *)
Theorem every_gap_has_a_rescue_platform (tileset_loaded : bool)
    (chunk_x distance : Z) (g : LevelGenerator) (s : Random.source) :
  exists (g' : LevelGenerator) (s' : Random.source)
         (new_gaps : list Gap) (new_platforms : list Platform),
    _generate_chunk tileset_loaded chunk_x distance g s = Some (g', s') /\
    gaps g' = gaps g ++ new_gaps /\
    platforms g' = platforms g ++ new_platforms /\
    Forall (fun gap =>
              end_x gap = start_x gap + width gap /\
              Exists (fun p =>
                        p_world_x p <= start_x gap /\
                        start_x gap + width gap <= p_world_x p + p_width p /\
                        width gap + 40 <= p_width p /\
                        p_world_y p = PLATFORM_LOW_Y)
                     new_platforms)
           new_gaps.
Proof.
  destruct (returns_generate_chunk tileset_loaded chunk_x distance g s)
    as (g' & s' & E & new_gaps & new_platforms & Hg & Hp & F).
  exists g', s', new_gaps, new_platforms.
  repeat split; assumption.
Qed.

(** A chunk in which gaps are created: with every draw 0, the chunk that
    starts at 1200 opens with a gap of two tiles, under a platform from
    1190 to 1358 at height 514. *)
Example chunk_with_gaps :
  option_map
    (fun r : LevelGenerator * Random.source =>
       (hd_error (gaps (fst r)), hd_error (platforms (fst r))))
    (_generate_chunk false 1200 500 init (Random.constant 0))
  = Some (Some (Gap_init 1200 128 584), Some (Platform_init 1190 514 168)).
Proof. vm_compute. reflexivity. Qed.

(** ** Hazard, platform and airborne pickup in one column *)

(** C4, as stated, fails: with every draw 0 and at distance 500, the
    first column of the chunk at 1200 (no gap there) gets a bush and a
    platform, and a pickup on the platform, whether or not the ground
    tileset is loaded. *)
Lemma bush_and_platform_in_one_column :
  option_map
    (fun r : LevelGenerator * Random.source =>
       (bushes (fst r), platforms (fst r), map world_y (yarns (fst r))))
    (place_column false [1200; 1264; 1328; 1392; 1456; 1520; 1584] ∅
       500 (0%nat, 1200) init (Random.constant 0))
  = Some ([Bush_init 1210 548], [Platform_init 1200 514 96], [469]) /\
  option_map
    (fun r : LevelGenerator * Random.source =>
       (bushes (fst r), platforms (fst r), map world_y (yarns (fst r))))
    (place_column true [1200; 1264; 1328; 1392; 1456; 1520; 1584] ∅
       500 (0%nat, 1200) init (Random.constant 0))
  = Some ([Bush_init 1210 548], [Platform_init 1200 514 96], [469]).
Proof. split; vm_compute; reflexivity. Qed.

(** C4 (amended): for every tile column of a chunk that is not part of a
    gap, the generator places the ground tile and rolls the hazard (bush)
    on its own; then it rolls the platform and, only when no platform is
    placed, the airborne pickup.  So at most one bush and at most one
    platform are added, a platform and an airborne pickup never occur in
    the same column (with a platform, the only pickup that can appear sits
    on that platform), and a bush may accompany either. *)
Theorem column_platform_excludes_airborne_pickup (tileset_loaded : bool)
    (tile_positions : list Z) (gap_positions : gset Z) (distance : Z)
    (idx : nat) (tile_x : Z) (g : LevelGenerator) (s : Random.source) :
  nth_error tile_positions idx = Some tile_x ->
  tile_x ∉ gap_positions ->
  exists (g' : LevelGenerator) (s' : Random.source),
    place_column tileset_loaded tile_positions gap_positions distance
      (idx, tile_x) g s = Some (g', s') /\
    gaps g' = gaps g /\
    (exists t, ground_tiles g' = ground_tiles g ++ [t] /\ g_world_x t = tile_x) /\
    (exists bs, bushes g' = bushes g ++ bs /\ (length bs <= 1)%nat) /\
    exists (ps : list Platform) (ys : list YarnSkein),
      platforms g' = platforms g ++ ps /\
      yarns g' = yarns g ++ ys /\
      (length ps <= 1)%nat /\
      (length ys <= 1)%nat /\
      Forall (column_platform tile_x) ps /\
      (ps = [] -> Forall (airborne_pickup tile_x) ys) /\
      (forall p, In p ps ->
         Forall (fun y => platform_pickup p y /\ ~ airborne_pickup tile_x y) ys).
Proof.
  intros Hnth Hgap.
  assert (Hidx : (idx < length tile_positions)%nat).
  { apply nth_error_Some. rewrite Hnth. discriminate. }
  destruct (returns_place_ground_column tileset_loaded tile_positions gap_positions
              distance idx tile_x g Hidx s) as (g' & s' & E & Hspawns).
  exists g', s'. split.
  - unfold place_column. rewrite bool_decide_eq_false_2 by exact Hgap. exact E.
  - exact Hspawns.
Qed.

(** The amended C4 on the first column of the chunk at 1200. *)
Lemma column_platform_excludes_airborne_pickup_witness :
  exists (g' : LevelGenerator) (s' : Random.source),
    place_column false [1200; 1264; 1328; 1392; 1456; 1520; 1584] ∅ 500
      (0%nat, 1200) init (Random.constant 0) = Some (g', s') /\
    exists (ps : list Platform) (ys : list YarnSkein),
      platforms g' = platforms init ++ ps /\
      yarns g' = yarns init ++ ys /\
      (forall p, In p ps ->
         Forall (fun y => platform_pickup p y /\ ~ airborne_pickup 1200 y) ys).
Proof.
  destruct (column_platform_excludes_airborne_pickup false
              [1200; 1264; 1328; 1392; 1456; 1520; 1584] ∅ 500 0 1200 init
              (Random.constant 0) eq_refl (not_elem_of_empty 1200))
    as (g' & s' & E & _ & _ & _ & ps & ys & Hp & Hy & _ & _ & _ & _ & H).
  exists g', s'. split; [exact E|].
  exists ps, ys. repeat split; assumption.
Defined.

(** ** The tier reset *)

(** C5 (the code at the failing input): the generator is told to reset
    the tiers and is then updated with a stash of 15 (camera at 400,
    distance 50, every draw 900719925474099, about 0.1 as a float).  The
    flag is set, and all seven pickups spawned in the new chunk are cyan,
    a mid-tier colour worth 2 points; the three before them are the
    starting pickups. *)
Theorem pickups_after_tier_reset_are_not_basic :
  option_map
    (fun r : LevelGenerator * Random.source =>
       (yarn_reset_to_basic (fst r),
        map (fun y => (color_name y, yarn_points y)) (yarns (fst r))))
    (Random.bind (generate_initial false init)
       (fun g0 => update false (400 # 1) 50 15 (reset_yarn_tiers g0))
       (Random.constant 900719925474099))
  = Some (true,
          [("red", 1); ("red", 1); ("red", 1);
           ("cyan", 2); ("cyan", 2); ("cyan", 2); ("cyan", 2);
           ("cyan", 2); ("cyan", 2); ("cyan", 2)]%string).
Proof. vm_compute. reflexivity. Qed.

(** ** Gap membership *)

Lemma contains_x_spec (gap : Gap) (x : Q) :
  contains_x gap x = true <->
  (inject_Z (start_x gap) <= x /\ x <= inject_Z (end_x gap))%Q.
Proof.
  unfold contains_x. rewrite andb_true_iff, !Qle_bool_iff. reflexivity.
Qed.

Lemma get_ground_at_None (g : LevelGenerator) (x : Q) :
  get_ground_at g x = None <-> exists gap, In gap (gaps g) /\ contains_x gap x = true.
Proof.
  unfold get_ground_at.
  destruct (existsb (fun gap => contains_x gap x) (gaps g)) eqn:E.
  - apply existsb_exists in E. split; auto.
  - split; [discriminate|].
    intros H. apply existsb_exists in H. congruence.
Qed.

(** C10, as stated, fails in its last clause: the right boundary of a
    stored gap need not be the left edge of a ground tile.  After
    [generate_initial] and one [update] that generates the chunks at 1200
    and 1600, with draws that open a two-tile gap on the last two columns
    of the first chunk, the gap is [1520, 1648]; the chunks are 400 apart
    but seven tiles of 64 wide, so the first tile of the next chunk starts
    at 1600, inside the gap, no tile starts at 1648, and [get_ground_at]
    answers None under the tile at 1600 as well. *)
Lemma gap_boundary_is_not_a_tile_edge :
  exists g' : LevelGenerator,
    option_map fst
      (Random.bind (generate_initial false init)
         (fun g => update false (401 # 1) 500 0 g)
         (Random.of_list (repeat (2 ^ 53 - 1) 17 ++ [0; 0]
                          ++ repeat (2 ^ 53 - 1) 400)%N))
    = Some g' /\
    gaps g' = [Gap_init 1520 128 584] /\
    existsb (fun t => g_world_x t =? 1600) (ground_tiles g') = true /\
    existsb (fun t => g_world_x t =? 1648) (ground_tiles g') = false /\
    get_ground_at g' (inject_Z 1600) = None /\
    get_ground_at g' (inject_Z 1648) = None.
Proof.
  eexists. split; [vm_compute; reflexivity|].
  repeat split; vm_compute; reflexivity.
Qed.

(** C10 (amended): gap membership is exactly the closed interval.  For a
    gap stored in the generator, [contains_x] holds at x exactly when
    start_x <= x <= start_x + width, so [get_ground_at] returns None on
    the whole interval, the right boundary included; and [get_ground_at]
    returns None exactly at the x that lie in the closed interval of some
    stored gap, and the ground level everywhere else. *)
Theorem gap_membership_is_closed (g : LevelGenerator) (sx w gy : Z) (x : Q) :
  In (Gap_init sx w gy) (gaps g) ->
  (contains_x (Gap_init sx w gy) x = true <->
   (inject_Z sx <= x /\ x <= inject_Z (sx + w))%Q) /\
  ((inject_Z sx <= x /\ x <= inject_Z (sx + w))%Q -> get_ground_at g x = None) /\
  (0 <= w ->
     contains_x (Gap_init sx w gy) (inject_Z (sx + w)) = true /\
     get_ground_at g (inject_Z (sx + w)) = None) /\
  (get_ground_at g x = None <->
   exists gap, In gap (gaps g) /\
     (inject_Z (start_x gap) <= x /\ x <= inject_Z (end_x gap))%Q) /\
  (get_ground_at g x <> None -> get_ground_at g x = Some GROUND_Y).
Proof.
  intros Hin.
  assert (Hiff : forall y, contains_x (Gap_init sx w gy) y = true <->
            (inject_Z sx <= y /\ y <= inject_Z (sx + w))%Q).
  { intros y. apply (contains_x_spec (Gap_init sx w gy) y). }
  assert (Hnone : forall y, (inject_Z sx <= y /\ y <= inject_Z (sx + w))%Q ->
            get_ground_at g y = None).
  { intros y Hy. apply get_ground_at_None.
    exists (Gap_init sx w gy). split; [exact Hin | apply Hiff; exact Hy]. }
  split; [apply Hiff|]. split; [apply Hnone|]. split; [|split].
  - intros Hw.
    assert (Hb : (inject_Z sx <= inject_Z (sx + w) /\
                  inject_Z (sx + w) <= inject_Z (sx + w))%Q).
    { split; [rewrite <- Zle_Qle; lia | apply Qle_refl]. }
    split; [apply Hiff; exact Hb | apply Hnone; exact Hb].
  - rewrite get_ground_at_None. split.
    + intros (gap & Hg & Hc). exists gap. split; [exact Hg|].
      apply contains_x_spec. exact Hc.
    + intros (gap & Hg & Hc). exists gap. split; [exact Hg|].
      apply contains_x_spec. exact Hc.
  - unfold get_ground_at. destruct (existsb _ _); [congruence | reflexivity].
Qed.

(** C10 on a generated chunk: the first draws open a two-tile gap at
    1200 and the later ones place nothing but ground.  Here the first
    ground tile after the gap has its left edge at 1328, the right
    boundary of the gap, and there [get_ground_at] still answers None. *)
Lemma gap_membership_is_closed_witness :
  exists g' : LevelGenerator,
    option_map fst
      (_generate_chunk false 1200 500 init
         (Random.of_list ([0; 0; 0; 0; 0] ++ repeat (2 ^ 53 - 1) 20)%N))
    = Some g' /\
    In (Gap_init 1200 128 584) (gaps g') /\
    hd_error (map g_world_x (ground_tiles g')) = Some 1328 /\
    contains_x (Gap_init 1200 128 584) (inject_Z (1200 + 128)) = true /\
    get_ground_at g' (inject_Z (1200 + 128)) = None.
Proof.
  eexists. split; [vm_compute; reflexivity|].
  match goal with
  | |- In ?gap (gaps ?g) /\ _ =>
      assert (Hin : In gap (gaps g)) by (left; reflexivity);
      split; [exact Hin|]; split; [reflexivity|];
      exact (proj1 (proj2 (proj2
               (gap_membership_is_closed g 1200 128 584 (inject_Z 1200) Hin)))
               ltac:(lia))
  end.
Defined.

End GeneratorProperties.

(* ===================================================================== *)
(** * Properties of the life milestones *)
(* ===================================================================== *)

Section GameProperties.
Import Game.
Local Open Scope Z_scope.

Lemma check_fires (g : t) (m : Z) :
  nth_error (life_milestones g) (next_life_milestone_idx g) = Some m ->
  m <= distance g ->
  next_life_milestone_idx (_check_life_milestones g) = S (next_life_milestone_idx g) /\
  Squirrel.lives (player (_check_life_milestones g)) = awarded (player g) /\
  life_milestones (_check_life_milestones g) = life_milestones g.
Proof.
  intros Hnth Hd. unfold _check_life_milestones.
  assert (Hlt : (next_life_milestone_idx g < length (life_milestones g))%nat).
  { apply nth_error_Some. rewrite Hnth. discriminate. }
  replace (length (life_milestones g) <=? next_life_milestone_idx g)%nat with false
    by (symmetry; apply Nat.leb_gt; exact Hlt).
  rewrite Hnth.
  replace (m <=? distance g) with true by (symmetry; apply Z.leb_le; exact Hd).
  unfold Squirrel.add_life, awarded.
  destruct (Squirrel.lives (player g) <? Squirrel.max_lives (player g));
    simpl; auto.
Qed.

Lemma check_idle (g : t) :
  (forall m, nth_error (life_milestones g) (next_life_milestone_idx g) = Some m ->
             distance g < m) ->
  _check_life_milestones g = g.
Proof.
  intros H. unfold _check_life_milestones.
  destruct (length (life_milestones g) <=? next_life_milestone_idx g)%nat;
    [reflexivity|].
  destruct (nth_error (life_milestones g) (next_life_milestone_idx g)) as [m|];
    [|reflexivity].
  replace (m <=? distance g) with false
    by (symmetry; apply Z.leb_gt; apply H; reflexivity).
  reflexivity.
Qed.

(** One tick moves the cursor by at most one, never back, and adds at
    most as many lives as the cursor moved. *)
Lemma update_distance_cursor (d : Z) (g : t) :
  let g' := update_distance d g in
  life_milestones g' = life_milestones g /\
  (next_life_milestone_idx g <= next_life_milestone_idx g'
   <= S (next_life_milestone_idx g))%nat /\
  Squirrel.lives (player g) <= Squirrel.lives (player g') /\
  Squirrel.lives (player g') - Squirrel.lives (player g)
  <= Z.of_nat (next_life_milestone_idx g') - Z.of_nat (next_life_milestone_idx g).
Proof.
  unfold update_distance. cbv zeta.
  match goal with
  | |- context [_check_life_milestones ?h] => set (g2 := h)
  end.
  assert (H2 : life_milestones g2 = life_milestones g /\
               next_life_milestone_idx g2 = next_life_milestone_idx g /\
               player g2 = player g).
  { unfold g2. simpl. destruct (_ <? _); simpl; auto. }
  destruct H2 as (Hm2 & Hi2 & Hp2). rewrite <- Hm2, <- Hi2, <- Hp2. clearbody g2.
  unfold _check_life_milestones.
  destruct (length (life_milestones g2) <=? next_life_milestone_idx g2)%nat;
    [repeat split; lia|].
  destruct (nth_error (life_milestones g2) (next_life_milestone_idx g2)) as [m|];
    [|repeat split; lia].
  destruct (m <=? distance g2); [|repeat split; lia].
  unfold Squirrel.add_life.
  destruct (Squirrel.lives (player g2) <? Squirrel.max_lives (player g2));
    simpl; repeat split; lia.
Qed.

Lemma run_distances_cursor (ds : list Z) (g : t) :
  let g' := run_distances ds g in
  life_milestones g' = life_milestones g /\
  (next_life_milestone_idx g <= next_life_milestone_idx g')%nat /\
  Squirrel.lives (player g') - Squirrel.lives (player g)
  <= Z.of_nat (next_life_milestone_idx g') - Z.of_nat (next_life_milestone_idx g).
Proof.
  revert g. induction ds as [|d ds IH]; intros g; simpl.
  - repeat split; lia.
  - destruct (IH (update_distance d g)) as (Hm & Hi & Hl).
    destruct (update_distance_cursor d g) as (Hm1 & Hi1 & _ & Hl1).
    repeat split; [congruence | lia | lia].
Qed.

(** C7: when the distance reaches the milestone under the cursor, the
    check adds exactly one life if the player is below max lives (none
    otherwise) and advances the cursor by one.  From then on the cursor
    never moves back, whatever distances follow, so that milestone is
    never examined again; every later life comes with a further advance
    of the cursor; and a tick at a distance below the next milestone (the
    same distance again, for one) changes neither lives nor cursor. *)
Theorem life_milestone_awarded_once (g : t) (i : nat) (m : Z) :
  next_life_milestone_idx g = i ->
  nth_error (life_milestones g) i = Some m ->
  m <= distance g ->
  let g1 := _check_life_milestones g in
  next_life_milestone_idx g1 = S i /\
  Squirrel.lives (player g1) =
    (if Squirrel.lives (player g) <? Squirrel.max_lives (player g)
     then Squirrel.lives (player g) + 1
     else Squirrel.lives (player g)) /\
  (forall ds : list Z,
     let g2 := run_distances ds g1 in
     (S i <= next_life_milestone_idx g2)%nat /\
     Squirrel.lives (player g2) - Squirrel.lives (player g1)
     <= Z.of_nat (next_life_milestone_idx g2) - Z.of_nat (S i)) /\
  (forall d : Z,
     (forall m', nth_error (life_milestones g) (S i) = Some m' -> d < m') ->
     next_life_milestone_idx (update_distance d g1) = S i /\
     Squirrel.lives (player (update_distance d g1)) = Squirrel.lives (player g1)).
Proof.
  intros Hi Hnth Hd g1. subst i.
  destruct (check_fires g m Hnth Hd) as (Hidx & Hlives & Hms).
  fold g1 in Hidx, Hlives, Hms.
  split; [exact Hidx|]. split; [exact Hlives|]. split.
  - intros ds g2.
    destruct (run_distances_cursor ds g1) as (_ & Hc & Hl).
    fold g2 in Hc, Hl. rewrite Hidx in Hc, Hl. split; assumption.
  - intros d Hnext.
    unfold update_distance. cbv zeta.
    match goal with
    | |- context [_check_life_milestones ?h] => set (g2 := h)
    end.
    assert (H2 : life_milestones g2 = life_milestones g1 /\
                 next_life_milestone_idx g2 = next_life_milestone_idx g1 /\
                 player g2 = player g1 /\ distance g2 = d).
    { unfold g2. simpl. destruct (_ <? _); simpl; auto. }
    destruct H2 as (Hm2 & Hi2 & Hp2 & Hd2).
    rewrite check_idle.
    + rewrite Hi2, Hp2. auto.
    + intros m'. rewrite Hm2, Hi2, Hms, Hidx, Hd2. apply Hnext.
Qed.

(** C7 on a new run: the first milestone, 1000, is reached at distance
    1000 after a hit; the cursor goes from 0 to 1 and the lost life is
    given back.  A second tick at 1000 changes nothing. *)
Lemma life_milestone_awarded_once_witness :
  let g0 := start_game 0 0 0 584 (mk (Squirrel.init 0 0 0 0 0) 0 0 0 false [] 0) in
  let g := mk (snd (Squirrel.hit_obstacle (player g0))) 0 1000 1000 true
              (life_milestones g0) (next_life_milestone_idx g0) in
  let g1 := _check_life_milestones g in
  Squirrel.lives (player g) = 2 /\
  next_life_milestone_idx g1 = 1%nat /\
  Squirrel.lives (player g1) = 3 /\
  next_life_milestone_idx (update_distance 1000 g1) = 1%nat /\
  Squirrel.lives (player (update_distance 1000 g1)) = Squirrel.lives (player g1).
Proof.
  intros g0 g g1.
  destruct (life_milestone_awarded_once g 0 1000 eq_refl eq_refl ltac:(simpl; lia))
    as (Hidx & Hlives & _ & Hidle).
  destruct (Hidle 1000) as [H1 H2].
  { intros m' Hm'. simpl in Hm'. injection Hm' as <-. lia. }
  split; [reflexivity|]. split; [exact Hidx|]. split; [exact Hlives|].
  split; [exact H1 | exact H2].
Defined.

End GameProperties.

(* ===================================================================== *)
(** * More about the camera *)
(* ===================================================================== *)

Section CameraConversions.
Local Open Scope R_scope.



Lemma camera_ticks_offsets (n : nat) (dt px pct : R) (c : Camera.t) :
  Camera.base_offset (Camera.ticks n dt px pct c) = Camera.base_offset c /\
  Camera.max_offset (Camera.ticks n dt px pct c) = Camera.max_offset c /\
  Camera.screen_width (Camera.ticks n dt px pct c) = Camera.screen_width c.
Proof. induction n as [|n IH]; simpl; auto. Qed.

(** X3: for a camera made by [Camera(screen_width, screen_height)] and a
    speed between 0 and 100 percent, at any tick the look-ahead offset
    lies between 30 % and 50 % of the screen width and grows with the
    speed, so the target keeps the player in the left half of the view. *)
Theorem camera_offset_between_30_and_50_percent
    (sw sh dt px pct pct' : R) (n : nat) :
  0 <= sw -> 0 <= pct <= pct' -> pct' <= 100 ->
  let c := Camera.ticks n dt px pct (Camera.init sw sh) in
  sw * (3 / 10) <= Camera.current_offset c pct /\
  Camera.current_offset c pct <= Camera.current_offset c pct' /\
  Camera.current_offset c pct' <= sw * (5 / 10).
Proof.
  intros Hsw Hp Hp' c.
  destruct (camera_ticks_offsets n dt px pct (Camera.init sw sh)) as (Hb & Hm & _).
  unfold Camera.current_offset. fold c in Hb, Hm. rewrite Hb, Hm. simpl.
  repeat split; nra.
Qed.

Lemma camera_offset_between_30_and_50_percent_witness :
  let c := Camera.ticks 3 (1 / 60) 1000 50 (Camera.init 800 600) in
  800 * (3 / 10) <= Camera.current_offset c 50 /\
  Camera.current_offset c 50 <= Camera.current_offset c 100 /\
  Camera.current_offset c 100 <= 800 * (5 / 10).
Proof.
  apply (camera_offset_between_30_and_50_percent 800 600 (1 / 60) 1000 50 100 3); lra.
Defined.



End CameraConversions.

(* ===================================================================== *)
(** * More about the player *)
(* ===================================================================== *)

Section PlayerPhysics.
Import Squirrel.
Local Open Scope R_scope.

Lemma vertical_same_refl (p : t) : vertical_same p p.
Proof. split; reflexivity. Qed.

Lemma vertical_same_trans (p q r : t) :
  vertical_same p q -> vertical_same q r -> vertical_same p r.
Proof. intros [] []; split; congruence. Qed.

Lemma ramp_speed_vertical (dt : R) (p : t) : vertical_same p (ramp_speed dt p).
Proof. unfold ramp_speed. destruct (negb _); split; reflexivity. Qed.

Lemma tick_hit_timer_vertical (dt : R) (p : t) :
  vertical_same p (tick_hit_timer dt p).
Proof.
  unfold tick_hit_timer. destruct (Rltb _ _); [|split; reflexivity].
  cbv zeta. destruct (Rleb _ _); split; reflexivity.
Qed.

Lemma move_horizontally_vertical (dt : R) (p : t) :
  vertical_same p (move_horizontally dt p).
Proof. split; reflexivity. Qed.

Lemma update_animation_vertical (dt : R) (p : t) :
  vertical_same p (_update_animation dt p).
Proof.
  unfold _update_animation. cbv zeta.
  change (state (set_animation_timer (animation_timer p + dt) p)) with (state p).
  destruct (state p); cbv beta iota;
    repeat match goal with
           | |- context [if ?b then _ else _] => destruct b
           end;
    split; reflexivity.
Qed.

(** The vertical state before the fall and collision blocks of [update]
    is that of the player it was called on. *)
Lemma update_vertical_pre (dt : R) (p : t) :
  vertical_same p (move_horizontally dt (tick_hit_timer dt (ramp_speed dt p))).
Proof.
  eapply vertical_same_trans; [apply ramp_speed_vertical|].
  eapply vertical_same_trans; [apply tick_hit_timer_vertical|].
  apply move_horizontally_vertical.
Qed.

(** What [update] does to the vertical state, in one piece. *)
Lemma update_vertical (dt : R) (p : t) :
  let g := if falling_in_gap p then gap_gravity p else gravity p in
  let v1 := velocity_y p + g * dt in
  let y1 := y p + v1 * dt in
  let q := update dt p in
  ground_y q = ground_y p /\ gravity q = gravity p /\
  gap_gravity q = gap_gravity p /\ jump_strength q = jump_strength p /\
  falling_in_gap q = falling_in_gap p /\
  ((ground_y p <= y1 /\ y q = ground_y p /\ velocity_y q = 0 /\
    is_grounded q = true) \/
   (y1 < ground_y p /\ y q = y1 /\ velocity_y q = v1 /\ is_grounded q = false)).
Proof.
  cbv zeta. unfold update. cbv zeta.
  set (p3 := move_horizontally dt (tick_hit_timer dt (ramp_speed dt p))).
  destruct (update_vertical_pre dt p) as [Hy Hv Hg HG Hgr Hgg Hj Hf].
  fold p3 in Hy, Hv, Hg, HG, Hgr, Hgg, Hj, Hf.
  destruct (update_animation_vertical dt (collide_with_ground (move_vertically dt p3)))
    as [Ay Av Ag AG Agr Agg Aj Af].
  rewrite Ay, Av, Ag, AG, Agr, Agg, Aj, Af.
  rewrite <- Hy, <- Hv, <- HG, <- Hgr, <- Hgg, <- Hj, <- Hf.
  unfold collide_with_ground, move_vertically. cbv zeta.
  cbn [ground_y y set_y set_velocity_y velocity_y falling_in_gap gravity gap_gravity].
  unfold Rleb.
  match goal with
  | |- context [Rle_dec ?a ?b] => destruct (Rle_dec a b) as [Hle|Hle]
  end.
  - cbv zeta.
    match goal with
    | |- context [if ?b then _ else _] => destruct b
    end; simpl; repeat split; left; repeat split; exact Hle.
  - repeat split. right. repeat split. apply Rnot_le_lt. exact Hle.
Qed.

(** X5: after every [update], the player is at or above its ground
    level, it is grounded exactly when it stands on it, and then its
    vertical velocity is 0. *)
Theorem update_snaps_to_ground (dt : R) (p : t) :
  let q := update dt p in
  y q <= ground_y q /\
  (is_grounded q = true <-> y q = ground_y q) /\
  (is_grounded q = true -> velocity_y q = 0).
Proof.
  cbv zeta.
  destruct (update_vertical dt p) as (HG & _ & _ & _ & _ & Hcase).
  cbv zeta in Hcase. rewrite HG.
  destruct Hcase as [(H1 & Hy & Hv & Hg) | (H1 & Hy & Hv & Hg)]; rewrite Hy, Hg.
  - repeat split; auto; lra.
  - repeat split; try discriminate; try lra; try (intros E; lra).
Qed.

Lemma update_snaps_to_ground_witness :
  let q := update (1 / 60) (init 0 0 0 100 474) in
  is_grounded q = true /\ y q = ground_y q /\ velocity_y q = 0.
Proof.
  intros q.
  destruct (update_snaps_to_ground (1 / 60) (init 0 0 0 100 474)) as (_ & H2 & H3).
  fold q in H2, H3.
  assert (Hg : is_grounded q = true).
  { destruct (update_vertical (1 / 60) (init 0 0 0 100 474))
      as (_ & _ & _ & _ & _ & [(_ & _ & _ & Hg) | (Hlt & _)]).
    - exact Hg.
    - exfalso. simpl in Hlt. lra. }
  split; [exact Hg|]. split; [apply (proj1 H2 Hg) | apply (H3 Hg)].
Defined.

Lemma jump_invariant_step (G J g : R) (c : call) (p : t) :
  0 < g -> c <> HitObstacle ->
  jump_invariant G J g p -> jump_invariant G J g (step c p).
Proof.
  intros Hg Hc (HG & HJ & Hgr & Hf & Hy & Hgrd & He).
  destruct c; [congruence| | |]; simpl.
  - (* add_life *)
    unfold add_life. destruct (_ <? _)%Z; simpl; repeat split; assumption.
  - (* jump *)
    unfold jump. destruct (is_grounded p && _) eqn:E.
    + apply andb_prop in E. destruct E as [E _].
      unfold jump_invariant. simpl. rewrite HJ, (Hgrd E).
      repeat split; try assumption; try discriminate; try lra.
    + repeat split; assumption.
  - (* update *)
    destruct (update_vertical dt p) as (HG' & Hgr' & _ & HJ' & Hf' & Hcase).
    cbv zeta in Hcase. rewrite Hf, Hgr in Hcase.
    unfold jump_invariant.
    rewrite HG', HJ', Hgr', Hf'.
    destruct Hcase as [(H1 & Hy' & Hv' & Hg') | (H1 & Hy' & Hv' & Hg')];
      rewrite Hy', Hv', Hg', ?HG in *.
    + repeat split; try assumption; try discriminate; try lra; try nra.
    + repeat split; try assumption; try discriminate; try lra; try nra.
Qed.

(** X6: a player standing on the ground that only jumps, is updated and
    gains lives (no hit, no gap) never rises more than
    jump_strength^2 / (2 gravity) above the ground, whatever the time
    steps: about 126 pixels for the values of [__init__]. *)
Theorem jump_height_is_bounded (cs : list call) (p : t) :
  0 < gravity p ->
  falling_in_gap p = false ->
  is_grounded p = true -> y p = ground_y p -> velocity_y p = 0 ->
  ~ In HitObstacle cs ->
  ground_y p - jump_strength p * jump_strength p / (2 * gravity p)
  <= y (run cs p) <= ground_y p.
Proof.
  intros Hg Hf Hgrd Hy Hv Hno.
  assert (Hinv : jump_invariant (ground_y p) (jump_strength p) (gravity p) p).
  { unfold jump_invariant. rewrite Hy, Hv. repeat split; auto; try lra. nra. }
  assert (Hrun : jump_invariant (ground_y p) (jump_strength p) (gravity p) (run cs p)).
  { clear Hf Hgrd Hy Hv.
    generalize dependent p. induction cs as [|c cs IH]; intros p Hg Hinv; simpl.
    - exact Hinv.
    - assert (Hc : c <> HitObstacle) by (intros ->; apply Hno; left; reflexivity).
      assert (Hno' : ~ In HitObstacle cs) by (intros H; apply Hno; right; exact H).
      pose proof (jump_invariant_step _ _ _ c p Hg Hc Hinv) as Hs.
      destruct Hs as (HG & HJ & Hgr & Hrest).
      specialize (IH Hno' (step c p)).
      rewrite HG, HJ, Hgr in IH. apply IH; [exact Hg|].
      unfold jump_invariant. rewrite HG, HJ, Hgr. repeat split; apply Hrest. }
  destruct Hrun as (_ & _ & _ & _ & Hle & _ & He).
  split; [|exact Hle].
  assert (Hbound : 2 * gravity p * (ground_y p - y (run cs p))
                   <= jump_strength p * jump_strength p).
  { pose proof (Rle_0_sqr (velocity_y (run cs p))) as Hsq. unfold Rsqr in Hsq. lra. }
  apply Rmult_le_reg_l with (r := 2 * gravity p); [lra|].
  replace (2 * gravity p *
           (ground_y p - jump_strength p * jump_strength p / (2 * gravity p)))
    with (2 * gravity p * ground_y p - jump_strength p * jump_strength p)
    by (field; lra).
  lra.
Qed.

(** The bound on a new player: two jumps over three seconds of updates
    stay within 126.05 pixels of the ground. *)
Lemma jump_height_is_bounded_witness :
  let p := init 0 0 0 100 474 in
  let cs := [Jump; Update (1 / 10); Update (1 / 10); Jump; Update 1; Jump; Update 2] in
  474 - 12605 / 100 <= y (run cs p) <= 474.
Proof.
  intros p cs.
  assert (H : ground_y p - jump_strength p * jump_strength p / (2 * gravity p)
              <= y (run cs p) <= ground_y p).
  { apply (jump_height_is_bounded cs p).
    - simpl. lra.
    - reflexivity.
    - reflexivity.
    - reflexivity.
    - reflexivity.
    - simpl. intuition discriminate. }
  change (ground_y p) with 474 in H.
  change (jump_strength p) with (-550) in H.
  change (gravity p) with 1200 in H.
  lra.
Defined.

End PlayerPhysics.

Section PlayerSpeedAndStun.
Import Squirrel.
Local Open Scope R_scope.

(** The blocks of [update] after the speed ramp leave the speed
    multiplier and its rate alone. *)
Lemma tick_hit_timer_speed (dt : R) (p : t) :
  speed_multiplier (tick_hit_timer dt p) = speed_multiplier p /\
  speed_increase_rate (tick_hit_timer dt p) = speed_increase_rate p.
Proof.
  unfold tick_hit_timer. destruct (Rltb _ _); [|split; reflexivity].
  cbv zeta. destruct (Rleb _ _); split; reflexivity.
Qed.

Lemma collide_with_ground_speed (p : t) :
  speed_multiplier (collide_with_ground p) = speed_multiplier p /\
  speed_increase_rate (collide_with_ground p) = speed_increase_rate p.
Proof.
  unfold collide_with_ground. destruct (Rleb _ _); [|split; reflexivity].
  cbv zeta. destruct (state_eqb _ _); split; reflexivity.
Qed.

Lemma update_animation_speed (dt : R) (p : t) :
  speed_multiplier (_update_animation dt p) = speed_multiplier p /\
  speed_increase_rate (_update_animation dt p) = speed_increase_rate p.
Proof.
  unfold _update_animation. cbv zeta.
  change (state (set_animation_timer (animation_timer p + dt) p)) with (state p).
  destruct (state p); cbv beta iota;
    repeat match goal with
           | |- context [if ?b then _ else _] => destruct b
           end;
    split; reflexivity.
Qed.

Lemma update_speed (dt : R) (p : t) :
  speed_multiplier (update dt p) =
    (if state_eqb (state p) STATE_HIT then speed_multiplier p
     else Rmin (speed_multiplier p + speed_increase_rate p * dt) 3) /\
  speed_increase_rate (update dt p) = speed_increase_rate p.
Proof.
  unfold update. cbv zeta.
  destruct (update_animation_speed dt
              (collide_with_ground (move_vertically dt (move_horizontally dt
                 (tick_hit_timer dt (ramp_speed dt p)))))) as [A1 A2].
  destruct (collide_with_ground_speed
              (move_vertically dt (move_horizontally dt
                 (tick_hit_timer dt (ramp_speed dt p))))) as [C1 C2].
  destruct (tick_hit_timer_speed dt (ramp_speed dt p)) as [T1 T2].
  rewrite A1, A2, C1, C2.
  change (speed_multiplier (move_vertically dt (move_horizontally dt
            (tick_hit_timer dt (ramp_speed dt p)))))
    with (speed_multiplier (tick_hit_timer dt (ramp_speed dt p))).
  change (speed_increase_rate (move_vertically dt (move_horizontally dt
            (tick_hit_timer dt (ramp_speed dt p)))))
    with (speed_increase_rate (tick_hit_timer dt (ramp_speed dt p))).
  rewrite T1, T2. unfold ramp_speed.
  destruct (state_eqb (state p) STATE_HIT); simpl; split; reflexivity.
Qed.

Lemma step_speed (c : call) (p : t) :
  speed_multiplier p <= 3 -> 0 <= speed_increase_rate p ->
  match c with Update dt => 0 <= dt | _ => True end ->
  speed_increase_rate (step c p) = speed_increase_rate p /\
  speed_multiplier p <= speed_multiplier (step c p) <= 3.
Proof.
  intros H3 Hr Hdt. destruct c; simpl.
  - unfold hit_obstacle. destruct (state_eqb _ _); simpl; split; auto; lra.
  - unfold add_life. destruct (_ <? _)%Z; simpl; split; auto; lra.
  - unfold jump. destruct (_ && _); simpl; split; auto; lra.
  - destruct (update_speed dt p) as [Hs Hrate]. rewrite Hs, Hrate.
    split; [reflexivity|].
    destruct (state_eqb _ _); [lra|].
    unfold Rmin. destruct (Rle_dec _ _); nra.
Qed.

(** X7: over every sequence of calls whose updates do not go back in
    time, the speed multiplier never decreases (a hit freezes it, it does
    not reduce it) and never exceeds 3, so the speed percentage never
    exceeds 100. *)
Theorem speed_multiplier_ramps_up_to_3 (cs : list call) (p : t) :
  speed_multiplier p <= 3 -> 0 <= speed_increase_rate p ->
  forward_in_time cs ->
  speed_multiplier p <= speed_multiplier (run cs p) <= 3 /\
  get_speed_percentage (run cs p) <= 100.
Proof.
  intros H3 Hr Hcs.
  assert (H : speed_multiplier p <= speed_multiplier (run cs p) <= 3).
  { revert p H3 Hr. induction Hcs as [|c cs Hc Hcs IH]; intros p H3 Hr; simpl.
    - lra.
    - destruct (step_speed c p H3 Hr Hc) as [Hrate Hs].
      specialize (IH (step c p)). rewrite Hrate in IH.
      assert (speed_multiplier (step c p) <= speed_multiplier (run cs (step c p)) <= 3)
        by (apply IH; lra).
      lra. }
  split; [exact H|]. unfold get_speed_percentage. lra.
Qed.

Lemma speed_multiplier_ramps_up_to_3_witness :
  let p := init 0 0 0 100 474 in
  let cs := [Update 30; HitObstacle; Update (1 / 2); Jump; Update 60] in
  speed_multiplier p <= speed_multiplier (run cs p) <= 3 /\
  get_speed_percentage (run cs p) <= 100.
Proof.
  intros p cs.
  apply (speed_multiplier_ramps_up_to_3 cs p).
  - simpl. lra.
  - simpl. lra.
  - unfold cs, forward_in_time.
    repeat (constructor; [first [exact I | lra]|]). constructor.
Defined.

(** ** The stun window *)

Lemma stunned_calls_do_nothing (p : t) :
  state p = STATE_HIT ->
  snd (hit_obstacle p) = p /\ jump p = p.
Proof.
  intros Hs. unfold hit_obstacle, jump. rewrite Hs. simpl.
  rewrite andb_false_r. split; reflexivity.
Qed.

Lemma stunned_run_without_update (cs : list call) (p : t) :
  state p = STATE_HIT ->
  Forall (fun c => match c with Update _ => False | _ => True end) cs ->
  state (run cs p) = STATE_HIT /\
  (lives p <= lives (run cs p))%Z /\
  yarn_count (run cs p) = yarn_count p /\
  hit_timer (run cs p) = hit_timer p.
Proof.
  intros Hs Hcs. revert p Hs.
  induction Hcs as [|c cs Hc Hcs IH]; intros p Hs; simpl.
  - repeat split; [exact Hs | lia].
  - destruct c; simpl.
    + rewrite (proj1 (stunned_calls_do_nothing p Hs)). apply IH; assumption.
    + unfold add_life. destruct (lives p <? max_lives p)%Z eqn:E; simpl.
      * destruct (IH (set_lives (lives p + 1)%Z p) Hs) as (I1 & I2 & I3 & I4).
        simpl in I2, I3, I4. repeat split; [exact I1 | lia | exact I3 | exact I4].
      * apply IH; assumption.
    + rewrite (proj2 (stunned_calls_do_nothing p Hs)). apply IH; assumption.
    + destruct Hc.
Qed.

(** X8: for a player in the Hit state with hit_timer > 0, one
    [update(dt)] keeps the Hit state exactly when dt < hit_timer; and
    when it does, the [hit_obstacle], [jump] and [add_life] calls that
    follow before the next update leave the player in the Hit state, take
    no life and no yarn, and leave the timer alone.  (The update makes a
    single subtraction, whose sign is that of hit_timer against dt.) *)
Theorem one_hit_per_stun_window (dt : R) (cs : list call) (p : t) :
  state p = STATE_HIT ->
  0 < hit_timer p ->
  (state (update dt p) = STATE_HIT <-> dt < hit_timer p) /\
  (dt < hit_timer p ->
   Forall (fun c => match c with Update _ => False | _ => True end) cs ->
   state (run cs (update dt p)) = STATE_HIT /\
   (lives p <= lives (run cs (update dt p)))%Z /\
   yarn_count (run cs (update dt p)) = yarn_count p /\
   hit_timer (run cs (update dt p)) = hit_timer (update dt p)).
Proof.
  intros Hs H0.
  assert (Hkeep : dt < hit_timer p ->
            state (update dt p) = STATE_HIT /\
            hit_timer (update dt p) = hit_timer p - dt).
  { intros Hlt. unfold update. cbv zeta.
    destruct (update_animation_frame dt
                (collide_with_ground (move_vertically dt (move_horizontally dt
                   (tick_hit_timer dt (ramp_speed dt p)))))) as (_ & As & At).
    rewrite As, At.
    assert (Hr : ramp_speed dt p = p).
    { unfold ramp_speed. rewrite Hs. reflexivity. }
    rewrite Hr.
    assert (Ht : tick_hit_timer dt p = set_hit_timer (hit_timer p - dt) p).
    { unfold tick_hit_timer. rewrite Rltb_true by lra. cbv zeta.
      unfold Rleb. simpl hit_timer.
      destruct (Rle_dec (hit_timer p - dt) 0); [lra | reflexivity]. }
    rewrite Ht.
    unfold collide_with_ground.
    destruct (Rleb _ _); cbv zeta; simpl; rewrite ?Hs; simpl; auto. }
  split.
  - split.
    + intros Hst. destruct (Rlt_le_dec dt (hit_timer p)) as [Hlt|Hle]; [exact Hlt|].
      exfalso. exact (update_ends_stun dt p (conj H0 Hle) Hst).
    + intros Hlt. exact (proj1 (Hkeep Hlt)).
  - intros Hlt Hcs. destruct (Hkeep Hlt) as [Us Ut].
    destruct (update_is_framed dt p) as [Fl _ _ Fy].
    destruct (stunned_run_without_update cs (update dt p) Us Hcs)
      as (I1 & I2 & I3 & I4).
    rewrite Fl in I2. rewrite Fy in I3. auto.
Qed.

(** A fresh player is hit, updated by half a second of the 1 s stun,
    then hit twice more and asked to jump: it is still stunned, with 2
    lives. *)
Lemma one_hit_per_stun_window_witness :
  let p := snd (hit_obstacle (init 0 0 0 100 474)) in
  let cs := [HitObstacle; Jump; HitObstacle] in
  state (run cs (update (1 / 2) p)) = STATE_HIT /\
  (2 <= lives (run cs (update (1 / 2) p)))%Z.
Proof.
  intros p cs.
  assert (Hs : state p = STATE_HIT) by reflexivity.
  assert (H0 : 0 < hit_timer p) by (unfold p; simpl; lra).
  assert (Hlt : 1 / 2 < hit_timer p) by (unfold p; simpl; lra).
  assert (Hcs : Forall (fun c => match c with Update _ => False | _ => True end) cs).
  { unfold cs. repeat constructor. }
  destruct (proj2 (one_hit_per_stun_window (1 / 2) cs p Hs H0) Hlt Hcs)
    as (H1 & H2 & _).
  split; [exact H1 | exact H2].
Defined.

End PlayerSpeedAndStun.

Section PlayerStash.
Import Squirrel.
Local Open Scope Z_scope.

Lemma yarn_loss_bounds (n : Z) :
  0 <= n ->
  0 <= yarn_loss n <= n /\ (yarn_loss n = 0 <-> n = 0) /\ 2 * yarn_loss n <= n + 1.
Proof.
  intros Hn. unfold yarn_loss. cbv zeta.
  destruct (Z.eqb_spec (n / 2) 0) as [E0|E0];
    destruct (Z.ltb_spec 0 n) as [E1|E1]; cbn [andb];
    repeat split; intros; Z.to_euclidean_division_equations; lia.
Qed.

(** X9: a hit on a player that is not stunned and holds [n >= 0] yarn
    takes some yarn exactly when there is some, never more than the
    player holds nor more than half rounded up, and leaves the count
    non-negative; at most 10 skeins are scattered, all from the centre of
    the player. *)
Theorem hit_never_overdraws_stash (p : t) :
  state p <> STATE_HIT ->
  0 <= yarn_count p ->
  let '(yarn_lost, yarn_positions, _, p') := hit_obstacle p in
  0 <= yarn_lost <= yarn_count p /\
  (yarn_lost = 0 <-> yarn_count p = 0) /\
  2 * yarn_lost <= yarn_count p + 1 /\
  yarn_count p' = yarn_count p - yarn_lost /\
  0 <= yarn_count p' /\
  (length yarn_positions <= 10)%nat /\
  Z.of_nat (length yarn_positions) <= yarn_lost /\
  Forall (fun tr => t_x tr = (x p + width p / 2)%R /\
                    t_y tr = (y p + height p / 2)%R) yarn_positions.
Proof.
  intros Hs Hn.
  pose proof (hit_obstacle_effect p Hs) as H.
  destruct (hit_obstacle p) as [[[yarn_lost yarn_positions] is_dead] p'].
  destruct H as (Hl & Hp & _ & _ & _ & _ & _ & _ & Hc).
  destruct (yarn_loss_bounds _ Hn) as (B1 & B2 & B3).
  rewrite <- Hl in *.
  assert (Hlen : length yarn_positions = Z.to_nat (Z.min yarn_lost 10)).
  { rewrite Hp, length_map, length_range. reflexivity. }
  repeat split; try lia; try (apply B2).
  rewrite Hp. apply List.Forall_forall.
  intros tr Hin. apply in_map_iff in Hin. destruct Hin as (i & <- & _).
  split; reflexivity.
Qed.

Lemma hit_never_overdraws_stash_witness :
  let p := collect_yarn 25 (init 0 0 0 100 474) in
  let '(yarn_lost, yarn_positions, _, p') := hit_obstacle p in
  0 <= yarn_lost <= 25 /\ 0 <= yarn_count p' /\ (length yarn_positions <= 10)%nat.
Proof.
  pose proof (hit_never_overdraws_stash (collect_yarn 25 (init 0 0 0 100 474))
                ltac:(simpl; discriminate) ltac:(simpl; lia)) as H.
  cbv zeta.
  destruct (hit_obstacle (collect_yarn 25 (init 0 0 0 100 474)))
    as [[[yarn_lost yarn_positions] is_dead] p'].
  destruct H as (H1 & _ & _ & _ & H5 & H6 & _).
  split; [exact H1|]. split; [exact H5 | exact H6].
Defined.

End PlayerStash.

(* ===================================================================== *)
(** * More about the pickups *)
(* ===================================================================== *)

Section YarnTiers.
Import Yarn.
Local Open Scope Z_scope.

Lemma get_available_colors_cases (stash : Z) :
  (stash < 10 /\ get_available_colors stash = colors basic_tier) \/
  (10 <= stash < 25 /\
   get_available_colors stash = colors basic_tier ++ colors mid_tier) \/
  (25 <= stash /\
   get_available_colors stash =
     colors basic_tier ++ colors mid_tier ++ colors late_tier).
Proof.
  unfold get_available_colors. simpl.
  destruct (0 <=? stash) eqn:E0; destruct (10 <=? stash) eqn:E1;
    destruct (25 <=? stash) eqn:E2;
    try apply Z.leb_le in E0; try apply Z.leb_gt in E0;
    try apply Z.leb_le in E1; try apply Z.leb_gt in E1;
    try apply Z.leb_le in E2; try apply Z.leb_gt in E2;
    try lia; simpl; auto.
Qed.

(** X10: the colours available never shrink as the stash grows: every
    colour offered at a stash is offered at every larger stash, and the
    rainbow is never among them (it has its own roll). *)
Theorem available_colors_grow_with_stash (s1 s2 : Z) (color : string) :
  s1 <= s2 ->
  In color (get_available_colors s1) ->
  In color (get_available_colors s2) /\ color <> "rainbow"%string.
Proof.
  intros Hle Hin.
  destruct (get_available_colors_cases s1) as [[H1 E1] | [[H1 E1] | [H1 E1]]];
  destruct (get_available_colors_cases s2) as [[H2 E2] | [[H2 E2] | [H2 E2]]];
    try lia; rewrite E1 in Hin; rewrite E2; simpl in Hin |- *;
    (split; [tauto | intuition congruence]).
Qed.

Lemma available_colors_grow_with_stash_witness :
  In "blue"%string (get_available_colors 30) /\ "blue"%string <> "rainbow"%string.
Proof.
  apply (available_colors_grow_with_stash 0 30 "blue"); [lia|].
  simpl. auto.
Defined.

Lemma available_color_facts (stash : Z) (color : string) :
  0 <= stash ->
  In color (get_available_colors stash) ->
  get_min_stash_for_color color <= stash /\
  In (points_for_color color) [1; 2; 3] /\
  String.eqb color "rainbow" = false.
Proof.
  intros H0 Hin.
  destruct (get_available_colors_cases stash) as [[H E] | [[H E] | [H E]]];
    rewrite E in Hin; simpl in Hin;
    repeat (destruct Hin as [<- | Hin];
            [vm_compute get_min_stash_for_color; vm_compute points_for_color;
             simpl; split; [lia | split; [tauto | reflexivity]]|]);
    contradiction.
Qed.

(** What [spawn_yarn] returns, in full. *)
Lemma returns_spawn_yarn_full (x y stash : Z) :
  0 <= stash ->
  returns (spawn_yarn x y stash)
    (fun r => exists yarn, r = Some yarn /\
       world_x yarn = x /\ world_y yarn = y /\
       is_expired yarn = false /\
       get_min_stash_for_color (color_name yarn) <= stash /\
       ((is_rainbow yarn = true /\ yarn_points yarn = 5 /\
         color_name yarn = "rainbow"%string) \/
        (is_rainbow yarn = false /\ In (yarn_points yarn) [1; 2; 3] /\
         In (color_name yarn) (get_available_colors stash) /\
         yarn_points yarn = points_for_color (color_name yarn)))).
Proof.
  intros H0. unfold spawn_yarn.
  eapply returns_bind; [apply returns_random|]. intros r _.
  destruct (Qltb r rare_spawn_chance).
  - unfold YarnSkein_init.
    eapply returns_bind; [|intros yarn Hy; apply returns_ret; exact Hy].
    eapply returns_bind; [apply returns_random|]. intros bob _.
    eapply returns_bind; [apply returns_random|]. intros wiggle _.
    apply returns_ret. eexists. split; [reflexivity|]. simpl.
    repeat split; try reflexivity.
    + vm_compute get_min_stash_for_color. lia.
    + left. repeat split; reflexivity.
  - eapply returns_bind; [apply returns_choice, get_available_colors_nonempty|].
    intros color Hc. cbv beta in Hc.
    destruct (available_color_facts stash color H0 Hc) as (Hm & Hp & Hr).
    unfold YarnSkein_init.
    eapply returns_bind; [|intros yarn Hy; apply returns_ret; exact Hy].
    eapply returns_bind; [apply returns_random|]. intros bob _.
    eapply returns_bind; [apply returns_random|]. intros wiggle _.
    apply returns_ret. eexists. split; [reflexivity|].
    cbn [world_x world_y color_name yarn_points is_rainbow is_expired
         is_scattered andb].
    repeat split; try reflexivity; try assumption.
    right. repeat split; assumption.
Qed.

(** X11: a skein spawned at a stash [>= 0] passes the tier and expiry
    tests of the generator's cleanup at that stash: its colour's unlock
    threshold is at most the stash and it is not expired. *)
Theorem spawned_yarn_survives_tier_filter (x y stash : Z) (s : Random.source) :
  0 <= stash ->
  exists (yarn : YarnSkein) (s' : Random.source),
    spawn_yarn x y stash s = Some (Some yarn, s') /\
    (get_min_stash_for_color (color_name yarn) <=? stash) = true /\
    is_expired yarn = false.
Proof.
  intros H0.
  destruct (returns_spawn_yarn_full x y stash H0 s)
    as (r & s' & E & yarn & -> & _ & _ & He & Hm & _).
  exists yarn, s'. split; [exact E|]. split; [|exact He].
  apply Z.leb_le. exact Hm.
Qed.

Lemma spawned_yarn_survives_tier_filter_witness :
  exists (yarn : YarnSkein) (s' : Random.source),
    spawn_yarn 300 524 12 (Random.constant 900719925474099) = Some (Some yarn, s') /\
    (get_min_stash_for_color (color_name yarn) <=? 12) = true /\
    is_expired yarn = false.
Proof.
  apply (spawned_yarn_survives_tier_filter 300 524 12); lia.
Defined.

(** X12: a spawned skein is worth 5 points exactly when it is the
    rainbow; otherwise it has one of the colours available at the stash
    and is worth the 1, 2 or 3 points of that colour's tier. *)
Theorem spawned_yarn_points_match_tier (x y stash : Z) (s : Random.source) :
  0 <= stash ->
  exists (yarn : YarnSkein) (s' : Random.source),
    spawn_yarn x y stash s = Some (Some yarn, s') /\
    (is_rainbow yarn = true <-> yarn_points yarn = 5) /\
    (is_rainbow yarn = true <-> color_name yarn = "rainbow"%string) /\
    (is_rainbow yarn = false ->
       In (color_name yarn) (get_available_colors stash) /\
       yarn_points yarn = points_for_color (color_name yarn) /\
       In (yarn_points yarn) [1; 2; 3]).
Proof.
  intros H0.
  destruct (returns_spawn_yarn_full x y stash H0 s)
    as (r & s' & E & yarn & -> & _ & _ & _ & _ & Hcase).
  exists yarn, s'. split; [exact E|].
  destruct Hcase as [(Hr & Hp & Hc) | (Hr & Hp & Hc & Hpc)].
  - rewrite Hr, Hp, Hc. repeat split; auto; discriminate.
  - rewrite Hr. repeat split; try discriminate; auto.
    + intros H5. rewrite H5 in Hp. simpl in Hp. intuition lia.
    + intros Hn. rewrite Hn in Hc.
      destruct (available_color_facts stash _ H0 Hc) as (_ & _ & Hf).
      vm_compute in Hf. discriminate Hf.
Qed.

Lemma spawned_yarn_points_match_tier_witness :
  exists (yarn : YarnSkein) (s' : Random.source),
    spawn_yarn 300 524 0 (Random.constant 0) = Some (Some yarn, s') /\
    (is_rainbow yarn = true <-> yarn_points yarn = 5).
Proof.
  destruct (spawned_yarn_points_match_tier 300 524 0 (Random.constant 0) ltac:(lia))
    as (yarn & s' & E & H & _).
  exists yarn, s'. split; [exact E | exact H].
Defined.

End YarnTiers.

(* ===================================================================== *)
(** * More about the distance bookkeeping *)
(* ===================================================================== *)

Section GameRecords.
Import Game.
Local Open Scope Z_scope.

Lemma check_life_milestones_keeps_records (g : t) :
  best_distance (_check_life_milestones g) = best_distance g /\
  is_new_distance_record (_check_life_milestones g) = is_new_distance_record g /\
  distance (_check_life_milestones g) = distance g /\
  life_milestones (_check_life_milestones g) = life_milestones g /\
  Squirrel.max_lives (player (_check_life_milestones g)) = Squirrel.max_lives (player g).
Proof.
  unfold _check_life_milestones.
  destruct (_ <=? _)%nat; [auto|].
  destruct (nth_error _ _); [|auto].
  destruct (_ <=? _); [|auto].
  unfold Squirrel.add_life. destruct (_ <? _); simpl; auto.
Qed.

Lemma update_distance_records (d : Z) (g : t) :
  best_distance (update_distance d g) = Z.max (best_distance g) d /\
  is_new_distance_record (update_distance d g) =
    (is_new_distance_record g || (best_distance g <? d))%bool /\
  distance (update_distance d g) = d.
Proof.
  unfold update_distance. cbv zeta.
  match goal with
  | |- context [_check_life_milestones ?h] =>
      destruct (check_life_milestones_keeps_records h) as (Hb & Hf & Hd & _)
  end.
  rewrite Hb, Hf, Hd. simpl.
  destruct (Z.ltb_spec (best_distance g) d); simpl.
  - rewrite orb_true_r. repeat split; lia.
  - rewrite orb_false_r. repeat split; lia.
Qed.

(** X13: over the ticks of a run the best distance is the running
    maximum of the old record and the distances seen, so it never drops
    and is at least every distance seen; and the new-record flag is set
    exactly when it was set before or some tick went beyond the record the
    run started with. *)
Theorem best_distance_is_running_maximum (ds : list Z) (g : t) :
  let g' := run_distances ds g in
  best_distance g' = fold_left Z.max ds (best_distance g) /\
  best_distance g <= best_distance g' /\
  Forall (fun d => d <= best_distance g') ds /\
  (is_new_distance_record g' = true <->
   is_new_distance_record g = true \/ Exists (fun d => best_distance g < d) ds).
Proof.
  cbv zeta. revert g. induction ds as [|d ds IH]; intros g; simpl.
  - repeat split; try lia; auto.
    intros [H | H]; [exact H | inversion H].
  - destruct (update_distance_records d g) as (Hb & Hf & _).
    destruct (IH (update_distance d g)) as (I1 & I2 & I3 & I4).
    rewrite Hb in I1, I2. rewrite Hb, Hf in I4.
    split; [exact I1|]. split; [lia|]. split.
    + constructor; [lia | exact I3].
    + rewrite I4. rewrite orb_true_iff, Z.ltb_lt. split.
      * intros [[H | H] | H]; [left; exact H | right; left; exact H |].
        right. right. eapply List.Exists_impl; [|exact H].
        intros a Ha. simpl in Ha. lia.
      * intros [H | H]; [left; left; exact H|].
        inversion H as [? ? Hd | ? ? Hex]; subst; [left; right; exact Hd|].
        destruct (Z.ltb_spec (best_distance g) d); [left; right; assumption|].
        right. eapply List.Exists_impl; [|exact Hex].
        intros a Ha. simpl in Ha |- *. lia.
Qed.

Lemma best_distance_is_running_maximum_witness :
  let g := start_game 0 0 0 584 (mk (Squirrel.init 0 0 0 0 0) 0 0 120 false [] 0) in
  let g' := run_distances [50; 130; 90] g in
  best_distance g' = 130 /\ is_new_distance_record g' = true.
Proof.
  intros g g'.
  destruct (best_distance_is_running_maximum [50; 130; 90] g) as (H1 & _ & _ & H4).
  split; [exact H1|].
  apply (proj2 H4). right. right. left. simpl. lia.
Defined.

Lemma update_distance_cursor_bound (d : Z) (g : t) :
  (next_life_milestone_idx g <= length (life_milestones g))%nat ->
  (next_life_milestone_idx (update_distance d g)
   <= length (life_milestones (update_distance d g)))%nat /\
  Squirrel.max_lives (player (update_distance d g)) = Squirrel.max_lives (player g) /\
  (Squirrel.lives (player g) <= Squirrel.max_lives (player g) ->
   Squirrel.lives (player (update_distance d g)) <= Squirrel.max_lives (player g)).
Proof.
  intros Hle. unfold update_distance. cbv zeta.
  match goal with
  | |- context [_check_life_milestones ?h] => set (g2 := h)
  end.
  assert (H2 : life_milestones g2 = life_milestones g /\
               next_life_milestone_idx g2 = next_life_milestone_idx g /\
               player g2 = player g).
  { unfold g2. simpl. destruct (_ <? _); simpl; auto. }
  destruct H2 as (Hm2 & Hi2 & Hp2). rewrite <- Hm2, <- Hi2, <- Hp2 in *.
  clearbody g2. clear Hm2 Hi2 Hp2.
  unfold _check_life_milestones.
  destruct (Nat.leb_spec (length (life_milestones g2)) (next_life_milestone_idx g2));
    [auto|].
  destruct (nth_error (life_milestones g2) (next_life_milestone_idx g2)); [|auto].
  destruct (_ <=? _); [|auto].
  unfold Squirrel.add_life.
  destruct (Z.ltb_spec (Squirrel.lives (player g2)) (Squirrel.max_lives (player g2)));
    simpl; repeat split; auto; lia.
Qed.

(** X14: a run never regenerates more lives than it has milestones left:
    the cursor stays within the list, the lives gained over any ticks are
    at most the entries from the cursor on (6 for a new run), and lives
    stay at or below max lives. *)
Theorem lives_regenerated_at_most_once_per_milestone (ds : list Z) (g : t) :
  (next_life_milestone_idx g <= length (life_milestones g))%nat ->
  Squirrel.lives (player g) <= Squirrel.max_lives (player g) ->
  let g' := run_distances ds g in
  (next_life_milestone_idx g' <= length (life_milestones g))%nat /\
  Squirrel.lives (player g') - Squirrel.lives (player g)
  <= Z.of_nat (length (life_milestones g)) - Z.of_nat (next_life_milestone_idx g) /\
  Squirrel.lives (player g') <= Squirrel.max_lives (player g).
Proof.
  intros Hidx Hlives. cbv zeta.
  destruct (run_distances_cursor ds g) as (Hm & Hc & Hl).
  assert (H : (next_life_milestone_idx (run_distances ds g)
               <= length (life_milestones (run_distances ds g)))%nat /\
              Squirrel.lives (player (run_distances ds g))
              <= Squirrel.max_lives (player g)).
  { clear Hm Hc Hl. revert g Hidx Hlives.
    induction ds as [|d ds IH]; intros g Hidx Hlives; simpl; [auto|].
    destruct (update_distance_cursor_bound d g Hidx) as (H1 & H2 & H3).
    destruct (IH (update_distance d g) H1) as [I1 I2].
    - rewrite H2. apply H3. exact Hlives.
    - rewrite H2 in I2. auto. }
  destruct H as [H1 H2]. rewrite Hm in H1.
  split; [exact H1|]. split; [lia | exact H2].
Qed.

Lemma lives_regenerated_at_most_once_per_milestone_witness :
  let g0 := start_game 0 0 0 584 (mk (Squirrel.init 0 0 0 0 0) 0 0 0 false [] 0) in
  let g' := run_distances [500; 1000; 1001; 40000; 40001; 40002] g0 in
  (next_life_milestone_idx g' <= 6)%nat /\
  Squirrel.lives (player g') <= 3.
Proof.
  intros g0 g'.
  destruct (lives_regenerated_at_most_once_per_milestone
              [500; 1000; 1001; 40000; 40001; 40002] g0
              ltac:(simpl; lia) ltac:(simpl; lia)) as (H1 & _ & H3).
  split; [exact H1 | exact H3].
Defined.

End GameRecords.

(* ===================================================================== *)
(** * Properties of the save file *)
(* ===================================================================== *)

Section SaveProperties.
Import Save.
Local Open Scope string_scope.
Local Open Scope Z_scope.
Context {other : Type} {runtime : Python other}.



Lemma load_save_returns (d : disk other) (m : gmap string (value other)) :
  fst (load_save d) = Returns m -> load_save d = (Returns m, d).
Proof.
  unfold load_save. destruct (content d); simpl; intros H; congruence.
Qed.

Lemma save_data_lookup (v1 v2 v3 v4 : value other) :
  save_data v1 v2 v3 v4 !! "high_score" = Some v1 /\
  save_data v1 v2 v3 v4 !! "best_distance" = Some v2 /\
  save_data v1 v2 v3 v4 !! "total_yarn_collected" = Some v3 /\
  save_data v1 v2 v3 v4 !! "total_runs" = Some v4.
Proof.
  unfold save_data. repeat split; simplify_map_eq; reflexivity.
Qed.

Lemma save_data_union (v1 v2 v3 v4 : value other) :
  save_data v1 v2 v3 v4 ∪ default_save = save_data v1 v2 v3 v4.
Proof.
  apply map_eq. intros k. rewrite lookup_union.
  unfold save_data, default_save.
  destruct (decide (k = "high_score")) as [->|N1];
    [rewrite !lookup_insert_eq; reflexivity|].
  rewrite !(lookup_insert_ne _ "high_score") by congruence.
  destruct (decide (k = "best_distance")) as [->|N2];
    [rewrite !lookup_insert_eq; reflexivity|].
  rewrite !(lookup_insert_ne _ "best_distance") by congruence.
  destruct (decide (k = "total_yarn_collected")) as [->|N3];
    [rewrite !lookup_insert_eq; reflexivity|].
  rewrite !(lookup_insert_ne _ "total_yarn_collected") by congruence.
  destruct (decide (k = "total_runs")) as [->|N4];
    [rewrite !lookup_insert_eq; reflexivity|].
  rewrite !(lookup_insert_ne _ "total_runs") by congruence.
  rewrite lookup_empty. reflexivity.
Qed.

(** What a write of four values that can be printed does. *)
Lemma save_game_cases (v1 v2 v3 v4 : value other) (d : disk other) :
  json_dumps v1 = true -> json_dumps v2 = true ->
  json_dumps v3 = true -> json_dumps v4 = true ->
  exists (ok : bool) (d' : disk other),
    save_game v1 v2 v3 v4 d = (Returns ok, d') /\
    (on_write d = WriteOk ->
       ok = true /\
       load_save d' = (Returns (save_data v1 v2 v3 v4), d')) /\
    (on_write d = OpenFails -> ok = false /\ d' = d) /\
    (forall remains, on_write d = WriteFails remains ->
       ok = false /\ content d' = remains).
Proof.
  intros H1 H2 H3 H4. unfold save_game.
  destruct (on_write d) as [| |remains] eqn:Ew.
  - simpl forallb. rewrite H1, H2, H3, H4. simpl.
    eexists _, _. split; [reflexivity|].
    split; [|split; [discriminate | intros ? ?; discriminate]].
    intros _. split; [reflexivity|].
    unfold load_save. simpl. rewrite save_data_union. reflexivity.
  - eexists _, _. split; [reflexivity|].
    split; [discriminate|]. split; [auto | intros ? ?; discriminate].
  - eexists _, _. split; [reflexivity|].
    split; [discriminate|]. split; [discriminate|].
    intros r [= <-]. split; reflexivity.
Qed.


(** X16: with four integers that can be printed, what [save_game]
    writes, [load_save] reads back: when the write succeeds the call
    returns True and the save read afterwards is exactly the four
    arguments, whatever was there before; when [open] fails it returns
    False and the file is as it was; when the write fails after [open] it
    returns False and the old content is gone. *)
Theorem save_game_load_save_round_trip (a b c e : Z) (d : disk other) :
  int_prints a = true -> int_prints b = true ->
  int_prints c = true -> int_prints e = true ->
  (on_write d = WriteOk ->
     fst (save_game (VInt a) (VInt b) (VInt c) (VInt e) d) = Returns true /\
     fst (load_save (snd (save_game (VInt a) (VInt b) (VInt c) (VInt e) d)))
     = Returns (save_data (VInt a) (VInt b) (VInt c) (VInt e)) /\
     fst (get_high_score (snd (save_game (VInt a) (VInt b) (VInt c) (VInt e) d)))
     = Returns (VInt a) /\
     fst (get_best_distance (snd (save_game (VInt a) (VInt b) (VInt c) (VInt e) d)))
     = Returns (VInt b)) /\
  (on_write d = OpenFails ->
     save_game (VInt a) (VInt b) (VInt c) (VInt e) d = (Returns false, d)) /\
  (forall remains, on_write d = WriteFails remains ->
     fst (save_game (VInt a) (VInt b) (VInt c) (VInt e) d) = Returns false /\
     content (snd (save_game (VInt a) (VInt b) (VInt c) (VInt e) d)) = remains).
Proof.
  intros Ha Hb Hc He.
  destruct (save_game_cases (VInt a) (VInt b) (VInt c) (VInt e) d Ha Hb Hc He)
    as (ok & d' & Es & Hok & Hopen & Hfail).
  rewrite Es. simpl fst. simpl snd.
  split; [|split].
  - intros Hw. destruct (Hok Hw) as [-> Hl].
    split; [reflexivity|]. split; [rewrite Hl; reflexivity|].
    destruct (save_data_lookup (VInt a) (VInt b) (VInt c) (VInt e))
      as (L1 & L2 & _ & _).
    unfold get_high_score, get_best_distance, bind, lift, getitem.
    rewrite Hl, L1, L2. split; reflexivity.
  - intros Hw. destruct (Hopen Hw) as [-> ->]. reflexivity.
  - intros remains Hw. destruct (Hfail remains Hw) as [-> Hc']. auto.
Qed.

(** X17: when the save loads and both stored records are integers (and
    what is written can be printed), [update_high_score] and
    [update_best_distance] return True exactly when the new value beats
    the stored one, whatever the write then does; a value that does not
    beat the record writes nothing; after a write that succeeds the
    stored record is the larger of the two and the other three
    statistics are unchanged; when [open] fails the file is as it was, and
    when the write fails after [open] the old content is gone. *)
Theorem update_records_keep_the_maximum (new hs bd : Z) (yarn runs : value other)
    (d : disk other) (m : gmap string (value other)) :
  fst (load_save d) = Returns m ->
  m !! "high_score" = Some (VInt hs) ->
  m !! "best_distance" = Some (VInt bd) ->
  m !! "total_yarn_collected" = Some yarn ->
  m !! "total_runs" = Some runs ->
  int_prints new = true -> int_prints hs = true -> int_prints bd = true ->
  json_dumps yarn = true -> json_dumps runs = true ->
  (exists d' : disk other,
     update_high_score new d = (Returns (hs <? new), d') /\
     (new <= hs -> d' = d) /\
     (on_write d = WriteOk ->
        fst (load_save d') =
          Returns (if hs <? new
                   then save_data (VInt (Z.max hs new)) (VInt bd) yarn runs
                   else m)) /\
     (on_write d = OpenFails -> d' = d) /\
     (forall remains, on_write d = WriteFails remains -> hs < new ->
        content d' = remains)) /\
  (exists d' : disk other,
     update_best_distance new d = (Returns (bd <? new), d') /\
     (new <= bd -> d' = d) /\
     (on_write d = WriteOk ->
        fst (load_save d') =
          Returns (if bd <? new
                   then save_data (VInt hs) (VInt (Z.max bd new)) yarn runs
                   else m)) /\
     (on_write d = OpenFails -> d' = d) /\
     (forall remains, on_write d = WriteFails remains -> bd < new ->
        content d' = remains)).
Proof.
  intros Hl Hhs Hbd Hy Hr Pn Ph Pb Py Pr.
  pose proof (load_save_returns d m Hl) as El.
  split.
  - unfold update_high_score, bind, lift, ret. rewrite El.
    unfold getitem at 1. rewrite Hhs. cbn [gt].
    destruct (Z.ltb_spec hs new) as [Hlt|Hge].
    + unfold getitem, get_or_0. rewrite lookup_insert_eq.
      rewrite !lookup_insert_ne by discriminate. rewrite Hbd, Hy, Hr.
      destruct (save_game_cases (VInt new) (VInt bd) yarn runs d Pn Pb Py Pr)
        as (ok & d' & Es & Hok & Hopen & Hfail).
      rewrite Es. exists d'. split; [reflexivity|].
      split; [intros; lia|]. split; [|split].
      * intros Hw. destruct (Hok Hw) as [_ Hl']. rewrite Hl'. simpl.
        rewrite Z.max_r by lia. reflexivity.
      * intros Hw. exact (proj2 (Hopen Hw)).
      * intros remains Hw _. exact (proj2 (Hfail remains Hw)).
    + exists d. split; [reflexivity|]. split; [reflexivity|].
      split; [intros _; exact Hl|]. split; [reflexivity|].
      intros remains _ Hlt. lia.
  - unfold update_best_distance, bind, lift, ret. rewrite El.
    unfold getitem at 1. rewrite Hbd. cbn [gt].
    destruct (Z.ltb_spec bd new) as [Hlt|Hge].
    + unfold getitem, get_or_0. rewrite lookup_insert_eq.
      rewrite !lookup_insert_ne by discriminate. rewrite Hhs, Hy, Hr.
      destruct (save_game_cases (VInt hs) (VInt new) yarn runs d Ph Pn Py Pr)
        as (ok & d' & Es & Hok & Hopen & Hfail).
      rewrite Es. exists d'. split; [reflexivity|].
      split; [intros; lia|]. split; [|split].
      * intros Hw. destruct (Hok Hw) as [_ Hl']. rewrite Hl'. simpl.
        rewrite Z.max_r by lia. reflexivity.
      * intros Hw. exact (proj2 (Hopen Hw)).
      * intros remains Hw _. exact (proj2 (Hfail remains Hw)).
    + exists d. split; [reflexivity|]. split; [reflexivity|].
      split; [intros _; exact Hl|]. split; [reflexivity|].
      intros remains _ Hlt. lia.
Qed.

(** X18: when the save loads and the two counters are integers (and
    what is written can be printed), [increment_runs] and
    [add_yarn_to_total] return; after a write that succeeds the save
    holds the run counter plus 1, respectively the lifetime yarn plus the
    amount, and the other three statistics as they were; when [open]
    fails the file is as it was, and when the write fails after [open]
    the old content is gone. *)
Theorem counters_add_up (amount yarn runs : Z) (hs bd : value other)
    (d : disk other) (m : gmap string (value other)) :
  fst (load_save d) = Returns m ->
  m !! "high_score" = Some hs ->
  m !! "best_distance" = Some bd ->
  m !! "total_yarn_collected" = Some (VInt yarn) ->
  m !! "total_runs" = Some (VInt runs) ->
  json_dumps hs = true -> json_dumps bd = true ->
  int_prints yarn = true -> int_prints runs = true ->
  int_prints (runs + 1) = true -> int_prints (yarn + amount) = true ->
  (exists d' : disk other,
     increment_runs d = (Returns tt, d') /\
     (on_write d = WriteOk ->
        fst (load_save d') =
          Returns (save_data hs bd (VInt yarn) (VInt (runs + 1)))) /\
     (on_write d = OpenFails -> d' = d) /\
     (forall remains, on_write d = WriteFails remains -> content d' = remains)) /\
  (exists d' : disk other,
     add_yarn_to_total amount d = (Returns tt, d') /\
     (on_write d = WriteOk ->
        fst (load_save d') =
          Returns (save_data hs bd (VInt (yarn + amount)) (VInt runs))) /\
     (on_write d = OpenFails -> d' = d) /\
     (forall remains, on_write d = WriteFails remains -> content d' = remains)).
Proof.
  intros Hl Hhs Hbd Hy Hr Ph Pb Py Pr Pr1 Pya.
  pose proof (load_save_returns d m Hl) as El.
  split.
  - unfold increment_runs, bind, lift, ret. rewrite El.
    unfold get_or_0 at 1. rewrite Hr. cbn [add].
    unfold getitem, get_or_0. rewrite lookup_insert_eq.
    rewrite !lookup_insert_ne by discriminate. rewrite Hhs, Hbd, Hy.
    destruct (save_game_cases hs bd (VInt yarn) (VInt (runs + 1)) d Ph Pb Py Pr1)
      as (ok & d' & Es & Hok & Hopen & Hfail).
    rewrite Es. exists d'. split; [reflexivity|]. split; [|split].
    + intros Hw. destruct (Hok Hw) as [_ Hl']. rewrite Hl'. reflexivity.
    + intros Hw. exact (proj2 (Hopen Hw)).
    + intros remains Hw. exact (proj2 (Hfail remains Hw)).
  - unfold add_yarn_to_total, bind, lift, ret. rewrite El.
    unfold get_or_0 at 1. rewrite Hy. cbn [add].
    unfold getitem, get_or_0. rewrite lookup_insert_eq.
    rewrite !lookup_insert_ne by discriminate. rewrite Hhs, Hbd, Hr.
    destruct (save_game_cases hs bd (VInt (yarn + amount)) (VInt runs) d Ph Pb Pya Pr)
      as (ok & d' & Es & Hok & Hopen & Hfail).
    rewrite Es. exists d'. split; [reflexivity|]. split; [|split].
    + intros Hw. destruct (Hok Hw) as [_ Hl']. rewrite Hl'. reflexivity.
    + intros Hw. exact (proj2 (Hopen Hw)).
    + intros remains Hw. exact (proj2 (Hfail remains Hw)).
Qed.

End SaveProperties.

Section SaveExamples.
Import Save.
Local Open Scope string_scope.
Local Open Scope Z_scope.

(** Integers below 10^9 are printed under the default limit. *)
Lemma small_int_prints (z : Z) :
  Z.abs z < 10 ^ 9 -> json_dumps (runtime := integers_only) (VInt z) = true.
Proof.
  intros H. unfold json_dumps, int_prints, int_max_str_digits, integers_only.
  apply orb_true_iff. right. apply Z.ltb_lt.
  eapply Z.lt_le_trans; [exact H|].
  apply Z.pow_le_mono_r; lia.
Qed.


(** Saving over a file that is not JSON. *)
Lemma save_game_load_save_round_trip_witness :
  let d : disk Empty_set := mk_disk Unreadable WriteOk in
  fst (load_save
         (snd (save_game (runtime := integers_only)
                 (VInt 12) (VInt 340) (VInt 0) (VInt 0) d)))
  = Returns (save_data (VInt 12) (VInt 340) (VInt 0) (VInt 0)).
Proof.
  intros d.
  exact (proj1 (proj2 (proj1
    (save_game_load_save_round_trip (runtime := integers_only) 12 340 0 0 d
       ltac:(apply small_int_prints; reflexivity) ltac:(apply small_int_prints; reflexivity)
       ltac:(apply small_int_prints; reflexivity) ltac:(apply small_int_prints; reflexivity))
    eq_refl))).
Defined.

(** A score of 5 does not beat a stored 7; a score of 9 does. *)
Lemma update_records_keep_the_maximum_witness :
  let d : disk Empty_set :=
    mk_disk (Object (<["high_score" := VInt 7]> ∅)) WriteOk in
  fst (update_high_score (runtime := integers_only) 5 d) = Returns false /\
  fst (update_high_score (runtime := integers_only) 9 d) = Returns true.
Proof.
  intros d.
  assert (H : forall new, json_dumps (runtime := integers_only) (VInt new) = true ->
            fst (update_high_score (runtime := integers_only) new d)
            = Returns (7 <? new)).
  { intros new Hn.
    destruct (proj1 (update_records_keep_the_maximum (runtime := integers_only)
                new 7 0 (VInt 0) (VInt 0) d
                (<["high_score" := VInt 7]> ∅ ∪ default_save)
                eq_refl eq_refl eq_refl eq_refl eq_refl Hn
                ltac:(apply small_int_prints; reflexivity) ltac:(apply small_int_prints; reflexivity)
                ltac:(apply small_int_prints; reflexivity) ltac:(apply small_int_prints; reflexivity)))
      as (d' & E & _).
    rewrite E. reflexivity. }
  split; [apply (H 5) | apply (H 9)]; apply small_int_prints; reflexivity.
Defined.

(** The first run ever played. *)
Lemma counters_add_up_witness :
  let d : disk Empty_set := mk_disk Missing WriteOk in
  exists d' : disk Empty_set,
    increment_runs (runtime := integers_only) d = (Returns tt, d') /\
    fst (load_save d')
    = Returns (save_data (VInt 0) (VInt 0) (VInt 0) (VInt 1)).
Proof.
  intros d.
  destruct (proj1 (counters_add_up (runtime := integers_only)
              0 0 0 (VInt 0) (VInt 0) d default_save
              eq_refl eq_refl eq_refl eq_refl eq_refl
              ltac:(apply small_int_prints; reflexivity) ltac:(apply small_int_prints; reflexivity)
              ltac:(apply small_int_prints; reflexivity) ltac:(apply small_int_prints; reflexivity)
              ltac:(apply small_int_prints; reflexivity) ltac:(apply small_int_prints; reflexivity)))
    as (d' & E & Hw & _).
  exists d'. split; [exact E|]. exact (Hw eq_refl).
Defined.

End SaveExamples.

(* ===================================================================== *)
(** * More about the level generator *)
(* ===================================================================== *)

Section ChunkProperties.
Import Obstacles Yarn Generator.
Local Open Scope Z_scope.

Lemma returns_conj {A : Type} (c : Random.M A) (P Q : A -> Prop) :
  returns c P -> returns c Q -> returns c (fun a => P a /\ Q a).
Proof.
  intros HP HQ s.
  destruct (HP s) as (a & s1 & E1 & Ha).
  destruct (HQ s) as (b & s2 & E2 & Hb).
  rewrite E1 in E2. injection E2 as <- <-.
  exists a, s1. auto.
Qed.

(** [random.random()] is in [[0, 1)]. *)
Lemma returns_random_range :
  returns Random.random (fun r => (0 <= r)%Q /\ (r < 1)%Q).
Proof.
  unfold Random.random. eapply returns_bind; [apply returns_draw|].
  intros k _. apply returns_ret.
  pose proof (N.mod_upper_bound k (2 ^ 53) ltac:(discriminate)) as Hk.
  assert (Hz : Z.of_N (k mod 2 ^ 53) < 9007199254740992).
  { change 9007199254740992 with (Z.of_N (2 ^ 53)). apply N2Z.inj_lt. exact Hk. }
  pose proof (N2Z.is_nonneg (k mod 2 ^ 53)) as H0.
  set (n := Z.of_N (k mod 2 ^ 53)) in *. clearbody n.
  split.
  - unfold Qle. cbn [Qnum Qden]. lia.
  - unfold Qlt. cbn [Qnum Qden].
    change (Z.pos (2 ^ 53)) with 9007199254740992. lia.
Qed.

Lemma Qltb_false (r c : Q) : (c <= r)%Q -> Qltb r c = false.
Proof.
  intros H. unfold Qltb. destruct (r ?= c)%Q eqn:E; try reflexivity.
  apply Qlt_alt in E. apply Qlt_not_le in E. contradiction.
Qed.

Lemma same_settings_refl (g : LevelGenerator) : same_settings g g.
Proof. repeat split. Qed.

Lemma same_settings_trans (g1 g2 g3 : LevelGenerator) :
  same_settings g1 g2 -> same_settings g2 g3 -> same_settings g1 g3.
Proof.
  intros (A1 & A2 & A3 & A4) (B1 & B2 & B3 & B4).
  repeat split; congruence.
Qed.

Lemma quiet_until_refl (distance : Z) (g : LevelGenerator) : quiet_until distance g g.
Proof. split; [apply same_settings_refl|]. auto. Qed.

Lemma quiet_until_trans (distance : Z) (g1 g2 g3 : LevelGenerator) :
  quiet_until distance g1 g2 -> quiet_until distance g2 g3 ->
  quiet_until distance g1 g3.
Proof.
  intros (A0 & A1 & A2 & A3) (B0 & B1 & B2 & B3).
  split; [eapply same_settings_trans; eassumption|].
  repeat split; intros H;
    [rewrite (B1 H) | rewrite (B2 H) | rewrite (B3 H)]; auto.
Qed.

Lemma same_settings_add_yarn (yarn : option YarnSkein) (g : LevelGenerator) :
  same_settings g (add_yarn yarn g).
Proof. destruct yarn; repeat split. Qed.

Lemma returns_create_gap_settings (tile_positions : list Z) (i : nat)
    (gap_positions : gset Z) (g : LevelGenerator) :
  (i < length tile_positions)%nat ->
  returns (create_gap tile_positions i gap_positions g)
          (fun r => (1 <= snd (fst r))%nat /\ same_settings g (snd r)).
Proof.
  intros Hi. unfold create_gap.
  eapply returns_bind; [apply (returns_randint 2 3); lia|].
  intros num_tiles Hnum. cbv beta in Hnum.
  destruct (nth_error tile_positions i) as [gap_start_x|] eqn:En;
    [|apply nth_error_None in En; lia].
  eapply returns_bind; [apply (returns_index _ _ _ En)|].
  intros ? ->.
  destruct (Z.to_nat num_tiles) as [|k] eqn:Ek; [lia|].
  cbn [seq mark_gap_tiles]. rewrite Nat.add_0_r.
  replace (i <? length tile_positions)%nat with true
    by (symmetry; apply Nat.ltb_lt; exact Hi).
  eapply returns_bind with (P := fun r => (1 <= snd r)%nat).
  { eapply returns_bind; [apply (returns_index _ _ _ En)|].
    intros ? ->. apply returns_mark_gap_tiles. }
  intros [gap_positions' tiles_added] Hadded. simpl in Hadded.
  eapply returns_bind; [apply returns_spawn_yarn|].
  intros yarn _. apply returns_ret. simpl. split; [exact Hadded|].
  destruct yarn; repeat split.
Qed.

(** Below distance 100 the gap chance is 0 and the gap loop changes
    nothing; above, it leaves the settings alone. *)
Lemma returns_gap_loop_quiet (fuel : nat) (tile_positions : list Z) (distance : Z)
    (chance : Q) (i : nat) (gap_positions : gset Z) (g : LevelGenerator) :
  (length tile_positions - i <= fuel)%nat ->
  (distance <= 100 -> (chance <= 0)%Q) ->
  returns (gap_loop fuel tile_positions chance i gap_positions g)
          (fun r => same_settings g (snd r) /\
                    (distance <= 100 -> r = (gap_positions, g))).
Proof.
  intros Hf Hch. revert i gap_positions g Hf.
  induction fuel as [|fuel IH]; intros i gap_positions g Hf; simpl.
  - replace (i <? length tile_positions)%nat with false
      by (symmetry; apply Nat.ltb_ge; lia).
    apply returns_ret. split; [apply same_settings_refl | auto].
  - destruct (i <? length tile_positions)%nat eqn:Ei;
      [|apply returns_ret; split; [apply same_settings_refl | auto]].
    apply Nat.ltb_lt in Ei.
    eapply returns_bind; [apply returns_random_range|]. intros r [Hr0 _].
    destruct (Qltb r chance) eqn:Eq.
    + assert (Hd : ~ distance <= 100).
      { intros Hd. rewrite Qltb_false in Eq; [discriminate|].
        eapply Qle_trans; [apply Hch; exact Hd | exact Hr0]. }
      destruct (i + 1 <? length tile_positions)%nat; simpl.
      * eapply returns_bind; [apply returns_create_gap_settings; exact Ei|].
        intros [[gap_positions' tiles_added] g'] [Hadded Hset]. simpl in *.
        eapply returns_weaken; [apply IH; lia|].
        intros r' [Hr' _]. split; [|intros; contradiction].
        eapply same_settings_trans; eassumption.
      * eapply returns_weaken; [apply IH; lia|].
        intros r' [Hr' _]. split; [exact Hr' | intros; contradiction].
    + simpl. eapply returns_weaken; [apply IH; lia|].
      intros r' [Hr' Hq]. split; [exact Hr'|]. exact Hq.
Qed.

Lemma returns_roll_bush_quiet (distance tile_x : Z) (g : LevelGenerator) :
  returns (roll_bush distance tile_x g) (quiet_until distance g).
Proof.
  unfold roll_bush.
  eapply returns_bind; [apply returns_random_range|]. intros r [Hr0 _].
  destruct (Z.ltb_spec 50 distance) as [Hd|Hd].
  - destruct (Qltb r _).
    + eapply returns_bind; [apply (returns_randint 10 30); lia|].
      intros d _. apply returns_ret.
      split; [repeat split|]. repeat split; intros; try reflexivity; lia.
    + apply returns_ret. apply quiet_until_refl.
  - rewrite Qltb_false by exact Hr0.
    apply returns_ret. apply quiet_until_refl.
Qed.

Lemma returns_roll_platform_or_yarn_quiet (distance tile_x : Z) (g : LevelGenerator) :
  returns (roll_platform_or_yarn distance tile_x g) (quiet_until distance g).
Proof.
  unfold roll_platform_or_yarn.
  eapply returns_bind; [apply returns_random_range|]. intros r [Hr0 _].
  assert (Hyarn : forall (g0 : LevelGenerator) (yarn : option YarnSkein),
            quiet_until distance g0 (add_yarn yarn g0)).
  { intros g0 yarn. split; [apply same_settings_add_yarn|].
    destruct yarn; repeat split. }
  destruct (Z.ltb_spec 80 distance) as [Hd|Hd].
  - destruct (Qltb r _ && _)%bool.
    + eapply returns_bind with (P := fun _ => True).
      { destruct (200 <? distance); eapply returns_weaken;
          try (apply returns_choice; discriminate); auto. }
      intros platform_y _.
      eapply returns_bind; [apply returns_choice; discriminate|].
      intros platform_width _.
      assert (Hq : quiet_until distance g
                (set_last_platform tile_x platform_y
                   (add_platform (Platform_init tile_x platform_y platform_width) g))).
      { split; [repeat split|]. repeat split; intros; try reflexivity; lia. }
      eapply returns_bind; [apply returns_random|]. intros r2 _.
      destruct (Qltb r2 (7 # 10)).
      * eapply returns_bind; [apply returns_spawn_yarn|].
        intros yarn _. apply returns_ret.
        eapply quiet_until_trans; [exact Hq | apply Hyarn].
      * apply returns_ret. exact Hq.
    + eapply returns_bind; [apply returns_random|]. intros r2 _.
      destruct (Qltb r2 _).
      * eapply returns_bind; [apply (returns_randint 10 50); lia|].
        intros d _.
        eapply returns_bind; [apply returns_choice; discriminate|].
        intros h _.
        eapply returns_bind; [apply returns_spawn_yarn|].
        intros yarn _. apply returns_ret. apply Hyarn.
      * apply returns_ret. apply quiet_until_refl.
  - rewrite Qltb_false by exact Hr0. cbn [andb].
    eapply returns_bind; [apply returns_random|]. intros r2 _.
    destruct (Qltb r2 _).
    + eapply returns_bind; [apply (returns_randint 10 50); lia|].
      intros d _.
      eapply returns_bind; [apply returns_choice; discriminate|].
      intros h _.
      eapply returns_bind; [apply returns_spawn_yarn|].
      intros yarn _. apply returns_ret. apply Hyarn.
    + apply returns_ret. apply quiet_until_refl.
Qed.

Lemma returns_place_column_quiet (tileset_loaded : bool) (tile_positions : list Z)
    (gap_positions : gset Z) (distance : Z) (col : nat * Z) (g : LevelGenerator) :
  (fst col < length tile_positions)%nat ->
  returns (place_column tileset_loaded tile_positions gap_positions distance col g)
          (quiet_until distance g).
Proof.
  destruct col as [idx tile_x]. simpl. intros Hidx.
  destruct (bool_decide (tile_x ∈ gap_positions));
    [apply returns_ret; apply quiet_until_refl|].
  unfold place_ground_column.
  eapply returns_bind with (P := fun _ => True).
  { destruct (0 <? idx)%nat; [|apply returns_ret; exact I].
    destruct (nth_error tile_positions (idx - 1)) as [v|] eqn:En;
      [|apply nth_error_None in En; lia].
    eapply returns_bind; [apply (returns_index _ _ _ En)|].
    intros ? _. apply returns_ret. exact I. }
  intros prev_x _.
  eapply returns_bind with (P := fun _ => True).
  { destruct (idx <? length tile_positions - 1)%nat eqn:E;
      [|apply returns_ret; exact I].
    apply Nat.ltb_lt in E.
    destruct (nth_error tile_positions (idx + 1)) as [v|] eqn:En;
      [|apply nth_error_None in En; lia].
    eapply returns_bind; [apply (returns_index _ _ _ En)|].
    intros ? _. apply returns_ret. exact I. }
  intros next_x _.
  eapply returns_bind; [apply returns_Ground_init|].
  intros t _.
  eapply returns_bind; [apply returns_roll_bush_quiet|].
  intros g2 Hg2.
  eapply returns_weaken; [apply returns_roll_platform_or_yarn_quiet|].
  intros g3 Hg3.
  eapply quiet_until_trans; [|exact Hg3].
  eapply quiet_until_trans; [|exact Hg2].
  split; [repeat split|]. repeat split.
Qed.

Lemma tile_positions_loop_step (fuel : nat) (x stop : Z) (acc : list Z) :
  tile_positions_loop (S fuel) x stop acc =
  if x <? stop
  then tile_positions_loop fuel (x + GROUND_TILE_SIZE) stop (acc ++ [x])
  else Random.ret acc.
Proof. reflexivity. Qed.

Lemma tile_positions_loop_stop (fuel : nat) (x stop : Z) (acc : list Z) :
  stop <= x -> tile_positions_loop fuel x stop acc = Random.ret acc.
Proof.
  intros H. destruct fuel; cbn [tile_positions_loop];
    replace (x <? stop) with false by (symmetry; apply Z.ltb_ge; exact H);
    reflexivity.
Qed.

Lemma tile_positions_loop_go (fuel : nat) (x stop : Z) (acc : list Z) :
  x < stop ->
  tile_positions_loop (S fuel) x stop acc =
  tile_positions_loop fuel (x + 64) stop (acc ++ [x]).
Proof.
  intros H. rewrite tile_positions_loop_step.
  replace (x <? stop) with true by (symmetry; apply Z.ltb_lt; exact H).
  reflexivity.
Qed.

(** The tile columns of a chunk are the seven columns 64 apart. *)
Lemma tile_positions_of_chunk (chunk_x : Z) (s : Random.source) :
  tile_positions_loop (Z.to_nat CHUNK_WIDTH) chunk_x (chunk_x + CHUNK_WIDTH) [] s
  = Some (chunk_columns chunk_x, s).
Proof.
  assert (H : forall f : nat,
            tile_positions_loop (S (S (S (S (S (S (S f)))))))
              chunk_x (chunk_x + 400) []
            = Random.ret (chunk_columns chunk_x)).
  { intros f.
    do 7 (rewrite tile_positions_loop_go by lia).
    rewrite tile_positions_loop_stop by lia.
    unfold chunk_columns. cbn [app].
    repeat (f_equal; try lia). }
  unfold CHUNK_WIDTH.
  replace (Z.to_nat 400) with (S (S (S (S (S (S (S 393%nat))))))) by reflexivity.
  rewrite H. reflexivity.
Qed.

Lemma returns_generate_chunk_quiet (tileset_loaded : bool) (chunk_x distance : Z)
    (g : LevelGenerator) :
  returns (_generate_chunk tileset_loaded chunk_x distance g) (quiet_until distance g).
Proof.
  unfold _generate_chunk.
  eapply returns_bind.
  { apply returns_tile_positions_loop. unfold CHUNK_WIDTH. lia. }
  intros tile_positions _.
  eapply returns_bind.
  { apply (returns_gap_loop_quiet _ _ distance); [lia|].
    intros Hd. replace (100 <? distance) with false
      by (symmetry; apply Z.ltb_ge; exact Hd).
    apply Qle_refl. }
  intros [gap_positions g1] [Hset Hq]. simpl in Hset.
  eapply returns_weaken.
  - apply (returns_for_each (quiet_until distance)).
    + apply quiet_until_refl.
    + apply quiet_until_trans.
    + intros col g' Hin. apply returns_place_column_quiet.
      destruct col as [idx tile_x]. simpl. eapply enumerate_In. exact Hin.
  - intros g2 Hg2. eapply quiet_until_trans; [|exact Hg2].
    split; [exact Hset|].
    repeat split; intros Hd;
      (assert (E : (gap_positions, g1) = (∅, g)) by (apply Hq; lia));
      injection E as _ ->; reflexivity.
Qed.

(** ** The columns of a chunk: ground or gap *)

Lemma chunk_columns_nth (chunk_x : Z) (k : nat) :
  (k < 7)%nat ->
  nth_error (chunk_columns chunk_x) k = Some (chunk_x + 64 * Z.of_nat k).
Proof.
  intros Hk.
  do 7 (destruct k as [|k]; [simpl; f_equal; lia|]). lia.
Qed.

Lemma chunk_columns_In (chunk_x z : Z) :
  In z (chunk_columns chunk_x) <-> exists k : Z, 0 <= k < 7 /\ z = chunk_x + 64 * k.
Proof.
  unfold chunk_columns. simpl. split.
  - intros H.
    repeat (destruct H as [<- | H];
            [first [ exists 0; lia | exists 1; lia | exists 2; lia | exists 3; lia
                   | exists 4; lia | exists 5; lia | exists 6; lia ]|]).
    contradiction.
  - intros (k & Hk & ->).
    assert (k = 0 \/ k = 1 \/ k = 2 \/ k = 3 \/ k = 4 \/ k = 5 \/ k = 6) by lia.
    intuition (subst; simpl; auto 10 with zarith).
Qed.

Lemma returns_mark_gap_tiles_exact (chunk_x : Z) (m b i : nat)
    (gap_positions : gset Z) (n : nat) :
  returns (mark_gap_tiles (seq b m) (chunk_columns chunk_x) i gap_positions n)
    (fun r =>
       snd r = (n + Nat.min m (7 - (i + b)))%nat /\
       forall z : Z,
         z ∈ fst r <->
         z ∈ gap_positions \/
         exists j : nat,
           (b <= j < b + Nat.min m (7 - (i + b)))%nat /\
           z = chunk_x + 64 * Z.of_nat (i + j)).
Proof.
  revert b gap_positions n.
  induction m as [|m IH]; intros b gap_positions n; cbn [seq mark_gap_tiles].
  - apply returns_ret. simpl. split; [lia|].
    intros z. split; [auto|]. intros [H | (j & Hj & _)]; [exact H | lia].
  - change (length (chunk_columns chunk_x)) with 7%nat.
    destruct (Nat.ltb_spec (i + b) 7) as [Hlt|Hge].
    + eapply returns_bind; [apply (returns_index _ _ _ (chunk_columns_nth _ _ Hlt))|].
      intros ? ->.
      eapply returns_weaken; [apply IH|].
      intros [gp' n'] [Hn Hz]. cbn [fst snd] in *.
      replace (Nat.min (S m) (7 - (i + b))) with (S (Nat.min m (7 - (i + S b))))
        by lia.
      split; [lia|].
      intros z. rewrite Hz, elem_of_union, elem_of_singleton. split.
      * intros [[-> | H] | (j & Hj & ->)].
        -- right. exists b. split; [lia | reflexivity].
        -- left. exact H.
        -- right. exists j. split; [lia | reflexivity].
      * intros [H | (j & Hj & ->)]; [left; right; exact H|].
        destruct (Nat.eq_dec j b) as [-> | Hne].
        -- left. left. reflexivity.
        -- right. exists j. split; [lia | reflexivity].
    + eapply returns_weaken; [apply IH|].
      intros [gp' n'] [Hn Hz]. cbn [fst snd] in *.
      replace (Nat.min (S m) (7 - (i + b))) with 0%nat by lia.
      replace (Nat.min m (7 - (i + S b))) with 0%nat in Hn, Hz by lia.
      split; [lia|].
      intros z. rewrite Hz. split.
      * intros [H | (j & Hj & _)]; [left; exact H | lia].
      * intros [H | (j & Hj & _)]; [left; exact H | lia].
Qed.

Lemma gaps_marked_refl (chunk_x : Z) (gp : gset Z) (g : LevelGenerator) :
  gaps_marked chunk_x gp g gp g.
Proof.
  split; [reflexivity|]. exists []. rewrite app_nil_r.
  split; [reflexivity|]. split; [constructor|].
  intros z. split; [auto|]. intros [H | H]; [exact H | inversion H].
Qed.

Lemma gaps_marked_trans (chunk_x : Z) (gp1 gp2 gp3 : gset Z)
    (g1 g2 g3 : LevelGenerator) :
  gaps_marked chunk_x gp1 g1 gp2 g2 -> gaps_marked chunk_x gp2 g2 gp3 g3 ->
  gaps_marked chunk_x gp1 g1 gp3 g3.
Proof.
  intros (T1 & n1 & G1 & F1 & Z1) (T2 & n2 & G2 & F2 & Z2).
  split; [congruence|]. exists (n1 ++ n2).
  split; [rewrite G2, G1, app_assoc; reflexivity|].
  split; [apply List.Forall_app; auto|].
  intros z. rewrite Z2, Z1, List.Exists_app. tauto.
Qed.

Lemma returns_create_gap_exact (chunk_x : Z) (i : nat) (gap_positions : gset Z)
    (g : LevelGenerator) :
  (i < 7)%nat ->
  returns (create_gap (chunk_columns chunk_x) i gap_positions g)
    (fun r => (1 <= snd (fst r))%nat /\
              gaps_marked chunk_x gap_positions g (fst (fst r)) (snd r)).
Proof.
  intros Hi. unfold create_gap.
  eapply returns_bind; [apply (returns_randint 2 3); lia|].
  intros num_tiles Hnum. cbv beta in Hnum.
  eapply returns_bind; [apply (returns_index _ _ _ (chunk_columns_nth _ _ Hi))|].
  intros ? ->.
  eapply returns_bind; [apply (returns_mark_gap_tiles_exact chunk_x)|].
  intros [gap_positions' tiles_added] [Hn Hz]. cbn [fst snd] in Hn, Hz.
  rewrite Nat.add_0_r in Hn, Hz. simpl in Hn.
  eapply returns_bind; [apply returns_spawn_yarn|].
  intros yarn _. apply returns_ret. cbn [fst snd].
  assert (Hadded : (1 <= tiles_added <= 3)%nat /\ (i + tiles_added <= 7)%nat) by lia.
  split; [lia|].
  split; [destruct yarn; reflexivity|].
  exists [Gap_init (chunk_x + 64 * Z.of_nat i)
                   (Z.of_nat tiles_added * GROUND_TILE_SIZE) GROUND_Y].
  split; [destruct yarn; reflexivity|].
  split.
  - constructor; [|constructor].
    exists (Z.of_nat i), (Z.of_nat tiles_added).
    unfold GROUND_TILE_SIZE. simpl. lia.
  - intros z. rewrite Hz. rewrite <- Hn.
    rewrite List.Exists_cons, List.Exists_nil.
    unfold gap_takes_column, GROUND_TILE_SIZE. simpl.
    split.
    + intros [H | (j & Hj & ->)]; [left; exact H|].
      right. left. exists (Z.of_nat j). lia.
    + intros [H | [(j & Hj0 & Hj & ->) | []]]; [left; exact H|].
      right. exists (Z.to_nat j). lia.
Qed.

Lemma returns_gap_loop_exact (chunk_x : Z) (fuel : nat) (gap_chance : Q) (i : nat)
    (gap_positions : gset Z) (g : LevelGenerator) :
  (7 - i <= fuel)%nat ->
  returns (gap_loop fuel (chunk_columns chunk_x) gap_chance i gap_positions g)
          (fun r => gaps_marked chunk_x gap_positions g (fst r) (snd r)).
Proof.
  revert i gap_positions g.
  induction fuel as [|fuel IH]; intros i gap_positions g Hf;
    cbn [gap_loop]; change (length (chunk_columns chunk_x)) with 7%nat.
  - replace (i <? 7)%nat with false by (symmetry; apply Nat.ltb_ge; lia).
    apply returns_ret. apply gaps_marked_refl.
  - destruct (Nat.ltb_spec i 7) as [Hi|Hi];
      [|apply returns_ret; apply gaps_marked_refl].
    eapply returns_bind; [apply returns_random|]. intros r _.
    destruct (Qltb r gap_chance && (i + 1 <? 7)%nat)%bool.
    + eapply returns_bind; [apply returns_create_gap_exact; exact Hi|].
      intros [[gap_positions' tiles_added] g'] [Hadded Hm]. cbn [fst snd] in *.
      eapply returns_weaken; [apply IH; lia|].
      intros r' Hr'. eapply gaps_marked_trans; eassumption.
    + apply IH. lia.
Qed.

(** The column loop places a ground tile on exactly the columns that are
    not marked, and leaves the gaps alone. *)
Lemma returns_columns_exact (tileset_loaded : bool) (tile_positions : list Z)
    (gap_positions : gset Z) (distance : Z) (cols : list (nat * Z))
    (g : LevelGenerator) :
  (forall col, In col cols -> (fst col < length tile_positions)%nat) ->
  returns (for_each cols
             (place_column tileset_loaded tile_positions gap_positions distance) g)
    (fun g' =>
       gaps g' = gaps g /\
       exists ts : list Ground,
         ground_tiles g' = ground_tiles g ++ ts /\
         (forall t, In t ts ->
            In (g_world_x t) (map snd cols) /\ g_world_x t ∉ gap_positions) /\
         (forall z, In z (map snd cols) -> z ∉ gap_positions ->
            exists t, In t ts /\ g_world_x t = z)).
Proof.
  revert g. induction cols as [|[idx tile_x] cols IH]; intros g Hcols;
    cbn [for_each].
  - apply returns_ret. split; [reflexivity|]. exists [].
    rewrite app_nil_r. split; [reflexivity|].
    split; [intros t [] | intros z []].
  - assert (Hidx : (idx < length tile_positions)%nat)
      by (apply (Hcols (idx, tile_x)); left; reflexivity).
    assert (Hrest : forall col, In col cols -> (fst col < length tile_positions)%nat)
      by (intros col Hin; apply Hcols; right; exact Hin).
    unfold place_column at 1.
    destruct (bool_decide (tile_x ∈ gap_positions)) eqn:Eg.
    + apply bool_decide_eq_true_1 in Eg.
      eapply returns_bind with (P := fun g1 => g1 = g);
        [apply returns_ret; reflexivity|].
      intros ? ->.
      eapply returns_weaken; [apply (IH g Hrest)|].
      intros g' (Hg & ts & Ht & H1 & H2).
      split; [exact Hg|]. exists ts. split; [exact Ht|]. split.
      * intros t Hin. destruct (H1 t Hin). split; [right|]; assumption.
      * intros z [<- | Hz] Hn; [contradiction | auto].
    + apply bool_decide_eq_false_1 in Eg.
      eapply returns_bind;
        [apply (returns_place_ground_column _ _ _ _ _ tile_x g Hidx)|].
      intros g1 (Hg1 & (t & Ht1 & Hx) & _).
      eapply returns_weaken; [apply (IH g1 Hrest)|].
      intros g' (Hg & ts & Ht & H1 & H2).
      split; [congruence|]. exists (t :: ts).
      split; [rewrite Ht, Ht1, <- app_assoc; reflexivity|]. split.
      * intros t' [<- | Hin].
        -- rewrite Hx. split; [left; reflexivity | exact Eg].
        -- destruct (H1 t' Hin). split; [right|]; assumption.
      * intros z [<- | Hz] Hn.
        -- exists t. split; [left; reflexivity | exact Hx].
        -- destruct (H2 z Hz Hn) as (t' & Hin & Ht').
           exists t'. split; [right; exact Hin | exact Ht'].
Qed.

Lemma enumerate_snd {A : Type} (l : list A) : map snd (enumerate l) = l.
Proof.
  unfold enumerate.
  assert (H : forall (b : nat), map snd (combine (seq b (length l)) l) = l).
  { induction l as [|a l IH]; intros b; simpl; [reflexivity|].
    f_equal. apply IH. }
  apply H.
Qed.

(** [_generate_chunk], column by column: the gaps it appends are made of
    whole columns, the ground tiles it appends stand on exactly the
    columns that no gap takes, and up to distance 100 there is no gap. *)
Lemma returns_generate_chunk_exact (tileset_loaded : bool) (chunk_x distance : Z)
    (g : LevelGenerator) :
  returns (_generate_chunk tileset_loaded chunk_x distance g)
    (fun g' =>
       exists (new_gaps : list Gap) (ts : list Ground),
         gaps g' = gaps g ++ new_gaps /\
         ground_tiles g' = ground_tiles g ++ ts /\
         Forall (gap_in_chunk chunk_x) new_gaps /\
         (distance <= 100 -> new_gaps = []) /\
         (forall t, In t ts ->
            In (g_world_x t) (chunk_columns chunk_x) /\
            ~ Exists (fun gap => gap_takes_column gap (g_world_x t)) new_gaps) /\
         (forall z, In z (chunk_columns chunk_x) ->
            (exists t, In t ts /\ g_world_x t = z) \/
            Exists (fun gap => gap_takes_column gap z) new_gaps)).
Proof.
  unfold _generate_chunk.
  eapply returns_bind with (P := fun tp => tp = chunk_columns chunk_x).
  { intros s. exists (chunk_columns chunk_x), s.
    split; [apply tile_positions_of_chunk | reflexivity]. }
  intros ? ->.
  eapply returns_bind.
  { apply returns_conj.
    - apply (returns_gap_loop_exact chunk_x). simpl. lia.
    - apply (returns_gap_loop_quiet _ _ distance); [simpl; lia|].
      intros Hd. replace (100 <? distance) with false
        by (symmetry; apply Z.ltb_ge; exact Hd).
      apply Qle_refl. }
  intros [gap_positions g1] [(Ht1 & new_gaps & Hg1 & Hin & Hz) [_ Hq]].
  cbn [fst snd] in *.
  eapply returns_weaken.
  { apply returns_columns_exact.
    intros [idx tile_x] Hcol. cbn [fst]. eapply enumerate_In. exact Hcol. }
  intros g2 (Hg2 & ts & Ht2 & H1 & H2). rewrite enumerate_snd in H1, H2.
  assert (Hmark : forall z, z ∈ gap_positions <->
                    Exists (fun gap => gap_takes_column gap z) new_gaps).
  { intros z. rewrite Hz. split; [|auto].
    intros [H | H]; [|exact H]. apply not_elem_of_empty in H. contradiction. }
  exists new_gaps, ts.
  split; [congruence|]. split; [congruence|]. split; [exact Hin|]. split.
  - intros Hd. injection (Hq Hd) as _ ->.
    rewrite <- (app_nil_r (gaps g)) in Hg1 at 1.
    apply app_inv_head in Hg1. auto.
  - split.
    + intros t Hin'. destruct (H1 t Hin') as [Hc Hn].
      split; [exact Hc|]. rewrite <- Hmark. exact Hn.
    + intros z Hc. destruct (decide (z ∈ gap_positions)) as [Hy|Hn].
      * right. apply Hmark. exact Hy.
      * left. apply H2; assumption.
Qed.

(** X19: in every chunk, every one of the seven tile columns has a
    ground tile or lies inside a gap, never both: the gaps appended are
    one to three whole columns within the chunk, and no ground tile
    appended with them overlaps any of them. *)
Theorem chunk_columns_are_ground_or_gap (tileset_loaded : bool)
    (chunk_x distance : Z) (g : LevelGenerator) (s : Random.source) :
  exists (g' : LevelGenerator) (s' : Random.source)
         (new_gaps : list Gap) (new_tiles : list Ground),
    _generate_chunk tileset_loaded chunk_x distance g s = Some (g', s') /\
    gaps g' = gaps g ++ new_gaps /\
    ground_tiles g' = ground_tiles g ++ new_tiles /\
    Forall (fun gap =>
              chunk_x <= start_x gap /\
              end_x gap = start_x gap + width gap /\
              end_x gap <= chunk_x + 448 /\
              In (width gap) [64; 128; 192]) new_gaps /\
    Forall (fun t =>
              Forall (fun gap => g_world_x t + 64 <= start_x gap \/
                                 end_x gap <= g_world_x t) new_gaps) new_tiles /\
    Forall (fun z =>
              Exists (fun t => g_world_x t = z) new_tiles \/
              Exists (fun gap => start_x gap <= z < end_x gap) new_gaps)
           (chunk_columns chunk_x).
Proof.
  destruct (returns_generate_chunk_exact tileset_loaded chunk_x distance g s)
    as (g' & s' & E & new_gaps & ts & Hg & Ht & Hin & _ & H1 & H2).
  exists g', s', new_gaps, ts.
  split; [exact E|]. split; [exact Hg|]. split; [exact Ht|].
  rewrite List.Forall_forall in Hin.
  split; [|split].
  - apply List.Forall_forall. intros gap Hgap.
    destruct (Hin gap Hgap) as (a & k & Hs & Hw & He & Ha & Hk & Hak).
    split; [lia|]. split; [exact He|]. split; [lia|].
    rewrite Hw. assert (k = 1 \/ k = 2 \/ k = 3) as [-> | [-> | ->]] by lia;
      simpl; auto.
  - apply List.Forall_forall. intros t Hin'.
    apply List.Forall_forall. intros gap Hgap.
    destruct (H1 t Hin') as [Hc Hn].
    apply chunk_columns_In in Hc. destruct Hc as (m & Hm & Hx).
    destruct (Hin gap Hgap) as (a & k & Hs & Hw & He & Ha & Hk & Hak).
    destruct (Z_lt_le_dec m a) as [Hlt|Hge]; [left; lia|].
    destruct (Z_lt_le_dec m (a + k)) as [Hlt'|Hge']; [|right; lia].
    exfalso. apply Hn. apply List.Exists_exists. exists gap.
    split; [exact Hgap|]. exists (m - a). lia.
  - apply List.Forall_forall. intros z Hz.
    destruct (H2 z Hz) as [(t & Hin' & Hx) | Hex].
    + left. apply List.Exists_exists. exists t. auto.
    + right. apply List.Exists_exists in Hex. destruct Hex as (gap & Hgap & j & Hj0 & Hj & ->).
      apply List.Exists_exists. exists gap. split; [exact Hgap|].
      destruct (Hin gap Hgap) as (a & k & Hs & Hw & He & _). lia.
Qed.

(** X20: near the start the terrain is safe, whatever is drawn: a chunk
    generated at a distance of at most 100 has no gap and a ground tile
    on each of its seven columns, at most 80 also no platform, and at
    most 50 also no bush; and generation never touches the frontier, the
    difficulty, the tier flag or the stored stash. *)
Theorem no_hazards_near_the_start (tileset_loaded : bool)
    (chunk_x distance : Z) (g : LevelGenerator) (s : Random.source) :
  exists (g' : LevelGenerator) (s' : Random.source),
    _generate_chunk tileset_loaded chunk_x distance g s = Some (g', s') /\
    last_generated_x g' = last_generated_x g /\
    difficulty g' = difficulty g /\
    yarn_reset_to_basic g' = yarn_reset_to_basic g /\
    current_stash g' = current_stash g /\
    (distance <= 100 ->
       gaps g' = gaps g /\
       exists new_tiles,
         ground_tiles g' = ground_tiles g ++ new_tiles /\
         Forall (fun z => Exists (fun t => g_world_x t = z) new_tiles)
                (chunk_columns chunk_x)) /\
    (distance <= 80 -> platforms g' = platforms g) /\
    (distance <= 50 -> bushes g' = bushes g).
Proof.
  destruct (returns_conj _ _ _
              (returns_generate_chunk_quiet tileset_loaded chunk_x distance g)
              (returns_generate_chunk_exact tileset_loaded chunk_x distance g) s)
    as (g' & s' & E & ((S1 & S2 & S3 & S4) & Q1 & Q2 & Q3)
        & new_gaps & ts & Hg & Ht & _ & Hno & _ & H2).
  exists g', s'. split; [exact E|].
  repeat (split; [assumption|]).
  split; [|split; assumption].
  intros Hd. split; [apply Q1; exact Hd|].
  exists ts. split; [exact Ht|].
  apply List.Forall_forall. intros z Hz.
  destruct (H2 z Hz) as [(t & Hin & Hx) | Hex].
  - apply List.Exists_exists. exists t. auto.
  - rewrite (Hno Hd) in Hex. inversion Hex.
Qed.

Lemma no_hazards_near_the_start_witness :
  exists (g' : LevelGenerator) (s' : Random.source),
    _generate_chunk false 1200 40 init (Random.constant 0) = Some (g', s') /\
    gaps g' = [] /\ platforms g' = [] /\ bushes g' = [].
Proof.
  destruct (no_hazards_near_the_start false 1200 40 init (Random.constant 0))
    as (g' & s' & E & _ & _ & _ & _ & H100 & H80 & H50).
  exists g', s'. split; [exact E|].
  split; [exact (proj1 (H100 ltac:(lia)))|].
  split; [exact (H80 ltac:(lia)) | exact (H50 ltac:(lia))].
Defined.

(** ** [update]: the frontier and the cleanup *)







(** ** The terrain a run starts on *)

Lemma returns_Ground_init_exact (tileset_loaded : bool) (x y : Z) (l r : bool) :
  returns (Ground_init tileset_loaded x y l r)
          (fun t => t = mk_ground x y l r).
Proof.
  unfold Ground_init.
  eapply returns_bind with (P := fun _ => True).
  - destruct tileset_loaded; [|apply returns_ret; exact I].
    unfold build_from_tileset.
    apply returns_for_range. intros row.
    apply returns_for_range. intros col.
    apply returns_build_cell.
  - intros _ _. apply returns_ret. reflexivity.
Qed.

Lemma returns_initial_ground (tileset_loaded : bool) (xs : list Z)
    (g : LevelGenerator) :
  returns
    (for_each xs
       (fun x g =>
          Random.bind (Ground_init tileset_loaded x GROUND_Y false false)
            (fun t => Random.ret (add_ground t g))) g)
    (fun g' =>
       ground_tiles g' =
         ground_tiles g ++ map (fun x => mk_ground x GROUND_Y false false) xs /\
       gaps g' = gaps g /\ platforms g' = platforms g /\ bushes g' = bushes g /\
       yarns g' = yarns g).
Proof.
  revert g. induction xs as [|x xs IH]; intros g; cbn [for_each map].
  - apply returns_ret. rewrite app_nil_r. auto.
  - eapply returns_bind with
      (P := fun g1 => g1 = add_ground (mk_ground x GROUND_Y false false) g).
    { eapply returns_bind; [apply returns_Ground_init_exact|].
      intros t ->. apply returns_ret. reflexivity. }
    intros g1 ->.
    eapply returns_weaken; [apply IH|].
    intros g' (Ht & Hg & Hp & Hb & Hy). simpl in Ht, Hg, Hp, Hb, Hy.
    rewrite Ht, <- app_assoc. auto.
Qed.

(** X22: whatever is drawn, [generate_initial] returns and lays twenty
    plain ground tiles side by side from -64 to 1152, with no gap, bush
    or platform, sets the frontier to 1200, and puts three pickups 60
    above the ground at x = 300, 450 and 600; so on a new generator
    [get_ground_at] answers the ground level everywhere. *)
Theorem run_starts_on_solid_ground (tileset_loaded : bool) (g : LevelGenerator)
    (s : Random.source) :
  exists (g' : LevelGenerator) (s' : Random.source) (y1 y2 y3 : YarnSkein),
    generate_initial tileset_loaded g s = Some (g', s') /\
    ground_tiles g' =
      ground_tiles g ++
      map (fun k => mk_ground (64 * Z.of_nat k - 64) GROUND_Y false false) (seq 0 20) /\
    gaps g' = gaps g /\ platforms g' = platforms g /\ bushes g' = bushes g /\
    last_generated_x g' = 1200 /\
    yarns g' = yarns g ++ [y1; y2; y3] /\
    map (fun y => (world_x y, world_y y)) [y1; y2; y3]
      = [(300, 524); (450, 524); (600, 524)] /\
    (gaps g = [] -> forall x : Q, get_ground_at g' x = Some GROUND_Y).
Proof.
  unfold generate_initial.
  destruct (returns_initial_ground tileset_loaded
              (py_range (- GROUND_TILE_SIZE) (SCREEN_WIDTH + CHUNK_WIDTH)
                 GROUND_TILE_SIZE) g s)
    as (g1 & s1 & E1 & Ht & Hg & Hp & Hb & Hy).
  unfold Random.bind at 1. rewrite E1.
  cbn [for_each].
  set (g2 := set_last_generated_x (SCREEN_WIDTH + CHUNK_WIDTH) g1).
  destruct (returns_spawn_yarn (300 + 0 * 150) (GROUND_Y - 60) 0 s1)
    as (r1 & s2 & Ey1 & y1 & -> & Hx1 & Hw1).
  unfold Random.bind at 1. unfold Random.bind at 1. rewrite Ey1.
  cbn [Random.ret].
  destruct (returns_spawn_yarn (300 + 1 * 150) (GROUND_Y - 60) 0 s2)
    as (r2 & s3 & Ey2 & y2 & -> & Hx2 & Hw2).
  unfold Random.bind at 1. unfold Random.bind at 1. rewrite Ey2.
  cbn [Random.ret].
  destruct (returns_spawn_yarn (300 + 2 * 150) (GROUND_Y - 60) 0 s3)
    as (r3 & s4 & Ey3 & y3 & -> & Hx3 & Hw3).
  unfold Random.bind at 1. unfold Random.bind at 1. rewrite Ey3.
  cbn [Random.ret].
  eexists _, _, y1, y2, y3. split; [reflexivity|].
  cbn [add_yarn ground_tiles gaps platforms bushes yarns last_generated_x g2
       set_last_generated_x].
  unfold g2. cbn [ground_tiles gaps platforms bushes yarns last_generated_x
                  set_last_generated_x].
  split; [rewrite Ht; reflexivity|].
  split; [exact Hg|]. split; [exact Hp|]. split; [exact Hb|].
  split; [reflexivity|].
  split; [rewrite Hy, <- !app_assoc; reflexivity|].
  split; [cbn [map]; rewrite Hx1, Hw1, Hx2, Hw2, Hx3, Hw3; reflexivity|].
  intros Hno x. unfold get_ground_at. cbn [gaps]. rewrite Hg, Hno. reflexivity.
Qed.

Lemma run_starts_on_solid_ground_witness :
  exists (g' : LevelGenerator) (s' : Random.source),
    generate_initial false init (Random.constant 0) = Some (g', s') /\
    get_ground_at g' (500 # 1) = Some GROUND_Y.
Proof.
  destruct (run_starts_on_solid_ground false init (Random.constant 0))
    as (g' & s' & y1 & y2 & y3 & E & _ & _ & _ & _ & _ & _ & _ & H).
  exists g', s'. split; [exact E|]. apply H. reflexivity.
Defined.

End ChunkProperties.

(* ===================================================================== *)
(** * Properties of the tempo tracking *)
(* ===================================================================== *)

Section SoundProperties.
Local Open Scope R_scope.

(** X23: for a speed multiplier between 1 and 3 the target tempo lies
    between the minimum and the maximum tempo and grows with the speed; a
    hit puts it back to the minimum. *)
Theorem target_tempo_stays_in_band (sm sm' : R) (s : Sound.t) :
  Sound.min_tempo s <= Sound.max_tempo s ->
  1 <= sm <= sm' -> sm' <= 3 ->
  Sound.min_tempo s <= Sound.target_tempo (Sound.set_speed_multiplier sm s) /\
  Sound.target_tempo (Sound.set_speed_multiplier sm s)
  <= Sound.target_tempo (Sound.set_speed_multiplier sm' s) /\
  Sound.target_tempo (Sound.set_speed_multiplier sm' s) <= Sound.max_tempo s /\
  Sound.target_tempo (Sound.on_player_hit (Sound.set_speed_multiplier sm s))
  = Sound.min_tempo s.
Proof.
  intros Hb Hs Hs'. simpl. repeat split; try nra.
Qed.

Lemma target_tempo_stays_in_band_witness :
  1 <= Sound.target_tempo (Sound.set_speed_multiplier 2 Sound.init) <= 14 / 10.
Proof.
  destruct (target_tempo_stays_in_band 2 3 Sound.init) as (H1 & H2 & H3 & _);
    simpl in *; lra.
Defined.







End SoundProperties.

(* ===================================================================== *)
(** * Properties of the bush hitbox *)
(* ===================================================================== *)

Section HitboxProperties.
Import Obstacles.
Local Open Scope Z_scope.

(** X26: the hitbox of a bush lies inside its sprite, for every size
    that is not negative: it is inset by a sixth of the width on the left
    and a quarter of the height on top, and ends before the right and
    bottom edges; for the default 64 x 48 bush it is the 42 x 32 box at
    (x + 10, y + 12). *)
Theorem bush_hitbox_is_inside_the_sprite (b : Bush) :
  0 <= b_width b -> 0 <= b_height b ->
  let '(hx, hy, hw, hh) := Bush_hitbox b in
  b_world_x b <= hx /\ hx + hw <= b_world_x b + b_width b /\
  b_world_y b <= hy /\ hy + hh <= b_world_y b + b_height b /\
  0 <= hw /\ 0 <= hh /\
  (b_width b = 64 -> b_height b = 48 ->
   (hx, hy, hw, hh) = (b_world_x b + 10, b_world_y b + 12, 42, 32)).
Proof.
  intros Hw Hh. unfold Bush_hitbox.
  repeat split; try (Z.to_euclidean_division_equations; lia).
  intros -> ->. reflexivity.
Qed.

Lemma bush_hitbox_is_inside_the_sprite_witness :
  Bush_hitbox (Bush_init 1210 548) = (1220, 560, 42, 32).
Proof.
  pose proof (bush_hitbox_is_inside_the_sprite (Bush_init 1210 548)
                ltac:(simpl; lia) ltac:(simpl; lia)) as H.
  destruct (Bush_hitbox (Bush_init 1210 548)) as [[[l t] w] h].
  destruct H as (_ & _ & _ & _ & _ & _ & H).
  exact (H eq_refl eq_refl).
Defined.

End HitboxProperties.
